(** * Creator Studio AI: the automation workflow, the selection helper,
      the JSON helper and the video poller

    A shallow embedding of

    - [src/services/geminiService.ts]: [parseJsonFromText],
      [selectBestOption], [runFullWorkflow] (with its inner [runStep]);
    - the application root (imports [./types], [./components/ToolCard]):
      [runAutomation] and its [onProgressCallback];
    - [src/components/ToolView.tsx]: [cleanupPolling] and
      [handleVideoGenerationSubmit] with its interval callback.

    Promises are modelled by their settlement ([Outcome]): an [async]
    function is a computation over an explicit world that ends either
    [Resolved] or [Rejected].  Calls to the hosted model are oracles of the
    world; every call is appended to a log, so that "no call is made" is a
    statement about the log.

    The workflow is modelled twice.  [GeminiService] and [App] take the
    answers of the generation functions to have their declared types;
    [Untyped] is the same code on the JSON values that arrive at run time,
    with the one-field checks of the generation functions, and
    [typed_run_untyped] shows the first to be the second on answers of the
    declared types.  Likewise [ToolView.tick] is a run of the interval
    callback that settles before the next period, and [Interleaved] splits
    the callback at its [await]s, so that runs may overlap. *)

From Stdlib Require Import List String Ascii NArith PArith Bool Lia.
From Stdlib Require Import DecimalString.
From Stdlib Require Import ZArith DecimalN.
Import ListNotations.

Set Implicit Arguments.

(* ================================================================= *)
(** * JavaScript strings *)

Module JS.

(** A JavaScript string is a sequence of UTF-16 code units. *)
Definition jsstring := list N.

(** ASCII literals of the source, as code units. *)
Fixpoint lit (s : string) : jsstring :=
  match s with
  | EmptyString => []
  | String c s' => N_of_ascii c :: lit s'
  end.

Fixpoint eqb (a b : jsstring) : bool :=
  match a, b with
  | [], [] => true
  | x :: a', y :: b' => N.eqb x y && eqb a' b'
  | _, _ => false
  end.

(** [!s] on a string: only the empty string is falsy. *)
Definition falsy (s : jsstring) : bool :=
  match s with [] => true | _ => false end.

(** ECMAScript [WhiteSpace] and [LineTerminator] code points, the ones
    [String.prototype.trim] strips. *)
Definition is_whitespace (c : N) : bool :=
  ((9 <=? c) && (c <=? 13)
   || (c =? 32) || (c =? 160) || (c =? 5760)
   || ((8192 <=? c) && (c <=? 8202))
   || (c =? 8232) || (c =? 8233) || (c =? 8239) || (c =? 8287)
   || (c =? 12288) || (c =? 65279))%N.

Fixpoint trimStart (s : jsstring) : jsstring :=
  match s with
  | [] => []
  | c :: s' => if is_whitespace c then trimStart s' else s
  end.

Definition trimEnd (s : jsstring) : jsstring := rev (trimStart (rev s)).

Definition trim (s : jsstring) : jsstring := trimEnd (trimStart s).

(** [stripPrefix p s]: the rest of [s] after [p] when [s] starts with [p]. *)
Fixpoint stripPrefix (p s : jsstring) : option jsstring :=
  match p, s with
  | [], _ => Some s
  | x :: p', y :: s' => if N.eqb x y then stripPrefix p' s' else None
  | _ :: _, [] => None
  end.

Definition startsWith (s p : jsstring) : bool :=
  match stripPrefix p s with Some _ => true | None => false end.

(** [s.includes(sub)] on strings. *)
Fixpoint includes (s sub : jsstring) : bool :=
  startsWith s sub ||
  match s with
  | [] => false
  | _ :: s' => includes s' sub
  end.

(** [arr.includes(x)] on an array of strings (SameValueZero on strings is
    equality of the code units). *)
Definition array_includes (arr : list jsstring) (x : jsstring) : bool :=
  existsb (eqb x) arr.

(** [arr.join(sep)]. *)
Fixpoint join (sep : jsstring) (arr : list jsstring) : jsstring :=
  match arr with
  | [] => []
  | [x] => x
  | x :: rest => x ++ sep ++ join sep rest
  end.

(** The canonical property name of the array index [i]. *)
Definition index_name (i : nat) : jsstring :=
  lit (NilEmpty.string_of_uint (Nat.to_uint i)).

(** What a [throw] can carry: an [Error] instance with its [message], or
    any other value (for which [e instanceof Error] is false). *)
Inductive Thrown : Type :=
| ErrorObj (message : jsstring)
| NonError (value : jsstring).

(** The settlement of a promise (or the completion of a [try] block). *)
Inductive Outcome (A : Type) : Type :=
| Resolved (a : A)
| Rejected (e : Thrown).
Arguments Resolved {A} a.
Arguments Rejected {A} e.

(** Effectful code over a world [W]: state passing with exceptions. *)
Definition M (W A : Type) : Type := W -> Outcome A * W.

Definition ret {W A} (a : A) : M W A := fun w => (Resolved a, w).

Definition bind {W A B} (m : M W A) (k : A -> M W B) : M W B :=
  fun w =>
    match m w with
    | (Resolved a, w') => k a w'
    | (Rejected e, w') => (Rejected e, w')
    end.

Definition throw {W A} (e : Thrown) : M W A := fun w => (Rejected e, w).

(** [try { body } catch (e) { handler e }]. *)
Definition try_catch {W A} (body : M W A) (handler : Thrown -> M W A) : M W A :=
  fun w =>
    match body w with
    | (Resolved a, w') => (Resolved a, w')
    | (Rejected e, w') => handler e w'
    end.

(** [try { body } finally { fin }] for a [fin] that only updates state. *)
Definition try_finally {W A} (body : M W A) (fin : W -> W) : M W A :=
  fun w => let (r, w') := body w in (r, fin w').

Definition modify {W} (f : W -> W) : M W unit := fun w => (Resolved tt, f w).

Definition gets {W A} (f : W -> A) : M W A := fun w => (Resolved (f w), w).

(** [await] of an already settled outcome. *)
Definition await {W A} (o : Outcome A) : M W A := fun w => (o, w).

End JS.

Import JS.

Declare Scope js_scope.
Delimit Scope js_scope with js.
Notation "x <- m ;; k" := (bind m (fun x => k))
  (at level 61, m at next level, right associativity) : js_scope.
Notation "m ;;; k" := (bind m (fun _ => k))
  (at level 61, right associativity) : js_scope.
Open Scope js_scope.

(* ================================================================= *)
(** * [types.ts] *)

Module Types.

Record ListContent : Type := {
  alternatives : list jsstring;
  chosen : option jsstring            (* [string | null] *)
}.

(** [StepStatus]. *)
Inductive StepStatus : Type :=
| pending | running | selecting | completed | failed.

(** The numeric fields of [TitleOption] ([char_count], [scores]) are read
    by none of the modelled functions and are left out. *)
Record TitleOption : Type := {
  text : jsstring;
  style_tags : list jsstring;
  keyword_included : bool;
  rationale : jsstring
}.

Record TopPick : Type := {
  pick_text : jsstring;               (* [text] *)
  reason : jsstring
}.

Record TitleGenerationResponse : Type := {
  titles : list TitleOption;
  top_picks : list TopPick;
  best_title : TopPick;
  notes : jsstring
}.

Record Chapter : Type := {
  chapter_title : jsstring;           (* [title] *)
  timestamp : jsstring
}.

Record DescriptionGenerationResponse : Type := {
  description : jsstring;
  chapters : list Chapter;
  hashtags : list jsstring;
  keywords : list jsstring;
  pinned_comment : jsstring
}.

Record ScriptMetadata : Type := {
  estimated_duration : jsstring;
  tone : jsstring;
  language : jsstring
}.

Record ScriptSection : Type := {
  section_id : jsstring;              (* [id] *)
  time_range : jsstring;
  narration : jsstring;
  on_screen_text : jsstring;
  visuals_broll : list jsstring;
  graphics : list jsstring;
  sfx_music : list jsstring;
  beats : option (list jsstring)
}.

Record ScriptCTA : Type := {
  cta_time_range : option jsstring;
  cta_narration : jsstring;
  cta_on_screen_text : jsstring;
  cta_visuals_broll : list jsstring
}.

Record ScriptAlternatives : Type := {
  alt_hooks : list jsstring;          (* [hooks] *)
  ctas : list jsstring;
  title_ideas : list jsstring
}.

Record ScriptGenerationResponse : Type := {
  metadata : ScriptMetadata;
  sections : list ScriptSection;
  midroll_cta : ScriptCTA;
  final_cta : ScriptCTA;
  script_alternatives : ScriptAlternatives   (* [alternatives] *)
}.

(** [StepContent = string | string[] | ListContent | null].  [runStep]
    also stores raw generation responses through the cast
    [result as StepContent]; they are the last three constructors. *)
Inductive StepContent : Type :=
| ContentNull
| ContentText (s : jsstring)
| ContentList (l : list jsstring)
| ContentSelection (c : ListContent)
| ContentTitles (r : TitleGenerationResponse)
| ContentDescription (r : DescriptionGenerationResponse)
| ContentScript (r : ScriptGenerationResponse).

Record WorkflowStep : Type := {
  id : jsstring;
  label : jsstring;
  status : StepStatus;
  content : StepContent
}.

End Types.

Import Types.

(* ================================================================= *)
(** * [services/geminiService.ts] *)

Module GeminiService.

(** ** [parseJsonFromText] (geminiService.ts, lines 17-26) *)

Definition fence_open : jsstring := lit "```json" ++ [10%N].
Definition fence_close : jsstring := 10%N :: lit "```".

(** The lazy group [([\s\S]*?)] followed by [close]: the shortest prefix of
    [s] after which [close] matches. *)
Fixpoint lazy_group (close s : jsstring) : option jsstring :=
  match stripPrefix close s with
  | Some _ => Some []
  | None =>
      match s with
      | [] => None
      | c :: s' => option_map (cons c) (lazy_group close s')
      end
  end.

(** [text.match(/```json\n([\s\S]*?)\n```/)], giving [match[1]]: the matcher
    tries every start position from the left. *)
Fixpoint match_fence (s : jsstring) : option jsstring :=
  let next :=
    match s with
    | [] => None
    | _ :: s' => match_fence s'
    end in
  match stripPrefix fence_open s with
  | Some rest =>
      match lazy_group fence_close rest with
      | Some g => Some g
      | None => next
      end
  | None => next
  end.

Section ParseJson.

(** [JSON.parse] is a built-in of the host: a value, or a thrown
    [SyntaxError]. *)
Variable JsValue : Type.
Variable js_null : JsValue.
Variable JSON_parse : jsstring -> Outcome JsValue.
Variable W : Type.

Definition parseJsonFromText (text : jsstring) : M W JsValue :=
  let jsonString :=
    match match_fence text with
    | Some g => trim g
    | None => trim text
    end in
  try_catch
    (await (JSON_parse jsonString))
    (fun e => (* console.error("Failed to parse JSON:", jsonString) *)
       ret js_null).

End ParseJson.

(** ** The automation agent's data *)

(** [WorkflowProgressUpdate]; [data] is optional ([None] is [undefined]). *)
Record WorkflowProgressUpdate : Type := {
  stepId : jsstring;
  update_status : StepStatus;         (* [status] *)
  data : option StepContent
}.

(** What [runStep] inspects of a generic result [T] at run time:
    [typeof result === 'object' && result !== null], the property names the
    [in] operator finds, and the cast [result as StepContent].  The
    prototypes of objects and arrays have no property [alternatives], so the
    names listed are the own ones. *)
Class JsResult (T : Type) : Type := {
  is_object : T -> bool;
  propertyNames : T -> list jsstring;
  asStepContent : T -> StepContent
}.

#[export] Instance JsResult_array : JsResult (list jsstring) := {
  is_object := fun _ => true;
  propertyNames := fun l => lit "length" :: map index_name (seq 0 (List.length l));
  asStepContent := ContentList
}.

#[export] Instance JsResult_titles : JsResult TitleGenerationResponse := {
  is_object := fun _ => true;
  propertyNames := fun _ =>
    [lit "titles"; lit "top_picks"; lit "best_title"; lit "notes"];
  asStepContent := ContentTitles
}.

#[export] Instance JsResult_description : JsResult DescriptionGenerationResponse := {
  is_object := fun _ => true;
  propertyNames := fun _ =>
    [lit "description"; lit "chapters"; lit "hashtags"; lit "keywords";
     lit "pinned_comment"];
  asStepContent := ContentDescription
}.

(** [ScriptGenerationResponse] declares a property named [alternatives]
    (its [ScriptAlternatives]), so ['alternatives' in result] holds for an
    answer of that type.  (On an answer that lacks the property the test
    fails; that case is [Untyped.isSelectionObject].) *)
#[export] Instance JsResult_script : JsResult ScriptGenerationResponse := {
  is_object := fun _ => true;
  propertyNames := fun _ =>
    [lit "metadata"; lit "sections"; lit "midroll_cta"; lit "final_cta";
     lit "alternatives"];
  asStepContent := ContentScript
}.

(** The calls that leave the orchestrator. *)
Inductive Call : Type :=
| CallGenerateTitles (topic : jsstring)
| CallGenerateHooks (topic : jsstring)
| CallGenerateScript (topic : jsstring)
| CallGenerateDescription (transcript title : option jsstring)
| CallGenerateTags (topic : jsstring)
| CallGenerateContent (model contents : jsstring).

(** The generation functions as the orchestrator sees them: what the
    promise of each call settles to.  ([generateTitles] and the others build
    a prompt, make one request, read the answer with [parseJsonFromText]
    and throw when it fails their check.)  A resolved result is taken here
    to have its declared type.  The code checks one field of it only; the
    answers that pass the check without having the type are in [Untyped].
    [ai_generateContent] gives [response.text] of a raw request. *)
Record Backend : Type := {
  backend_generateTitles : jsstring -> Outcome TitleGenerationResponse;
  backend_generateHooks : jsstring -> Outcome (list jsstring);
  backend_generateScript : jsstring -> Outcome ScriptGenerationResponse;
  backend_generateDescription :
    option jsstring -> option jsstring -> Outcome DescriptionGenerationResponse;
  backend_generateTags : jsstring -> Outcome (list jsstring);
  ai_generateContent : jsstring -> jsstring -> Outcome jsstring
}.

(** The world of a run: the subscriber's state [sink], the updates handed
    to the progress callback so far (oldest first) and the calls made so far
    (oldest first). *)
Record World (S : Type) : Type := {
  sink : S;
  emitted : list WorkflowProgressUpdate;
  calls : list Call
}.

Section Agent.

Variable S : Type.
Variable backend : Backend.

Definition log_call (c : Call) (w : World S) : World S :=
  {| sink := sink w; emitted := emitted w; calls := calls w ++ [c] |}.

Definition call {A} (c : Call) (o : Outcome A) : M (World S) A :=
  fun w => (o, log_call c w).

Definition generateTitles (topic : jsstring) :=
  call (CallGenerateTitles topic) (backend_generateTitles backend topic).
Definition generateHooks (topic : jsstring) :=
  call (CallGenerateHooks topic) (backend_generateHooks backend topic).
Definition generateScript (topic : jsstring) :=
  call (CallGenerateScript topic) (backend_generateScript backend topic).
Definition generateDescription (transcript title : option jsstring) :=
  call (CallGenerateDescription transcript title)
       (backend_generateDescription backend transcript title).
Definition generateTags (topic : jsstring) :=
  call (CallGenerateTags topic) (backend_generateTags backend topic).
Definition generateContent (model contents : jsstring) :=
  call (CallGenerateContent model contents)
       (ai_generateContent backend model contents).

(** ** [selectBestOption] (lines 659-671) *)

(** The [contents] template of [selectBestOption]. *)
Definition selectionPrompt (options : list jsstring) (purpose : jsstring)
  : jsstring :=
  lit "From the following list, select the single best option for the purpose of "
  ++ [34%N] ++ purpose ++ [34%N]
  ++ lit ". Return ONLY the selected option as a string, with no explanation or preamble."
  ++ [10%N; 10%N] ++ lit "Options:" ++ [10%N] ++ lit "- "
  ++ join (10%N :: lit "- ") options.

(** [options[0]] (read only on a non-empty array). *)
Definition first_option (options : list jsstring) : jsstring :=
  nth 0 options [].

Definition selectBestOption (options : list jsstring) (purpose : jsstring)
  : M (World S) jsstring :=
  if Nat.eqb (List.length options) 0 then
    throw (ErrorObj (lit "Cannot select from an empty list."))
  else if Nat.eqb (List.length options) 1 then
    ret (first_option options)
  else
    response_text <-
      generateContent (lit "gemini-flash-lite-latest")
                      (selectionPrompt options purpose) ;;
    let choice := trim response_text in
    ret (if array_includes options choice then choice else first_option options).

(** ** [runFullWorkflow] and its inner [runStep] (lines 673-722) *)

Variable onProgress : WorkflowProgressUpdate -> S -> S.

(** A call of the progress callback: the subscriber's state changes and
    the update is recorded. *)
Definition emit (u : WorkflowProgressUpdate) : M (World S) unit :=
  modify (fun w =>
    {| sink := onProgress u (sink w);
       emitted := emitted w ++ [u];
       calls := calls w |}).

Definition isSelectionObject {T} `{JsResult T} (result : T) : bool :=
  is_object result && array_includes (propertyNames result) (lit "alternatives").

Definition runStep {T} `{JsResult T} (stepId : jsstring) (fn : M (World S) T)
  : M (World S) T :=
  try_catch
    (emit {| stepId := stepId; update_status := running; data := None |} ;;;
     result <- fn ;;
     (if negb (isSelectionObject result) then
        emit {| stepId := stepId; update_status := completed;
                data := Some (asStepContent result) |}
      else ret tt) ;;;
     ret result)
    (fun error =>
       (* console.error(`Error in workflow step ${stepId}:`, error) *)
       emit {| stepId := stepId; update_status := failed; data := None |} ;;;
       throw error).

Definition runFullWorkflow (topic : jsstring) : M (World S) unit :=
  try_catch
    (titleResponse <- runStep (lit "titles") (generateTitles topic) ;;
     let titles := map text (titles titleResponse) in
     emit {| stepId := lit "titles"; update_status := selecting;
             data := Some (ContentSelection
                      {| alternatives := titles; chosen := None |}) |} ;;;
     let bestTitle := pick_text (best_title titleResponse) in
     emit {| stepId := lit "titles"; update_status := completed;
             data := Some (ContentSelection
                      {| alternatives := titles; chosen := Some bestTitle |}) |} ;;;
     hooks <- runStep (lit "hooks") (generateHooks bestTitle) ;;
     scriptResponse <- runStep (lit "script") (generateScript bestTitle) ;;
     emit {| stepId := lit "script"; update_status := completed;
             data := Some (ContentText (lit
               "Script generated successfully. View in the tool for full details.")) |} ;;;
     descriptionResponse <-
       runStep (lit "description") (generateDescription None (Some bestTitle)) ;;
     emit {| stepId := lit "description"; update_status := completed;
             data := Some (ContentText (description descriptionResponse)) |} ;;;
     _ <- runStep (lit "tags") (generateTags bestTitle) ;;
     ret tt)
    (fun error =>
       (* console.error("YouTube Automation workflow failed.") *)
       ret tt).

End Agent.

End GeminiService.

Import GeminiService.

(* ================================================================= *)
(** * The application root: [runAutomation] (lines 273-314) *)

Module App.

(** The React state [runAutomation] reads and writes. *)
Record AppState : Type := {
  agentPrompt : jsstring;
  isLoadingAgent : bool;
  agentError : option jsstring;
  workflowSteps : option (list WorkflowStep)
}.

Definition setAgentPrompt (v : jsstring) (st : AppState) : AppState :=
  {| agentPrompt := v; isLoadingAgent := isLoadingAgent st;
     agentError := agentError st; workflowSteps := workflowSteps st |}.
Definition setIsLoadingAgent (v : bool) (st : AppState) : AppState :=
  {| agentPrompt := agentPrompt st; isLoadingAgent := v;
     agentError := agentError st; workflowSteps := workflowSteps st |}.
Definition setAgentError (v : option jsstring) (st : AppState) : AppState :=
  {| agentPrompt := agentPrompt st; isLoadingAgent := isLoadingAgent st;
     agentError := v; workflowSteps := workflowSteps st |}.
(** [setWorkflowSteps] with a functional updater. *)
Definition setWorkflowSteps
  (f : option (list WorkflowStep) -> option (list WorkflowStep))
  (st : AppState) : AppState :=
  {| agentPrompt := agentPrompt st; isLoadingAgent := isLoadingAgent st;
     agentError := agentError st; workflowSteps := f (workflowSteps st) |}.

Definition initialSteps : list WorkflowStep :=
  [ {| id := lit "titles"; label := lit "Generating Viral Titles";
       status := pending; content := ContentNull |};
    {| id := lit "hooks"; label := lit "Creating Catchy Hooks";
       status := pending; content := ContentNull |};
    {| id := lit "script"; label := lit "Writing Full Script";
       status := pending; content := ContentNull |};
    {| id := lit "description"; label := lit "Drafting Video Description";
       status := pending; content := ContentNull |};
    {| id := lit "tags"; label := lit "Optimizing SEO Tags";
       status := pending; content := ContentNull |} ].

(** The updater [onProgressCallback] hands to [setWorkflowSteps]:
    [prevSteps => !prevSteps ? null : prevSteps.map(step => ...)]. *)
Definition applyUpdate (update : WorkflowProgressUpdate) (step : WorkflowStep)
  : WorkflowStep :=
  if JS.eqb (id step) (stepId update) then
    {| id := id step; label := label step;
       status := update_status update;
       content := match data update with
                  | Some d => d
                  | None => content step
                  end |}
  else step.

Definition progressUpdater (update : WorkflowProgressUpdate)
  (prevSteps : option (list WorkflowStep)) : option (list WorkflowStep) :=
  match prevSteps with
  | None => None
  | Some steps => Some (map (applyUpdate update) steps)
  end.

Definition onProgressCallback (update : WorkflowProgressUpdate) (st : AppState)
  : AppState :=
  setWorkflowSteps (progressUpdater update) st.

(** The updater of the [catch] block:
    [prev?.map(s => running or selecting ? {...s, status: 'failed'} : s) || null]. *)
Definition failActive (s : WorkflowStep) : WorkflowStep :=
  match status s with
  | running | selecting =>
      {| id := id s; label := label s; status := failed; content := content s |}
  | _ => s
  end.

Definition set_state (f : AppState -> AppState) : M (World AppState) unit :=
  modify (fun w =>
    {| sink := f (sink w); emitted := emitted w; calls := calls w |}).

Definition runAutomation (backend : Backend) (topic : jsstring)
  : M (World AppState) unit :=
  if falsy topic then
    set_state (setAgentError (Some (lit "Please enter a video topic to automate.")))
  else
    st <- gets (@sink AppState) ;;
    (* Prevent re-running if already running on the same topic *)
    if isLoadingAgent st && JS.eqb (agentPrompt st) topic then ret tt
    else
      set_state (setAgentPrompt topic) ;;;
      set_state (setIsLoadingAgent true) ;;;
      set_state (setAgentError None) ;;;
      set_state (setWorkflowSteps (fun _ => None)) ;;;
      set_state (setWorkflowSteps (fun _ => Some initialSteps)) ;;;
      try_finally
        (try_catch
           (runFullWorkflow backend onProgressCallback topic)
           (fun err =>
              set_state (setAgentError (Some
                match err with
                | ErrorObj message => message
                | NonError _ => lit "An unexpected error occurred during automation."
                end)) ;;;
              set_state (setWorkflowSteps (option_map (map failActive)))))
        (fun w => {| sink := setIsLoadingAgent false (sink w);
                     emitted := emitted w; calls := calls w |}).

End App.

(* ================================================================= *)
(** * [components/ToolView.tsx]: the video-generation poller
      ([cleanupPolling], lines 314-319; [handleVideoGenerationSubmit],
      lines 471-527) *)

Module ToolView.

(** What the poller reads of an operation: [op.done] and
    [op.response?.generatedVideos?.[0]?.video?.uri]. *)
Record VideoOperation : Type := {
  done : bool;
  video_uri : option jsstring
}.

(** The component state the poller touches; interval handles are positive
    numbers, so a stored handle is always truthy. *)
Record ViewState : Type := {
  pollingIntervalRef : option positive;
  isLoading : bool;
  error : option jsstring;
  generatedContent : option jsstring;
  loadingMessage : jsstring;
  hasApiKey : bool
}.

(** The browser around the component: the interval timers that are still
    armed, the next handle [setInterval] returns, and the observable calls
    (status checks, fetched URLs, [onSaveAsProject]). *)
Record PollWorld : Type := {
  view : ViewState;
  activeIntervals : list positive;
  nextHandle : positive;
  statusChecks : nat;
  fetched : list jsstring;
  savedProjects : list (jsstring * jsstring * jsstring)
}.

(** What the outside answers during one run of the interval callback. *)
Record TickEnv : Type := {
  status_check : Outcome VideoOperation;   (* [checkVideoGenerationStatus] *)
  fetch_video : jsstring -> Outcome jsstring;
      (* [fetch], [blob()], [URL.createObjectURL]: the object URL *)
  API_KEY : option jsstring                (* [process.env.API_KEY] *)
}.

Definition set_view (f : ViewState -> ViewState) : M PollWorld unit :=
  modify (fun w =>
    {| view := f (view w); activeIntervals := activeIntervals w;
       nextHandle := nextHandle w; statusChecks := statusChecks w;
       fetched := fetched w; savedProjects := savedProjects w |}).

Definition setRef (v : option positive) (s : ViewState) : ViewState :=
  {| pollingIntervalRef := v; isLoading := isLoading s; error := error s;
     generatedContent := generatedContent s;
     loadingMessage := loadingMessage s; hasApiKey := hasApiKey s |}.
Definition setIsLoading (v : bool) (s : ViewState) : ViewState :=
  {| pollingIntervalRef := pollingIntervalRef s; isLoading := v; error := error s;
     generatedContent := generatedContent s;
     loadingMessage := loadingMessage s; hasApiKey := hasApiKey s |}.
Definition setError (v : option jsstring) (s : ViewState) : ViewState :=
  {| pollingIntervalRef := pollingIntervalRef s; isLoading := isLoading s;
     error := v; generatedContent := generatedContent s;
     loadingMessage := loadingMessage s; hasApiKey := hasApiKey s |}.
Definition setGeneratedContent (v : option jsstring) (s : ViewState) : ViewState :=
  {| pollingIntervalRef := pollingIntervalRef s; isLoading := isLoading s;
     error := error s; generatedContent := v;
     loadingMessage := loadingMessage s; hasApiKey := hasApiKey s |}.
Definition setLoadingMessage (v : jsstring) (s : ViewState) : ViewState :=
  {| pollingIntervalRef := pollingIntervalRef s; isLoading := isLoading s;
     error := error s; generatedContent := generatedContent s;
     loadingMessage := v; hasApiKey := hasApiKey s |}.
Definition setHasApiKey (v : bool) (s : ViewState) : ViewState :=
  {| pollingIntervalRef := pollingIntervalRef s; isLoading := isLoading s;
     error := error s; generatedContent := generatedContent s;
     loadingMessage := loadingMessage s; hasApiKey := v |}.

Definition clearInterval (h : positive) : M PollWorld unit :=
  modify (fun w =>
    {| view := view w;
       activeIntervals := filter (fun h' => negb (Pos.eqb h' h)) (activeIntervals w);
       nextHandle := nextHandle w; statusChecks := statusChecks w;
       fetched := fetched w; savedProjects := savedProjects w |}).

(** [window.setInterval(callback, 10000)]: a fresh handle, armed. *)
Definition setInterval : M PollWorld positive :=
  fun w =>
    (Resolved (nextHandle w),
     {| view := view w;
        activeIntervals := nextHandle w :: activeIntervals w;
        nextHandle := Pos.succ (nextHandle w); statusChecks := statusChecks w;
        fetched := fetched w; savedProjects := savedProjects w |}).

Definition cleanupPolling : M PollWorld unit :=
  current <- gets (fun w => pollingIntervalRef (view w)) ;;
  match current with
  | Some h => clearInterval h ;;; set_view (setRef None)
  | None => ret tt
  end.

Definition checkVideoGenerationStatus (env : TickEnv) : M PollWorld VideoOperation :=
  fun w =>
    (status_check env,
     {| view := view w; activeIntervals := activeIntervals w;
        nextHandle := nextHandle w; statusChecks := Datatypes.S (statusChecks w);
        fetched := fetched w; savedProjects := savedProjects w |}).

Definition fetchVideo (env : TickEnv) (url : jsstring) : M PollWorld jsstring :=
  fun w =>
    (fetch_video env url,
     {| view := view w; activeIntervals := activeIntervals w;
        nextHandle := nextHandle w; statusChecks := statusChecks w;
        fetched := fetched w ++ [url]; savedProjects := savedProjects w |}).

Definition onSaveAsProject (title toolId generated : jsstring) : M PollWorld unit :=
  modify (fun w =>
    {| view := view w; activeIntervals := activeIntervals w;
       nextHandle := nextHandle w; statusChecks := statusChecks w;
       fetched := fetched w;
       savedProjects := savedProjects w ++ [(title, toolId, generated)] |}).

Definition credential_signature : jsstring := lit "Requested entity was not found".

(** A truthy optional string: present and not empty. *)
Definition truthy (x : option jsstring) : option jsstring :=
  match x with
  | Some (c :: s) => Some (c :: s)
  | _ => None
  end.

Section Poller.

Variable prompt : jsstring.
Variable tool_id : jsstring.

(** The [async] callback handed to [setInterval]. *)
Definition pollCallback (env : TickEnv) : M PollWorld unit :=
  try_catch
    (set_view (setLoadingMessage (lit "Checking progress... Your video is being created.")) ;;;
     updatedOp <- checkVideoGenerationStatus env ;;
     if done updatedOp then
       cleanupPolling ;;;
       set_view (setLoadingMessage (lit "Finalizing video...")) ;;;
       match truthy (video_uri updatedOp), truthy (API_KEY env) with
       | Some downloadLink, Some key =>
           videoUrl <- fetchVideo env (downloadLink ++ lit "&key=" ++ key) ;;
           set_view (setGeneratedContent (Some videoUrl)) ;;;
           onSaveAsProject prompt tool_id videoUrl
       | _, _ =>
           throw (ErrorObj (lit "Video generation finished, but no download link was found."))
       end ;;;
       set_view (setIsLoading false)
     else ret tt)
    (fun pollError =>
       match pollError with
       | ErrorObj message =>
           if includes message credential_signature then
             set_view (setError (Some (lit
               "Your API key is invalid or has expired. Please select a new one."))) ;;;
             set_view (setHasApiKey false) ;;;
             cleanupPolling ;;;
             set_view (setIsLoading false)
           else
             (* Keep polling on other transient errors *)
             set_view (setLoadingMessage (lit "A temporary issue occurred. Still trying..."))
       | NonError _ =>
           set_view (setLoadingMessage (lit "A temporary issue occurred. Still trying..."))
       end).

(** One period of the timer [h]: the callback runs only while [h] is
    armed.  A run of the callback is taken as one step: it settles before
    the next period.  Runs that overlap are in [Interleaved], whose
    schedules without overlap are these [ticks] ([sequential_is_ticks]). *)
Definition tick (h : positive) (env : TickEnv) (w : PollWorld) : PollWorld :=
  if existsb (Pos.eqb h) (activeIntervals w) then snd (pollCallback env w) else w.

Definition ticks (h : positive) (envs : list TickEnv) (w : PollWorld) : PollWorld :=
  fold_left (fun w env => tick h env w) envs w.

(** [handleVideoGenerationSubmit], given what [startVideoGeneration]
    settles to. *)
Definition handleVideoGenerationSubmit (start : Outcome VideoOperation)
  : M PollWorld unit :=
  if falsy prompt then
    set_view (setError (Some (lit "Please enter a prompt to generate the video.")))
  else
    set_view (setIsLoading true) ;;;
    set_view (setError None) ;;;
    set_view (setGeneratedContent None) ;;;
    set_view (setLoadingMessage (lit "Initializing video generation...")) ;;;
    try_catch
      (initialOp <- await start ;;
       set_view (setLoadingMessage (lit
         "Video generation started. This process can take several minutes. Please wait...")) ;;;
       h <- setInterval ;;
       set_view (setRef (Some h)))
      (fun err =>
         set_view (setError (Some
           match err with
           | ErrorObj message => message
           | NonError _ => lit "Failed to start video generation."
           end)) ;;;
         (match err with
          | ErrorObj message =>
              if includes message credential_signature
              then set_view (setHasApiKey false) else ret tt
          | NonError _ => ret tt
          end) ;;;
         set_view (setIsLoading false)).

End Poller.

End ToolView.

Import App ToolView.

(* ================================================================= *)
(** * Vocabulary of the statements *)

Module Spec.

(** [g] is the body of the first fenced block of [text]: the opening fence
    is the leftmost one that is closed, and the body is the shortest. *)
Definition first_fenced_block (text g : jsstring) : Prop :=
  exists pre post,
    text = pre ++ fence_open ++ g ++ fence_close ++ post /\
    forall pre' g' post',
      text = pre' ++ fence_open ++ g' ++ fence_close ++ post' ->
      List.length pre < List.length pre' \/
      (List.length pre = List.length pre' /\ List.length g <= List.length g').

Definition no_fenced_block (text : jsstring) : Prop :=
  forall pre g post, text <> pre ++ fence_open ++ g ++ fence_close ++ post.

(** [v] is what parsing [src] gives: the parsed value when [src] is valid
    JSON, [js_null] when [JSON.parse] throws. *)
Definition parsed_or_null {JsValue} (JSON_parse : jsstring -> Outcome JsValue)
  (js_null : JsValue) (src : jsstring) (v : JsValue) : Prop :=
  (forall v', JSON_parse src = Resolved v' -> v = v') /\
  (forall e, JSON_parse src = Rejected e -> v = js_null).

(** ** The workflow *)

(** A run that starts with nothing emitted and no call made. *)
Definition fresh {S} (s0 : S) : World S :=
  {| sink := s0; emitted := []; calls := [] |}.

Definition update (sid : string) (st : StepStatus) (d : option StepContent)
  : WorkflowProgressUpdate :=
  {| stepId := lit sid; update_status := st; data := d |}.

(** The fixed order of the steps, and a step's place in it. *)
Definition step_order : list jsstring :=
  [lit "titles"; lit "hooks"; lit "script"; lit "description"; lit "tags"].

Fixpoint index_in (l : list jsstring) (x : jsstring) : nat :=
  match l with
  | [] => 0
  | y :: l' => if JS.eqb y x then 0 else Datatypes.S (index_in l' x)
  end.

Definition step_index (sid : jsstring) : nat := index_in step_order sid.

(** Terminal statuses. *)
Definition terminal (st : StepStatus) : bool :=
  match st with
  | completed | failed => true
  | _ => false
  end.

(** The step a generation call belongs to, and whether the backend rejects
    the call. *)
Definition call_step (c : Call) : option jsstring :=
  match c with
  | CallGenerateTitles _ => Some (lit "titles")
  | CallGenerateHooks _ => Some (lit "hooks")
  | CallGenerateScript _ => Some (lit "script")
  | CallGenerateDescription _ _ => Some (lit "description")
  | CallGenerateTags _ => Some (lit "tags")
  | CallGenerateContent _ _ => None
  end.

Definition rejected {A} (o : Outcome A) : bool :=
  match o with
  | Resolved _ => false
  | Rejected _ => true
  end.

Definition call_rejects (backend : Backend) (c : Call) : bool :=
  match c with
  | CallGenerateTitles t => rejected (backend_generateTitles backend t)
  | CallGenerateHooks t => rejected (backend_generateHooks backend t)
  | CallGenerateScript t => rejected (backend_generateScript backend t)
  | CallGenerateDescription tr ti =>
      rejected (backend_generateDescription backend tr ti)
  | CallGenerateTags t => rejected (backend_generateTags backend t)
  | CallGenerateContent m c => rejected (ai_generateContent backend m c)
  end.

(** The content shown for a finished script. *)
Definition script_done : StepContent :=
  ContentText (lit "Script generated successfully. View in the tool for full details.").

(** The updates and the calls of one run in closed form, by the outcomes of
    the generation calls, from the last step back to the first;
    [runFullWorkflow_run] proves that they are what the code emits and
    calls. *)
Definition tags_updates (backend : Backend) (bestTitle : jsstring) :=
  update "tags" running None ::
  match backend_generateTags backend bestTitle with
  | Rejected _ => [update "tags" failed None]
  | Resolved tags => [update "tags" completed (Some (ContentList tags))]
  end.

Definition description_updates (backend : Backend) (bestTitle : jsstring) :=
  update "description" running None ::
  match backend_generateDescription backend None (Some bestTitle) with
  | Rejected _ => [update "description" failed None]
  | Resolved d =>
      update "description" completed (Some (ContentDescription d)) ::
      update "description" completed (Some (ContentText (description d))) ::
      tags_updates backend bestTitle
  end.

Definition script_updates (backend : Backend) (bestTitle : jsstring) :=
  update "script" running None ::
  match backend_generateScript backend bestTitle with
  | Rejected _ => [update "script" failed None]
  | Resolved _ =>
      update "script" completed (Some script_done) ::
      description_updates backend bestTitle
  end.

Definition hooks_updates (backend : Backend) (bestTitle : jsstring) :=
  update "hooks" running None ::
  match backend_generateHooks backend bestTitle with
  | Rejected _ => [update "hooks" failed None]
  | Resolved hooks =>
      update "hooks" completed (Some (ContentList hooks)) ::
      script_updates backend bestTitle
  end.

Definition workflow_updates (backend : Backend) (topic : jsstring) :=
  update "titles" running None ::
  match backend_generateTitles backend topic with
  | Rejected _ => [update "titles" failed None]
  | Resolved r =>
      let alts := map text (titles r) in
      let bestTitle := pick_text (best_title r) in
      update "titles" completed (Some (ContentTitles r)) ::
      update "titles" selecting
        (Some (ContentSelection {| alternatives := alts; chosen := None |})) ::
      update "titles" completed
        (Some (ContentSelection {| alternatives := alts; chosen := Some bestTitle |})) ::
      hooks_updates backend bestTitle
  end.

Definition workflow_calls (backend : Backend) (topic : jsstring) : list Call :=
  CallGenerateTitles topic ::
  match backend_generateTitles backend topic with
  | Rejected _ => []
  | Resolved r =>
      let bestTitle := pick_text (best_title r) in
      CallGenerateHooks bestTitle ::
      match backend_generateHooks backend bestTitle with
      | Rejected _ => []
      | Resolved _ =>
          CallGenerateScript bestTitle ::
          match backend_generateScript backend bestTitle with
          | Rejected _ => []
          | Resolved _ =>
              CallGenerateDescription None (Some bestTitle) ::
              match backend_generateDescription backend None (Some bestTitle) with
              | Rejected _ => []
              | Resolved _ => [CallGenerateTags bestTitle]
              end
          end
      end
  end.

(** The world after the updates [us] were handed to [onProgress] and the
    calls [cs] were made. *)
Definition after {S} (onProgress : WorkflowProgressUpdate -> S -> S)
  (us : list WorkflowProgressUpdate) (cs : list Call) (w : World S) : World S :=
  {| sink := fold_left (fun s u => onProgress u s) us (sink w);
     emitted := emitted w ++ us;
     calls := calls w ++ cs |}.

(** Nothing is emitted after a Failed update. *)
Definition nothing_after_failed (trace : list WorkflowProgressUpdate) : Prop :=
  forall pre u post,
    trace = pre ++ u :: post -> update_status u = failed -> post = [].

(** Adjacent updates of the same step, grouped. *)
Fixpoint group_steps (l : list WorkflowProgressUpdate)
  : list (list WorkflowProgressUpdate) :=
  match l with
  | [] => []
  | u :: l' =>
      match group_steps l' with
      | (v :: b) :: bs =>
          if JS.eqb (stepId u) (stepId v) then (u :: v :: b) :: bs
          else [u] :: (v :: b) :: bs
      | bs => [u] :: bs
      end
  end.


(** ** The poller *)

(** The error of a status check carries the credential signature: it is an
    [Error] whose message includes "Requested entity was not found". *)
Definition credential_error (e : Thrown) : bool :=
  match e with
  | ErrorObj message => includes message credential_signature
  | NonError _ => false
  end.

(** A period whose status check fails without the credential signature. *)
Definition transient_failure (env : TickEnv) : Prop :=
  exists e, status_check env = Rejected e /\ credential_error e = false.

Definition still_trying : jsstring :=
  lit "A temporary issue occurred. Still trying...".

End Spec.

(* ================================================================= *)
(** * Sample data *)

Module Sample.

Import Spec.

Definition option_titled (s : string) : TitleOption :=
  {| text := lit s; style_tags := []; keyword_included := true;
     rationale := [] |}.

Definition laptop_titles : TitleGenerationResponse :=
  {| titles := [option_titled "10 Reasons...";
                option_titled "Is This Laptop Worth It?";
                option_titled "Laptop Review 2024"];
     top_picks := [];
     best_title := {| pick_text := lit "Is This Laptop Worth It?"; reason := [] |};
     notes := [] |}.

(** A response whose [best_title] is a rewording of one of the titles. *)
Definition reworded_titles : TitleGenerationResponse :=
  {| titles := titles laptop_titles;
     top_picks := [];
     best_title := {| pick_text := lit "Is this laptop worth it?"; reason := [] |};
     notes := [] |}.

Definition a_description : DescriptionGenerationResponse :=
  {| description := lit "An honest look at the new laptop.";
     chapters := []; hashtags := []; keywords := []; pinned_comment := [] |}.

Definition a_cta : ScriptCTA :=
  {| cta_time_range := None; cta_narration := lit "Subscribe";
     cta_on_screen_text := []; cta_visuals_broll := [] |}.

Definition a_script : ScriptGenerationResponse :=
  {| metadata := {| estimated_duration := lit "00:07:30";
                    tone := lit "friendly expert"; language := lit "en" |};
     sections := []; midroll_cta := a_cta; final_cta := a_cta;
     script_alternatives := {| alt_hooks := []; ctas := []; title_ideas := [] |} |}.

(** Every call resolves; the chooser answers [reply]. *)
Definition backend_with (t : TitleGenerationResponse) (reply : jsstring) : Backend :=
  {| backend_generateTitles := fun _ => Resolved t;
     backend_generateHooks := fun _ => Resolved [lit "You will not believe this."];
     backend_generateScript := fun _ => Resolved a_script;
     backend_generateDescription := fun _ _ => Resolved a_description;
     backend_generateTags := fun _ => Resolved [lit "laptop"; lit "review"];
     ai_generateContent := fun _ _ => Resolved reply |}.

Definition good_backend : Backend :=
  backend_with laptop_titles (lit "Laptop Review 2024").

Definition rewording_backend : Backend :=
  backend_with reworded_titles (lit "Laptop Review 2024").

(** The hooks call rejects. *)
Definition hooks_failing_backend : Backend :=
  {| backend_generateTitles := fun _ => Resolved laptop_titles;
     backend_generateHooks := fun _ => Rejected (ErrorObj (lit
       "Could not generate hooks. The response was not in the expected format."));
     backend_generateScript := fun _ => Resolved a_script;
     backend_generateDescription := fun _ _ => Resolved a_description;
     backend_generateTags := fun _ => Resolved [lit "laptop"];
     ai_generateContent := fun _ _ => Resolved [] |}.

Definition laptop_topic : jsstring := lit "review of a new laptop".

(** The runs of the samples, from a fresh world. *)
Definition good_run : Outcome unit * World unit :=
  runFullWorkflow good_backend (fun _ s => s) laptop_topic (fresh tt).

Definition rewording_run : Outcome unit * World unit :=
  runFullWorkflow rewording_backend (fun _ s => s) laptop_topic (fresh tt).

Definition hooks_failing_run : Outcome unit * World unit :=
  runFullWorkflow hooks_failing_backend (fun _ s => s) laptop_topic (fresh tt).

(** The application before any run. *)
Definition idle : AppState :=
  {| agentPrompt := []; isLoadingAgent := false; agentError := None;
     workflowSteps := None |}.

(** The tool view before a video job, with a key selected. *)
Definition idle_view : PollWorld :=
  {| view := {| pollingIntervalRef := None; isLoading := false; error := None;
                generatedContent := None; loadingMessage := [];
                hasApiKey := true |};
     activeIntervals := []; nextHandle := 1%positive; statusChecks := 0;
     fetched := []; savedProjects := [] |}.

Definition an_operation : VideoOperation := {| done := false; video_uri := None |}.

Definition a_prompt : jsstring := lit "a cat surfing a wave".
Definition video_tool : jsstring := lit "shorts-video-generator".

(** The view once the job has started: the timer with handle 1 is armed. *)
Definition polling_view : PollWorld :=
  snd (handleVideoGenerationSubmit a_prompt (Resolved an_operation) idle_view).

(** One period: what the status check settles to, with a key in the
    environment and downloads that succeed. *)
Definition answering (o : Outcome VideoOperation) : TickEnv :=
  {| status_check := o;
     fetch_video := fun _ => Resolved (lit "blob:video");
     API_KEY := Some (lit "key") |}.

(** The backend reports the job done and gives no video. *)
Definition done_without_link : TickEnv :=
  answering (Resolved {| done := true; video_uri := None |}).

Definition network_down : TickEnv :=
  answering (Rejected (ErrorObj (lit "Failed to fetch"))).

Definition key_expired : TickEnv :=
  answering (Rejected (ErrorObj (lit
    "404 NOT_FOUND: Requested entity was not found."))).

End Sample.

Import Spec.

(* ================================================================= *)
(** * Numbers as text *)

Module JSNumber.

(** [String(n)], and [n] in a template literal, for a non-negative whole
    number [n]. *)
Definition decimal (n : N) : jsstring :=
  lit (NilEmpty.string_of_uint (N.to_uint n)).

End JSNumber.

(* ================================================================= *)
(** * [services/geminiService.ts]: the X automation workflow
      ([runXWorkflow], lines 992-1016) *)

Module XWorkflow.

(** The generation calls of the X workflow. *)
Inductive XCall : Type :=
| CallGenerateViralXPost (topic : jsstring)
| CallGenerateGenericThread (topic : jsstring)
| CallGenerateXHashtags (topic : jsstring).

(** [generateViralXPost], [generateGenericThread] and [generateXHashtags]
    as the orchestrator sees them: what the promise of each call settles
    to, a resolved result having the declared type. *)
Record XBackend : Type := {
  backend_generateViralXPost : jsstring -> Outcome jsstring;
  backend_generateGenericThread : jsstring -> Outcome (list jsstring);
  backend_generateXHashtags : jsstring -> Outcome (list jsstring)
}.

(** The world of a run of the X workflow: the subscriber's state, the
    updates emitted (oldest first) and the calls made (oldest first). *)
Record XWorld (S : Type) : Type := {
  x_sink : S;
  x_emitted : list WorkflowProgressUpdate;
  x_calls : list XCall
}.

Section XAgent.

Variable S : Type.
Variable backend : XBackend.
Variable onProgress : WorkflowProgressUpdate -> S -> S.

Definition x_call {A} (c : XCall) (o : Outcome A) : M (XWorld S) A :=
  fun w =>
    (o, {| x_sink := x_sink w; x_emitted := x_emitted w;
           x_calls := x_calls w ++ [c] |}).

Definition generateViralXPost (topic : jsstring) :=
  x_call (CallGenerateViralXPost topic) (backend_generateViralXPost backend topic).
Definition generateGenericThread (topic : jsstring) :=
  x_call (CallGenerateGenericThread topic)
         (backend_generateGenericThread backend topic).
Definition generateXHashtags (topic : jsstring) :=
  x_call (CallGenerateXHashtags topic) (backend_generateXHashtags backend topic).

Definition x_emit (u : WorkflowProgressUpdate) : M (XWorld S) unit :=
  modify (fun w =>
    {| x_sink := onProgress u (x_sink w);
       x_emitted := x_emitted w ++ [u];
       x_calls := x_calls w |}).

(** The inner [runStep] of [runXWorkflow]; [asContent] is the cast
    [result as StepContent]. *)
Definition runStep {T} (asContent : T -> StepContent) (stepId : jsstring)
  (fn : M (XWorld S) T) : M (XWorld S) T :=
  try_catch
    (x_emit {| stepId := stepId; update_status := running; data := None |} ;;;
     result <- fn ;;
     (* X workflow doesn't have "selection" steps like YouTube, so we just complete *)
     x_emit {| stepId := stepId; update_status := completed;
               data := Some (asContent result) |} ;;;
     ret result)
    (fun error =>
       (* console.error(`Error in workflow step ${stepId}:`, error) *)
       x_emit {| stepId := stepId; update_status := failed; data := None |} ;;;
       throw error).

Definition runXWorkflow (topic : jsstring) : M (XWorld S) unit :=
  try_catch
    (_ <- runStep ContentText (lit "viral_post") (generateViralXPost topic) ;;
     _ <- runStep ContentList (lit "thread") (generateGenericThread topic) ;;
     _ <- runStep ContentList (lit "hashtags") (generateXHashtags topic) ;;
     ret tt)
    (fun error =>
       (* console.error("X Automation workflow failed.") *)
       ret tt).

End XAgent.

End XWorkflow.

(* ================================================================= *)
(** * The application root: [truncate] (lines 209-212) and the project
      list ([handleSaveAsProject], lines 240-250; [handleUpdateProject],
      lines 252-254) *)

Module AppProjects.

Import JSNumber.

(** [str.substring(0, len)]: an end below 0 counts as 0, an end above the
    length as the length. *)
Definition substring0 (str : jsstring) (len : Z) : jsstring :=
  firstn (Z.to_nat len) str.

Definition truncate (str : jsstring) (len : Z) : jsstring :=
  if (Z.of_nat (List.length str) <=? len)%Z then str
  else substring0 str len ++ lit "...".

(** [ProjectStatus]. *)
Inductive ProjectStatus : Type := Draft | InReview | Approved.

Record FeedbackComment : Type := {
  comment_id : jsstring;              (* [id] *)
  author : jsstring;
  comment_text : jsstring;            (* [text] *)
  comment_timestamp : jsstring        (* [timestamp] *)
}.

Section Projects.

(** [generatedContent: any]. *)
Variable Content : Type.

Record Project : Type := {
  project_id : jsstring;              (* [id] *)
  project_title : jsstring;           (* [title] *)
  toolId : jsstring;
  generatedContent : Content;
  project_status : ProjectStatus;     (* [status] *)
  feedback : list FeedbackComment
}.

(** [handleSaveAsProject]; [now] is [Date.now()]. *)
Definition handleSaveAsProject (now : N) (title toolId : jsstring)
  (generatedContent : Content) (prev : list Project) : list Project :=
  let newProject :=
    {| project_id := lit "proj_" ++ decimal now;
       project_title := if falsy title then lit "Untitled Project" else title;
       toolId := toolId;
       generatedContent := generatedContent;
       project_status := Draft;
       feedback := [] |} in
  newProject :: prev.

Definition handleUpdateProject (updatedProject : Project) (prev : list Project)
  : list Project :=
  map (fun p => if JS.eqb (project_id p) (project_id updatedProject)
                then updatedProject else p) prev.

(** ** The projects dashboard ([handleStatusChange], lines 611-613;
       [handleAddComment], lines 615-628) *)

(** The dashboard with the list it is given: [onUpdateProject] is
    [handleUpdateProject] of the application. *)
Record Dashboard : Type := {
  projects : list Project;
  newComment : jsstring
}.

Definition onUpdateProject (p : Project) (d : Dashboard) : Dashboard :=
  {| projects := handleUpdateProject p (projects d);
     newComment := newComment d |}.

Definition handleStatusChange (project : Project) (newStatus : ProjectStatus)
  (d : Dashboard) : Dashboard :=
  onUpdateProject
    {| project_id := project_id project; project_title := project_title project;
       toolId := toolId project; generatedContent := generatedContent project;
       project_status := newStatus; feedback := feedback project |} d.

(** [handleAddComment]; [now] is [Date.now()] and [iso] is
    [new Date().toISOString()]. *)
Definition handleAddComment (now : N) (iso : jsstring) (project : Project)
  (d : Dashboard) : Dashboard :=
  if falsy (trim (newComment d)) then d
  else
    let comment :=
      {| comment_id := lit "comment_" ++ decimal now;
         author := lit "Team Member";
         comment_text := newComment d;
         comment_timestamp := iso |} in
    let d' :=
      onUpdateProject
        {| project_id := project_id project; project_title := project_title project;
           toolId := toolId project; generatedContent := generatedContent project;
           project_status := project_status project;
           feedback := feedback project ++ [comment] |} d in
    {| projects := projects d'; newComment := [] |}.

End Projects.

End AppProjects.

(* ================================================================= *)
(** * [services/apiService.ts]: [apiRequest] (lines 13-55) and
      [withRetry] (lines 155-188) *)

Module ApiService.

Import JSNumber.

(** [ApiResponse<T>]: [data] and [error] are optional. *)
Record ApiResponse (T : Type) : Type := {
  api_data : option T;                (* [data] *)
  api_error : option jsstring;        (* [error] *)
  api_status : N                      (* [status] *)
}.

(** An optional property of an options object: the key may be missing, or
    present with the value [undefined], or present with a value.  An object
    spread copies the key in the last two cases. *)
Inductive Field (A : Type) : Type :=
| Absent
| Undefined
| Value (a : A).
Arguments Absent {A}.
Arguments Undefined {A}.
Arguments Value {A} a.

(** A record of strings, in insertion order. *)
Definition Headers := list (jsstring * jsstring).

(** [{ ...base, ...extra }] on records: a key of [extra] that [base] has
    takes its place there, a new key goes to the end. *)
Fixpoint assign (base : Headers) (k v : jsstring) : Headers :=
  match base with
  | [] => [(k, v)]
  | (k', v') :: rest =>
      if JS.eqb k' k then (k', v) :: rest else (k', v') :: assign rest k v
  end.

Definition spread (base extra : Headers) : Headers :=
  fold_left (fun acc kv => assign acc (fst kv) (snd kv)) extra base.

(** The part of [RequestInit] the helpers touch. *)
Record RequestInit : Type := {
  init_headers : Field Headers;       (* [headers] *)
  init_method : Field jsstring;       (* [method] *)
  init_body : Field jsstring          (* [body] *)
}.

(** What [fetch] resolves to, as far as [apiRequest] reads it: [ok],
    [status], [text()], [headers.get('content-type')] and [json()]. *)
Record Response (J : Type) : Type := {
  ok : bool;
  resp_status : N;
  resp_text : Outcome jsstring;
  resp_content_type : option jsstring;
  resp_json : Outcome J
}.

(** [data] is what [json()] or [text()] gave. *)
Inductive Body (J : Type) : Type :=
| BodyJson (v : J)
| BodyText (s : jsstring).
Arguments BodyJson {J} v.
Arguments BodyText {J} s.

(** One call of [fetch]. *)
Record FetchCall : Type := {
  fetch_url : jsstring;
  fetch_init : RequestInit
}.

(** The world of the API helpers: the calls of [fetch] made so far and the
    delays waited so far (milliseconds), oldest first. *)
Record ApiWorld : Type := {
  requests : list FetchCall;
  sleeps : list Z
}.

(** [error.message] of an [Error], the fallback text otherwise. *)
Definition message_of (error : Thrown) : jsstring :=
  match error with
  | ErrorObj message => message
  | NonError _ => lit "Unknown error occurred"
  end.

Section Api.

Variable J : Type.

(** The network: what the [n]-th call of [fetch] settles to. *)
Variable network : nat -> FetchCall -> Outcome (Response J).

Definition fetch (url : jsstring) (init : RequestInit)
  : M ApiWorld (Response J) :=
  fun w =>
    let c := {| fetch_url := url; fetch_init := init |} in
    (network (List.length (requests w)) c,
     {| requests := requests w ++ [c]; sleeps := sleeps w |}).

(** [{ headers: { 'Content-Type': 'application/json', ...options.headers },
       ...options }]. *)
Definition request_init (options : RequestInit) : RequestInit :=
  let merged :=
    spread [(lit "Content-Type", lit "application/json")]
           match init_headers options with
           | Value h => h
           | _ => []
           end in
  {| init_headers :=
       match init_headers options with
       | Absent => Value merged
       | present => present
       end;
     init_method := init_method options;
     init_body := init_body options |}.

Definition apiRequest (url : jsstring) (options : RequestInit)
  : M ApiWorld (ApiResponse (Body J)) :=
  try_catch
    (response <- fetch url (request_init options) ;;
     let status := resp_status response in
     if negb (ok response) then
       errorText <- await (resp_text response) ;;
       ret {| api_data := None;
              api_error := Some
                (if falsy errorText
                 then lit "HTTP error! status: " ++ decimal status
                 else errorText);
              api_status := status |}
     else
       data <-
         match resp_content_type response with
         | Some (c :: contentType) =>
             if includes (c :: contentType) (lit "application/json")
             then (v <- await (resp_json response) ;; ret (BodyJson v))
             else (s <- await (resp_text response) ;; ret (BodyText s))
         | _ => s <- await (resp_text response) ;; ret (BodyText s)
         end ;;
       ret {| api_data := Some data; api_error := None; api_status := status |})
    (fun error =>
       ret {| api_data := None;
              api_error := Some (message_of error);
              api_status := 0 |}).

End Api.

Section Retry.

Variable T : Type.
Variable W : Type.

(** [apiCall] is the thunk; [sleep d] is the wait
    [await new Promise(resolve => setTimeout(resolve, d))]. *)
Variable apiCall : M W (ApiResponse T).
Variable sleep : Z -> W -> W.
Variable maxRetries : Z.
Variable delay : Z.

(** [result.error] is truthy: present and not empty. *)
Definition has_error (r : ApiResponse T) : bool :=
  match api_error r with
  | Some (_ :: _) => true
  | _ => false
  end.

(** How one turn of the loop ends: [continue] with a new [lastError], or
    [return]. *)
Inductive Turn : Type :=
| Continue (lastError : ApiResponse T)
| Return (result : ApiResponse T).

(** The body of the [for] loop at index [i]. *)
Definition turn (i : Z) : M W Turn :=
  try_catch
    (result <- apiCall ;;
     if has_error result && (i <? maxRetries)%Z then
       modify (sleep (delay * 2 ^ i)%Z) ;;;
       ret (Continue result)
     else ret (Return result))
    (fun error =>
       if (i <? maxRetries)%Z then
         modify (sleep (delay * 2 ^ i)%Z) ;;;
         ret (Continue {| api_data := None;
                          api_error := Some (message_of error);
                          api_status := 0 |})
       else throw error).

(** [for (let i = 0; i <= maxRetries; i++)] with [turns] turns left, then
    [return lastError!] ([None] is [undefined]). *)
Fixpoint retry_loop (turns : nat) (i : Z) (lastError : option (ApiResponse T))
  : M W (option (ApiResponse T)) :=
  match turns with
  | O => ret lastError
  | Datatypes.S turns' =>
      t <- turn i ;;
      match t with
      | Continue e => retry_loop turns' (i + 1)%Z (Some e)
      | Return r => ret (Some r)
      end
  end.

(** [withRetry], for a whole number [maxRetries]. *)
Definition withRetry : M W (option (ApiResponse T)) :=
  retry_loop (Z.to_nat (maxRetries + 1)) 0%Z None.

End Retry.

(** The wait in the world of the API helpers. *)
Definition api_sleep (d : Z) (w : ApiWorld) : ApiWorld :=
  {| requests := requests w; sleeps := sleeps w ++ [d] |}.

End ApiService.

(* ================================================================= *)
(** * Vocabulary of the further statements *)

Module Props.

Import XWorkflow ApiService.

(** ** The X workflow *)

Definition x_fresh {S} (s0 : S) : XWorld S :=
  {| x_sink := s0; x_emitted := []; x_calls := [] |}.

Definition x_after {S} (onProgress : WorkflowProgressUpdate -> S -> S)
  (us : list WorkflowProgressUpdate) (cs : list XCall) (w : XWorld S) : XWorld S :=
  {| x_sink := fold_left (fun s u => onProgress u s) us (x_sink w);
     x_emitted := x_emitted w ++ us;
     x_calls := x_calls w ++ cs |}.

Definition x_step_order : list jsstring :=
  [lit "viral_post"; lit "thread"; lit "hashtags"].

(** The updates of one step of the X workflow: its Running update and
    then exactly one update, a terminal one of the same step. *)
Definition strict_block (sid : jsstring) (b : list WorkflowProgressUpdate) : Prop :=
  exists u,
    b = [ {| stepId := sid; update_status := running; data := None |}; u ] /\
    stepId u = sid /\
    terminal (update_status u) = true.

Definition x_call_step (c : XCall) : jsstring :=
  match c with
  | CallGenerateViralXPost _ => lit "viral_post"
  | CallGenerateGenericThread _ => lit "thread"
  | CallGenerateXHashtags _ => lit "hashtags"
  end.

Definition x_call_topic (c : XCall) : jsstring :=
  match c with
  | CallGenerateViralXPost t | CallGenerateGenericThread t
  | CallGenerateXHashtags t => t
  end.

Definition x_call_rejects (backend : XBackend) (c : XCall) : bool :=
  match c with
  | CallGenerateViralXPost t => rejected (backend_generateViralXPost backend t)
  | CallGenerateGenericThread t => rejected (backend_generateGenericThread backend t)
  | CallGenerateXHashtags t => rejected (backend_generateXHashtags backend t)
  end.

(** ** The step list after a run *)


(** ** The poller *)

(** A period after which polling goes on: the status check says "not
    done", or fails without the credential signature. *)
Definition keeps_polling (env : TickEnv) : Prop :=
  (exists op, status_check env = Resolved op /\ done op = false) \/
  transient_failure env.

(** A period in which the job is reported done with a video that
    downloads: [link] and [key] are the non-empty link and API key, [url]
    the object URL of the download. *)
Definition delivers (env : TickEnv) (link key url : jsstring) : Prop :=
  exists op,
    status_check env = Resolved op /\ done op = true /\
    video_uri op = Some link /\ link <> [] /\
    API_KEY env = Some key /\ key <> [] /\
    fetch_video env (link ++ lit "&key=" ++ key) = Resolved url.

(** One job at most: the ref holds the one armed timer, or nothing is
    armed and the ref is empty. *)
Definition single_job (w : PollWorld) : Prop :=
  (exists h, pollingIntervalRef (view w) = Some h /\ activeIntervals w = [h]) \/
  (pollingIntervalRef (view w) = None /\ activeIntervals w = []).

(** ** [withRetry] *)

(** An attempt that [withRetry] counts as failed: the call throws, or its
    response has a non-empty [error]. *)
Definition failed_attempt {T} (o : Outcome (ApiResponse T)) : bool :=
  match o with
  | Resolved r => has_error r
  | Rejected _ => true
  end.

(** What a failed attempt leaves as [lastError]. *)
Definition as_last_error {T} (o : Outcome (ApiResponse T)) : ApiResponse T :=
  match o with
  | Resolved r => r
  | Rejected e =>
      {| api_data := None; api_error := Some (message_of e); api_status := 0 |}
  end.

(** A thunk that plays a script: the world is the outcomes still to come,
    the number of calls made and the delays waited. *)
Record Script (T : Type) : Type := {
  upcoming : list (Outcome (ApiResponse T));
  made : nat;
  waited : list Z
}.

Definition scripted_call {T} : M (Script T) (ApiResponse T) :=
  fun w =>
    match upcoming w with
    | o :: rest =>
        (o, {| upcoming := rest; made := Datatypes.S (made w); waited := waited w |})
    | [] =>
        (Rejected (ErrorObj (lit "no answer")),
         {| upcoming := []; made := Datatypes.S (made w); waited := waited w |})
    end.

Definition scripted_sleep {T} (d : Z) (w : Script T) : Script T :=
  {| upcoming := upcoming w; made := made w; waited := waited w ++ [d] |}.

(** The backoff before the retries [0 .. n-1]: [delay * 2^i]. *)
Definition backoff (delay : Z) (n : nat) : list Z :=
  map (fun i => (delay * 2 ^ Z.of_nat i)%Z) (seq 0 n).

(** ** The project list *)

(** The clock of a save. *)
Definition clock_of {Content} (s : N * jsstring * jsstring * Content) : N :=
  match s with (now, _, _, _) => now end.

(** Saving a batch of results, the first of the list first: each entry is
    the clock, the title, the tool and the content. *)
Definition save_all {Content} (saves : list (N * jsstring * jsstring * Content))
  : list (AppProjects.Project Content) :=
  fold_left
    (fun prev s =>
       match s with
       | (now, title, tool, c) =>
           AppProjects.handleSaveAsProject now title tool c prev
       end)
    saves [].

End Props.

(* ================================================================= *)
(** * Further sample data *)

Module Sample2.

Import Sample XWorkflow ApiService Props.

(** Every call of the X workflow resolves. *)
Definition x_backend : XBackend :=
  {| backend_generateViralXPost := fun _ => Resolved (lit "Is this laptop worth it?");
     backend_generateGenericThread := fun _ => Resolved [lit "1/5"; lit "2/5"];
     backend_generateXHashtags := fun _ => Resolved [lit "#laptop"] |}.

(** The job is still running. *)
Definition still_rendering : TickEnv := answering (Resolved an_operation).

(** The job is done and its video can be downloaded. *)
Definition video_ready : TickEnv :=
  answering (Resolved {| done := true;
                         video_uri := Some (lit "https://video.example/v1?alt=media") |}).

(** Responses of a server: busy, then fine. *)
Definition busy : ApiResponse jsstring :=
  {| api_data := None; api_error := Some (lit "Service Unavailable");
     api_status := 503 |}.

Definition fine : ApiResponse jsstring :=
  {| api_data := Some (lit "pong"); api_error := None; api_status := 200 |}.

(** Two saved results, the second without a title. *)
Definition two_saves : list (N * jsstring * jsstring * jsstring) :=
  [ (1700000000000%N, lit "Laptop titles", lit "title-generator", lit "ten titles");
    (1700000000500%N, [], lit "tag-generator", lit "tags") ].

Definition a_dashboard : AppProjects.Dashboard jsstring :=
  {| AppProjects.projects := save_all two_saves;
     AppProjects.newComment := lit " Looks good " |}.

Definition laptop_project : AppProjects.Project jsstring :=
  {| AppProjects.project_id := lit "proj_1700000000000";
     AppProjects.project_title := lit "Laptop titles";
     AppProjects.toolId := lit "title-generator";
     AppProjects.generatedContent := lit "ten titles";
     AppProjects.project_status := AppProjects.Draft;
     AppProjects.feedback := [] |}.

End Sample2.

(* ================================================================= *)
(** * The workflow on answers as they arrive

    [parseJsonFromText<T>] returns what [JSON.parse] gives under the cast
    to [T]; nothing checks the value against [T].  Each generation
    function tests its answer for one field (or with [Array.isArray]) and
    returns it, so that what [runStep] and [runFullWorkflow] handle at run
    time is a JSON value of any shape.  This module is the orchestrator
    (geminiService.ts, lines 673-722), the checks of its five generation
    functions (lines 189-193, 271-275, 369-373, 251-255, 485-489) and
    [runAutomation] (application root, lines 273-314) on such values.
    [GeminiService] and [App] above are the same code on answers that have
    their declared types. *)

Module Untyped.

(** ** JavaScript values *)

(** The values [JSON.parse] builds, and [undefined], which reading a
    missing property gives.  A number is its IEEE 754 double, as the 64
    bits; an object is its own properties in order. *)
#[warnings="-register-all"]
Inductive Value : Type :=
| VUndefined
| VNull
| VBool (b : bool)
| VNumber (bits : N)
| VString (s : jsstring)
| VArray (items : list Value)
| VObject (fields : list (jsstring * Value)).

(** A double is falsy when it is [+0], [-0] or a NaN. *)
Definition number_truthy (bits : N) : bool :=
  let magnitude := N.land bits (N.ones 63) in
  (negb (magnitude =? 0) && (magnitude <=? N.shiftl 2047 52))%N.

(** [ToBoolean]: what [!v] and [a || b] test. *)
Definition truthy (v : Value) : bool :=
  match v with
  | VUndefined | VNull => false
  | VBool b => b
  | VNumber bits => number_truthy bits
  | VString s => negb (falsy s)
  | VArray _ | VObject _ => true
  end.

Definition isArray (v : Value) : bool :=
  match v with
  | VArray _ => true
  | _ => false
  end.

Fixpoint lookup (name : jsstring) (fields : list (jsstring * Value)) : Value :=
  match fields with
  | [] => VUndefined
  | (k, x) :: rest => if JS.eqb k name then x else lookup name rest
  end.

Definition has_property (name : jsstring) (fields : list (jsstring * Value)) : bool :=
  existsb (fun kv => JS.eqb (fst kv) name) fields.

(** [v.name] on a value that is neither [undefined] nor [null], for a
    name that no built-in prototype defines (the names read by the code
    below: [best_title], [titles], [text], [metadata], [description]).
    Only an object has such a property. *)
Definition property (v : Value) (name : jsstring) : Value :=
  match v with
  | VObject fields => lookup name fields
  | _ => VUndefined
  end.

(** A [TypeError] of the host.  Its message is worded by the engine; none
    of the modelled code reads it, and the error's name stands for it. *)
Definition type_error : Thrown := ErrorObj (lit "TypeError").

(** [v.name], which throws on [undefined] and [null]. *)
Definition prop (v : Value) (name : jsstring) : Outcome Value :=
  match v with
  | VUndefined | VNull => Rejected type_error
  | _ => Resolved (property v name)
  end.

(** [items.map(f)] for an [f] that may throw: the elements in order, up
    to the first throw. *)
Fixpoint map_outcome (f : Value -> Outcome Value) (items : list Value)
  : Outcome (list Value) :=
  match items with
  | [] => Resolved []
  | x :: rest =>
      match f x with
      | Rejected e => Rejected e
      | Resolved y =>
          match map_outcome f rest with
          | Rejected e => Rejected e
          | Resolved ys => Resolved (y :: ys)
          end
      end
  end.

(** [titles.map(t => t.text)].  Reading [map] of [undefined] or [null]
    throws; on any other value that is no array, [map] is not a function
    (a JSON value holds none) and the call throws. *)
Definition titles_map (titles : Value) : Outcome (list Value) :=
  match titles with
  | VArray items => map_outcome (fun t => prop t (lit "text")) items
  | _ => Rejected type_error
  end.

(** ** The orchestrator's data *)

(** [WorkflowProgressUpdate]; an update without [data] has it
    [undefined]. *)
Record WorkflowProgressUpdate : Type := {
  stepId : jsstring;
  update_status : StepStatus;         (* [status] *)
  data : Value
}.

(** The object literal [{ alternatives: titles, chosen }]. *)
Definition selection (titles : list Value) (chosen : Value) : Value :=
  VObject [(lit "alternatives", VArray titles); (lit "chosen", chosen)].

(** The generation calls, with their arguments as passed. *)
Inductive Call : Type :=
| CallGenerateTitles (topic : jsstring)
| CallGenerateHooks (topic : Value)
| CallGenerateScript (topic : Value)
| CallGenerateDescription (transcript title : Value)
| CallGenerateTags (topic : Value).

(** What [parseJsonFromText(response.text)] gives inside each generation
    function, by the function's arguments: [Rejected] when building the
    prompt or the request throws or rejects (or the response has no text
    to match), else the parsed value ([VNull] for a text that is no JSON;
    on a string [parseJsonFromText] never throws). *)
Record Backend : Type := {
  titles_answer : jsstring -> Outcome Value;
  hooks_answer : Value -> Outcome Value;
  script_answer : Value -> Outcome Value;
  description_answer : Value -> Value -> Outcome Value;
  tags_answer : Value -> Outcome Value
}.

Record World (S : Type) : Type := {
  sink : S;
  emitted : list WorkflowProgressUpdate;
  calls : list Call
}.

(** The error of a generation function whose answer fails its check. *)
Definition not_expected (what : string) : Thrown :=
  ErrorObj (lit "Could not generate " ++ lit what
            ++ lit ". The response was not in the expected format.").

Section Agent.

Variable S : Type.
Variable backend : Backend.

Definition log_call (c : Call) : M (World S) unit :=
  modify (fun w =>
    {| sink := sink w; emitted := emitted w; calls := calls w ++ [c] |}).

(** ** The checks of the generation functions *)

(** [if (!titles || !titles.best_title) throw ...; return titles]. *)
Definition generateTitles (topic : jsstring) : M (World S) Value :=
  log_call (CallGenerateTitles topic) ;;;
  titles <- await (titles_answer backend topic) ;;
  if negb (truthy titles) then throw (not_expected "titles")
  else
    best_title <- await (prop titles (lit "best_title")) ;;
    if negb (truthy best_title) then throw (not_expected "titles")
    else ret titles.

(** [if (!hooks || !Array.isArray(hooks)) throw ...; return hooks]. *)
Definition generateHooks (topic : Value) : M (World S) Value :=
  log_call (CallGenerateHooks topic) ;;;
  hooks <- await (hooks_answer backend topic) ;;
  if negb (truthy hooks) || negb (isArray hooks)
  then throw (not_expected "hooks")
  else ret hooks.

(** [if (!script || !script.metadata) throw ...; return script]. *)
Definition generateScript (topic : Value) : M (World S) Value :=
  log_call (CallGenerateScript topic) ;;;
  script <- await (script_answer backend topic) ;;
  if negb (truthy script) then throw (not_expected "script")
  else
    metadata <- await (prop script (lit "metadata")) ;;
    if negb (truthy metadata) then throw (not_expected "script")
    else ret script.

(** [if (!description || !description.description) throw ...;
    return description]. *)
Definition generateDescription (transcript title : Value) : M (World S) Value :=
  log_call (CallGenerateDescription transcript title) ;;;
  description <- await (description_answer backend transcript title) ;;
  if negb (truthy description) then throw (not_expected "description")
  else
    text <- await (prop description (lit "description")) ;;
    if negb (truthy text) then throw (not_expected "description")
    else ret description.

(** [if (!tags || !Array.isArray(tags)) throw ...; return tags]. *)
Definition generateTags (topic : Value) : M (World S) Value :=
  log_call (CallGenerateTags topic) ;;;
  tags <- await (tags_answer backend topic) ;;
  if negb (truthy tags) || negb (isArray tags)
  then throw (not_expected "tags")
  else ret tags.

(** ** [runFullWorkflow] and its inner [runStep] (lines 673-722) *)

Variable onProgress : WorkflowProgressUpdate -> S -> S.

Definition emit (u : WorkflowProgressUpdate) : M (World S) unit :=
  modify (fun w =>
    {| sink := onProgress u (sink w);
       emitted := emitted w ++ [u];
       calls := calls w |}).

(** [typeof result === 'object' && result !== null && 'alternatives' in
    result].  An array is an object, and neither its indices, its [length]
    nor [Array.prototype] give it a property [alternatives]; an object has
    it when it is one of its own ([Object.prototype] has none). *)
Definition isSelectionObject (result : Value) : bool :=
  match result with
  | VObject fields => has_property (lit "alternatives") fields
  | _ => false
  end.

Definition runStep (stepId : jsstring) (fn : M (World S) Value)
  : M (World S) Value :=
  try_catch
    (emit {| stepId := stepId; update_status := running; data := VUndefined |} ;;;
     result <- fn ;;
     (if negb (isSelectionObject result) then
        emit {| stepId := stepId; update_status := completed; data := result |}
      else ret tt) ;;;
     ret result)
    (fun error =>
       (* console.error(`Error in workflow step ${stepId}:`, error) *)
       emit {| stepId := stepId; update_status := failed; data := VUndefined |} ;;;
       throw error).

Definition runFullWorkflow (topic : jsstring) : M (World S) unit :=
  try_catch
    (titleResponse <- runStep (lit "titles") (generateTitles topic) ;;
     titles_field <- await (prop titleResponse (lit "titles")) ;;
     titles <- await (titles_map titles_field) ;;
     emit {| stepId := lit "titles"; update_status := selecting;
             data := selection titles VNull |} ;;;
     best_title <- await (prop titleResponse (lit "best_title")) ;;
     bestTitle <- await (prop best_title (lit "text")) ;;
     emit {| stepId := lit "titles"; update_status := completed;
             data := selection titles bestTitle |} ;;;
     hooks <- runStep (lit "hooks") (generateHooks bestTitle) ;;
     scriptResponse <- runStep (lit "script") (generateScript bestTitle) ;;
     emit {| stepId := lit "script"; update_status := completed;
             data := VString (lit
               "Script generated successfully. View in the tool for full details.") |} ;;;
     descriptionResponse <-
       runStep (lit "description") (generateDescription VUndefined bestTitle) ;;
     description <- await (prop descriptionResponse (lit "description")) ;;
     emit {| stepId := lit "description"; update_status := completed;
             data := description |} ;;;
     _ <- runStep (lit "tags") (generateTags bestTitle) ;;
     ret tt)
    (fun error =>
       (* console.error("YouTube Automation workflow failed.") *)
       ret tt).

End Agent.

(** ** [runAutomation] (application root, lines 273-314) *)

Record WorkflowStep : Type := {
  id : jsstring;
  label : jsstring;
  status : StepStatus;
  content : Value
}.

Record AppState : Type := {
  agentPrompt : jsstring;
  isLoadingAgent : bool;
  agentError : option jsstring;
  workflowSteps : option (list WorkflowStep)
}.

Definition setAgentPrompt (v : jsstring) (st : AppState) : AppState :=
  {| agentPrompt := v; isLoadingAgent := isLoadingAgent st;
     agentError := agentError st; workflowSteps := workflowSteps st |}.
Definition setIsLoadingAgent (v : bool) (st : AppState) : AppState :=
  {| agentPrompt := agentPrompt st; isLoadingAgent := v;
     agentError := agentError st; workflowSteps := workflowSteps st |}.
Definition setAgentError (v : option jsstring) (st : AppState) : AppState :=
  {| agentPrompt := agentPrompt st; isLoadingAgent := isLoadingAgent st;
     agentError := v; workflowSteps := workflowSteps st |}.
Definition setWorkflowSteps
  (f : option (list WorkflowStep) -> option (list WorkflowStep))
  (st : AppState) : AppState :=
  {| agentPrompt := agentPrompt st; isLoadingAgent := isLoadingAgent st;
     agentError := agentError st; workflowSteps := f (workflowSteps st) |}.

Definition initialSteps : list WorkflowStep :=
  [ {| id := lit "titles"; label := lit "Generating Viral Titles";
       status := pending; content := VNull |};
    {| id := lit "hooks"; label := lit "Creating Catchy Hooks";
       status := pending; content := VNull |};
    {| id := lit "script"; label := lit "Writing Full Script";
       status := pending; content := VNull |};
    {| id := lit "description"; label := lit "Drafting Video Description";
       status := pending; content := VNull |};
    {| id := lit "tags"; label := lit "Optimizing SEO Tags";
       status := pending; content := VNull |} ].

(** [{ ...step, status: update.status,
       content: update.data !== undefined ? update.data : step.content }]
    for the step whose id is the update's. *)
Definition applyUpdate (update : WorkflowProgressUpdate) (step : WorkflowStep)
  : WorkflowStep :=
  if JS.eqb (id step) (stepId update) then
    {| id := id step; label := label step;
       status := update_status update;
       content := match data update with
                  | VUndefined => content step
                  | d => d
                  end |}
  else step.

Definition progressUpdater (update : WorkflowProgressUpdate)
  (prevSteps : option (list WorkflowStep)) : option (list WorkflowStep) :=
  match prevSteps with
  | None => None
  | Some steps => Some (map (applyUpdate update) steps)
  end.

Definition onProgressCallback (update : WorkflowProgressUpdate) (st : AppState)
  : AppState :=
  setWorkflowSteps (progressUpdater update) st.

Definition failActive (s : WorkflowStep) : WorkflowStep :=
  match status s with
  | running | selecting =>
      {| id := id s; label := label s; status := failed; content := content s |}
  | _ => s
  end.

Definition set_state (f : AppState -> AppState) : M (World AppState) unit :=
  modify (fun w =>
    {| sink := f (sink w); emitted := emitted w; calls := calls w |}).

Definition runAutomation (backend : Backend) (topic : jsstring)
  : M (World AppState) unit :=
  if falsy topic then
    set_state (setAgentError (Some (lit "Please enter a video topic to automate.")))
  else
    st <- gets (@sink AppState) ;;
    (* Prevent re-running if already running on the same topic *)
    if isLoadingAgent st && JS.eqb (agentPrompt st) topic then ret tt
    else
      set_state (setAgentPrompt topic) ;;;
      set_state (setIsLoadingAgent true) ;;;
      set_state (setAgentError None) ;;;
      set_state (setWorkflowSteps (fun _ => None)) ;;;
      set_state (setWorkflowSteps (fun _ => Some initialSteps)) ;;;
      try_finally
        (try_catch
           (runFullWorkflow backend onProgressCallback topic)
           (fun err =>
              set_state (setAgentError (Some
                match err with
                | ErrorObj message => message
                | NonError _ => lit "An unexpected error occurred during automation."
                end)) ;;;
              set_state (setWorkflowSteps (option_map (map failActive)))))
        (fun w => {| sink := setIsLoadingAgent false (sink w);
                     emitted := emitted w; calls := calls w |}).

End Untyped.

(* ================================================================= *)
(** * Vocabulary of the statements on untyped answers *)

Module UntypedProps.

Import Untyped.

Definition fresh {S} (s0 : S) : World S :=
  {| sink := s0; emitted := []; calls := [] |}.

Definition after {S} (onProgress : WorkflowProgressUpdate -> S -> S)
  (us : list WorkflowProgressUpdate) (cs : list Call) (w : World S) : World S :=
  {| sink := fold_left (fun s u => onProgress u s) us (sink w);
     emitted := emitted w ++ us;
     calls := calls w ++ cs |}.

Definition upd (sid : string) (st : StepStatus) (d : Value)
  : WorkflowProgressUpdate :=
  {| stepId := lit sid; update_status := st; data := d |}.

(** A trace by step and status only. *)
Definition shape (trace : list WorkflowProgressUpdate) : list (jsstring * StepStatus) :=
  map (fun u => (stepId u, update_status u)) trace.

(** The statuses of the updates of one step, in the order emitted. *)
Definition statuses_of (sid : string) (trace : list WorkflowProgressUpdate)
  : list StepStatus :=
  map update_status (filter (fun u => JS.eqb (stepId u) (lit sid)) trace).

(** ** What a generation call settles to *)

(** An answer [o] under the check [ok] of its generation function. *)
Definition checked (what : string) (ok : Value -> bool) (o : Outcome Value)
  : Outcome Value :=
  match o with
  | Resolved v => if ok v then Resolved v else Rejected (not_expected what)
  | Rejected e => Rejected e
  end.

(** [!(!v || !v.name)]. *)
Definition has_truthy (name : jsstring) (v : Value) : bool :=
  truthy v && truthy (property v name).

(** [!(!v || !Array.isArray(v))]. *)
Definition is_list (v : Value) : bool := truthy v && isArray v.

Definition titles_outcome (backend : Backend) (topic : jsstring) :=
  checked "titles" (has_truthy (lit "best_title")) (titles_answer backend topic).
Definition hooks_outcome (backend : Backend) (topic : Value) :=
  checked "hooks" is_list (hooks_answer backend topic).
Definition script_outcome (backend : Backend) (topic : Value) :=
  checked "script" (has_truthy (lit "metadata")) (script_answer backend topic).
Definition description_outcome (backend : Backend) (transcript title : Value) :=
  checked "description" (has_truthy (lit "description"))
          (description_answer backend transcript title).
Definition tags_outcome (backend : Backend) (topic : Value) :=
  checked "tags" is_list (tags_answer backend topic).

(** ** A run in closed form *)

(** The Completed update of [runStep] itself: none for a selection
    object. *)
Definition own_completed (sid : jsstring) (result : Value)
  : list WorkflowProgressUpdate :=
  if isSelectionObject result then []
  else [ {| stepId := sid; update_status := completed; data := result |} ].

Definition script_done : Value :=
  VString (lit "Script generated successfully. View in the tool for full details.").

(** The updates and the calls of one run, by what the generation calls
    settle to, from the last step back to the first;
    [untyped_runFullWorkflow_run] proves that they are what the code emits
    and calls. *)
Definition tags_updates (backend : Backend) (bestTitle : Value) :=
  upd "tags" running VUndefined ::
  match tags_outcome backend bestTitle with
  | Rejected _ => [upd "tags" failed VUndefined]
  | Resolved tags => own_completed (lit "tags") tags
  end.

Definition description_updates (backend : Backend) (bestTitle : Value) :=
  upd "description" running VUndefined ::
  match description_outcome backend VUndefined bestTitle with
  | Rejected _ => [upd "description" failed VUndefined]
  | Resolved d =>
      own_completed (lit "description") d ++
      upd "description" completed (property d (lit "description")) ::
      tags_updates backend bestTitle
  end.

Definition script_updates (backend : Backend) (bestTitle : Value) :=
  upd "script" running VUndefined ::
  match script_outcome backend bestTitle with
  | Rejected _ => [upd "script" failed VUndefined]
  | Resolved s =>
      own_completed (lit "script") s ++
      upd "script" completed script_done ::
      description_updates backend bestTitle
  end.

Definition hooks_updates (backend : Backend) (bestTitle : Value) :=
  upd "hooks" running VUndefined ::
  match hooks_outcome backend bestTitle with
  | Rejected _ => [upd "hooks" failed VUndefined]
  | Resolved hooks =>
      own_completed (lit "hooks") hooks ++ script_updates backend bestTitle
  end.

(** [titleResponse.best_title.text]. *)
Definition best_title_text (titleResponse : Value) : Value :=
  property (property titleResponse (lit "best_title")) (lit "text").

Definition workflow_updates (backend : Backend) (topic : jsstring) :=
  upd "titles" running VUndefined ::
  match titles_outcome backend topic with
  | Rejected _ => [upd "titles" failed VUndefined]
  | Resolved r =>
      own_completed (lit "titles") r ++
      match titles_map (property r (lit "titles")) with
      | Rejected _ => []
      | Resolved titles =>
          upd "titles" selecting (selection titles VNull) ::
          upd "titles" completed (selection titles (best_title_text r)) ::
          hooks_updates backend (best_title_text r)
      end
  end.

Definition workflow_calls (backend : Backend) (topic : jsstring) : list Call :=
  CallGenerateTitles topic ::
  match titles_outcome backend topic with
  | Rejected _ => []
  | Resolved r =>
      match titles_map (property r (lit "titles")) with
      | Rejected _ => []
      | Resolved _ =>
          let bestTitle := best_title_text r in
          CallGenerateHooks bestTitle ::
          match hooks_outcome backend bestTitle with
          | Rejected _ => []
          | Resolved _ =>
              CallGenerateScript bestTitle ::
              match script_outcome backend bestTitle with
              | Rejected _ => []
              | Resolved _ =>
                  CallGenerateDescription VUndefined bestTitle ::
                  match description_outcome backend VUndefined bestTitle with
                  | Rejected _ => []
                  | Resolved _ => [CallGenerateTags bestTitle]
                  end
              end
          end
      end
  end.

(** ** The shape of the emitted sequence *)

(** The statuses that follow a step's Running update when the run goes on
    to the next step (or, for the last step, ends well): Completed; for
    script and description also Completed twice, [runStep]'s own one and
    the orchestrator's; for titles Selecting and Completed, after
    [runStep]'s own Completed or without it. *)
Definition passing (sid : jsstring) : list (list StepStatus) :=
  if JS.eqb sid (lit "titles") then
    [ [selecting; completed]; [completed; selecting; completed] ]
  else if JS.eqb sid (lit "script") || JS.eqb sid (lit "description") then
    [ [completed]; [completed; completed] ]
  else [ [completed] ].

(** The statuses that follow a step's Running update when the run stops at
    the step: Failed; for titles also nothing, or [runStep]'s own Completed
    alone (the title list of the answer could not be read). *)
Definition stopping (sid : jsstring) : list (list StepStatus) :=
  [failed] :: (if JS.eqb sid (lit "titles") then [ []; [completed] ] else []).

(** The updates of one step as a block: the step's Running update, then
    updates of this step only, their statuses one of [tails]. *)
Definition block (sid : jsstring) (tails : list (list StepStatus))
  (b : list WorkflowProgressUpdate) : Prop :=
  exists rest,
    b = {| stepId := sid; update_status := running; data := VUndefined |} :: rest /\
    Forall (fun u => stepId u = sid) rest /\
    In (map update_status rest) tails.

(** A trace is the blocks of the steps in their fixed order, one after
    the other, from titles up to the step [sid] at which the run ends:
    every block before the last is a passing one, and the last one is a
    stopping one, or the passing block of the last step, tags. *)
Definition progress_shape (trace : list WorkflowProgressUpdate) : Prop :=
  exists passed last sid,
    trace = List.concat passed ++ last /\
    Forall2 (fun s b => block s (passing s) b)
            (firstn (List.length passed) step_order) passed /\
    nth_error step_order (List.length passed) = Some sid /\
    (block sid (stopping sid) last \/
     (sid = lit "tags" /\ block sid (passing sid) last)).

Definition nothing_after_failed (trace : list WorkflowProgressUpdate) : Prop :=
  forall pre u post,
    trace = pre ++ u :: post -> update_status u = failed -> post = [].

(** Adjacent updates of the same step, grouped. *)
Fixpoint group_steps (l : list WorkflowProgressUpdate)
  : list (list WorkflowProgressUpdate) :=
  match l with
  | [] => []
  | u :: l' =>
      match group_steps l' with
      | (v :: b) :: bs =>
          if JS.eqb (stepId u) (stepId v) then (u :: v :: b) :: bs
          else [u] :: (v :: b) :: bs
      | bs => [u] :: bs
      end
  end.

(** No update but the last is a Failed one. *)
Fixpoint failed_only_last (l : list WorkflowProgressUpdate) : bool :=
  match l with
  | [] => true
  | u :: l' =>
      match l', update_status u with
      | _ :: _, failed => false
      | _, _ => failed_only_last l'
      end
  end.

(** ** The step list after a run *)



(** ** Answers that have their declared type, as values *)

Definition strings_value (l : list jsstring) : Value := VArray (map VString l).

(** (The numeric fields of a title option are left out, as in
    [Types.TitleOption].) *)
Definition title_option_value (t : TitleOption) : Value :=
  VObject [ (lit "text", VString (text t));
            (lit "style_tags", strings_value (style_tags t));
            (lit "keyword_included", VBool (keyword_included t));
            (lit "rationale", VString (rationale t)) ].

Definition top_pick_value (p : TopPick) : Value :=
  VObject [ (lit "text", VString (pick_text p));
            (lit "reason", VString (reason p)) ].

Definition titles_value (r : TitleGenerationResponse) : Value :=
  VObject [ (lit "titles", VArray (map title_option_value (titles r)));
            (lit "top_picks", VArray (map top_pick_value (top_picks r)));
            (lit "best_title", top_pick_value (best_title r));
            (lit "notes", VString (notes r)) ].

Definition chapter_value (c : Chapter) : Value :=
  VObject [ (lit "title", VString (chapter_title c));
            (lit "timestamp", VString (timestamp c)) ].

Definition description_value (d : DescriptionGenerationResponse) : Value :=
  VObject [ (lit "description", VString (description d));
            (lit "chapters", VArray (map chapter_value (chapters d)));
            (lit "hashtags", strings_value (hashtags d));
            (lit "keywords", strings_value (keywords d));
            (lit "pinned_comment", VString (pinned_comment d)) ].

Definition metadata_value (m : ScriptMetadata) : Value :=
  VObject [ (lit "estimated_duration", VString (estimated_duration m));
            (lit "tone", VString (tone m));
            (lit "language", VString (language m)) ].

Definition section_value (s : ScriptSection) : Value :=
  VObject
    ([ (lit "id", VString (section_id s));
       (lit "time_range", VString (time_range s));
       (lit "narration", VString (narration s));
       (lit "on_screen_text", VString (on_screen_text s));
       (lit "visuals_broll", strings_value (visuals_broll s));
       (lit "graphics", strings_value (graphics s));
       (lit "sfx_music", strings_value (sfx_music s)) ]
     ++ match beats s with
        | Some b => [ (lit "beats", strings_value b) ]
        | None => []
        end).

Definition cta_value (c : ScriptCTA) : Value :=
  VObject
    (match cta_time_range c with
     | Some t => [ (lit "time_range", VString t) ]
     | None => []
     end
     ++ [ (lit "narration", VString (cta_narration c));
          (lit "on_screen_text", VString (cta_on_screen_text c));
          (lit "visuals_broll", strings_value (cta_visuals_broll c)) ]).

Definition script_alternatives_value (a : ScriptAlternatives) : Value :=
  VObject [ (lit "hooks", strings_value (alt_hooks a));
            (lit "ctas", strings_value (ctas a));
            (lit "title_ideas", strings_value (title_ideas a)) ].

Definition script_value (s : ScriptGenerationResponse) : Value :=
  VObject [ (lit "metadata", metadata_value (metadata s));
            (lit "sections", VArray (map section_value (sections s)));
            (lit "midroll_cta", cta_value (midroll_cta s));
            (lit "final_cta", cta_value (final_cta s));
            (lit "alternatives", script_alternatives_value (script_alternatives s)) ].

Definition answer {A} (encode : A -> Value) (o : Outcome A) : Outcome Value :=
  match o with
  | Resolved a => Resolved (encode a)
  | Rejected e => Rejected e
  end.

(** The backend whose answers are those of a typed one, as values.  Its
    calls on a title that is no string are never made by a run on such
    answers; they are given a rejection. *)
Definition untyped (b : GeminiService.Backend) : Backend :=
  {| titles_answer := fun topic =>
       answer titles_value (backend_generateTitles b topic);
     hooks_answer := fun topic =>
       match topic with
       | VString t => answer strings_value (backend_generateHooks b t)
       | _ => Rejected type_error
       end;
     script_answer := fun topic =>
       match topic with
       | VString t => answer script_value (backend_generateScript b t)
       | _ => Rejected type_error
       end;
     description_answer := fun transcript title =>
       match transcript, title with
       | VUndefined, VString t =>
           answer description_value (backend_generateDescription b None (Some t))
       | _, _ => Rejected type_error
       end;
     tags_answer := fun topic =>
       match topic with
       | VString t => answer strings_value (backend_generateTags b t)
       | _ => Rejected type_error
       end |}.

(** ** Typed updates and calls, as values *)

Definition content_value (c : StepContent) : Value :=
  match c with
  | ContentNull => VNull
  | ContentText s => VString s
  | ContentList l => strings_value l
  | ContentSelection c =>
      selection (map VString (alternatives c))
                match chosen c with
                | Some s => VString s
                | None => VNull
                end
  | ContentTitles r => titles_value r
  | ContentDescription d => description_value d
  | ContentScript s => script_value s
  end.

Definition update_value (u : GeminiService.WorkflowProgressUpdate)
  : WorkflowProgressUpdate :=
  {| stepId := GeminiService.stepId u;
     update_status := GeminiService.update_status u;
     data := match GeminiService.data u with
             | Some c => content_value c
             | None => VUndefined
             end |}.

Definition optional_value (x : option jsstring) : Value :=
  match x with
  | Some s => VString s
  | None => VUndefined
  end.

(** The generation calls of the workflow (a raw request of
    [selectBestOption] is none of them). *)
Definition call_value (c : GeminiService.Call) : list Call :=
  match c with
  | GeminiService.CallGenerateTitles t => [CallGenerateTitles t]
  | GeminiService.CallGenerateHooks t => [CallGenerateHooks (VString t)]
  | GeminiService.CallGenerateScript t => [CallGenerateScript (VString t)]
  | GeminiService.CallGenerateDescription tr ti =>
      [CallGenerateDescription (optional_value tr) (optional_value ti)]
  | GeminiService.CallGenerateTags t => [CallGenerateTags (VString t)]
  | CallGenerateContent _ _ => []
  end.

End UntypedProps.

(* ================================================================= *)
(** * Sample answers *)

Module UntypedSample.

Import Sample Untyped UntypedProps.

(** The sample backend, every answer of its declared type. *)
Definition typed_answers : Backend := untyped good_backend.

(** The sample titles without the field [titles]: [generateTitles] checks
    [best_title] only and returns the answer. *)
Definition titles_without_list : Value :=
  VObject [ (lit "best_title",
             VObject [ (lit "text", VString (lit "Is This Laptop Worth It?"));
                       (lit "reason", VString []) ]) ].

Definition no_title_list : Backend :=
  {| titles_answer := fun _ => Resolved titles_without_list;
     hooks_answer := hooks_answer typed_answers;
     script_answer := script_answer typed_answers;
     description_answer := description_answer typed_answers;
     tags_answer := tags_answer typed_answers |}.

(** The same answer with a field [alternatives] in the place of
    [titles]. *)
Definition titles_as_alternatives : Value :=
  VObject [ (lit "alternatives",
             VArray [VString (lit "Is This Laptop Worth It?")]);
            (lit "best_title",
             VObject [ (lit "text", VString (lit "Is This Laptop Worth It?"));
                       (lit "reason", VString []) ]) ].

Definition alternatives_for_titles : Backend :=
  {| titles_answer := fun _ => Resolved titles_as_alternatives;
     hooks_answer := hooks_answer typed_answers;
     script_answer := script_answer typed_answers;
     description_answer := description_answer typed_answers;
     tags_answer := tags_answer typed_answers |}.

(** A script answer with its [metadata] and no field [alternatives]:
    [generateScript] checks [metadata] only. *)
Definition script_without_alternatives : Value :=
  VObject [ (lit "metadata", metadata_value (metadata a_script));
            (lit "sections", VArray []) ].

Definition bare_script : Backend :=
  {| titles_answer := titles_answer typed_answers;
     hooks_answer := hooks_answer typed_answers;
     script_answer := fun _ => Resolved script_without_alternatives;
     description_answer := description_answer typed_answers;
     tags_answer := tags_answer typed_answers |}.

Definition run (backend : Backend) : Outcome unit * World unit :=
  runFullWorkflow backend (fun _ s => s) laptop_topic (fresh tt).

(** The application before any run. *)
Definition idle : AppState :=
  {| agentPrompt := []; isLoadingAgent := false; agentError := None;
     workflowSteps := None |}.

End UntypedSample.

(* ================================================================= *)
(** * The poller when runs of the callback overlap

    The interval callback is [async]: a run of it returns at its first
    [await], and [setInterval] starts the next run ten seconds later
    whether the awaited call has settled or not.  [ToolView.tick] is a run
    that settles before the next period.  Here a run is split at its
    [await]s (the status check; the download, that is [fetch], [blob()] and
    [URL.createObjectURL], between which the callback changes nothing), and
    a schedule says which period fires and which awaited call settles
    next. *)

Module Interleaved.

(** Where a run of the callback stands. *)
Inductive Stage : Type :=
| Finished
| AwaitsStatus
| AwaitsDownload (url : jsstring).

(** The view with the runs of the callback started so far, in the order
    of their start. *)
Record Flights : Type := {
  world : PollWorld;
  flights : list Stage
}.

Inductive Event : Type :=
| Period (h : positive)
    (* ten seconds have passed on the timer [h] *)
| StatusSettles (i : nat) (o : Outcome VideoOperation) (key : option jsstring)
    (* the status check of run [i] settles; [key] is [process.env.API_KEY] *)
| DownloadSettles (i : nat) (answer : jsstring -> Outcome jsstring).
    (* the download of run [i] settles, by the URL it fetches *)

Fixpoint set_stage (i : nat) (s : Stage) (l : list Stage) : list Stage :=
  match l, i with
  | [], _ => []
  | _ :: rest, 0 => s :: rest
  | x :: rest, Datatypes.S j => x :: set_stage j s rest
  end.

Definition stage_of (r : Outcome Stage * PollWorld) : Stage :=
  match fst r with
  | Resolved s => s
  | Rejected _ => Finished
  end.

Section Callback.

Variable prompt : jsstring.
Variable tool_id : jsstring.

(** The [catch] block of the callback. *)
Definition onPollError (pollError : Thrown) : M PollWorld unit :=
  match pollError with
  | ErrorObj message =>
      if includes message credential_signature then
        set_view (setError (Some (lit
          "Your API key is invalid or has expired. Please select a new one."))) ;;;
        set_view (setHasApiKey false) ;;;
        cleanupPolling ;;;
        set_view (setIsLoading false)
      else
        (* Keep polling on other transient errors *)
        set_view (setLoadingMessage (lit "A temporary issue occurred. Still trying..."))
  | NonError _ =>
      set_view (setLoadingMessage (lit "A temporary issue occurred. Still trying..."))
  end.

(** From the start of a run to its first [await]: the message, and the
    status check is under way. *)
Definition start : M PollWorld Stage :=
  set_view (setLoadingMessage (lit "Checking progress... Your video is being created.")) ;;;
  modify (fun w =>
    {| view := view w; activeIntervals := activeIntervals w;
       nextHandle := nextHandle w; statusChecks := Datatypes.S (statusChecks w);
       fetched := fetched w; savedProjects := savedProjects w |}) ;;;
  ret AwaitsStatus.

(** From the settled status check to the download, or to the end of the
    run. *)
Definition afterStatus (o : Outcome VideoOperation) (key : option jsstring)
  : M PollWorld Stage :=
  try_catch
    (updatedOp <- await o ;;
     if done updatedOp then
       cleanupPolling ;;;
       set_view (setLoadingMessage (lit "Finalizing video...")) ;;;
       match truthy (video_uri updatedOp), truthy key with
       | Some downloadLink, Some k =>
           modify (fun w =>
             {| view := view w; activeIntervals := activeIntervals w;
                nextHandle := nextHandle w; statusChecks := statusChecks w;
                fetched := fetched w ++ [downloadLink ++ lit "&key=" ++ k];
                savedProjects := savedProjects w |}) ;;;
           ret (AwaitsDownload (downloadLink ++ lit "&key=" ++ k))
       | _, _ =>
           throw (ErrorObj (lit "Video generation finished, but no download link was found."))
       end
     else ret Finished)
    (fun pollError => onPollError pollError ;;; ret Finished).

(** From the settled download to the end of the run. *)
Definition afterDownload (o : Outcome jsstring) : M PollWorld Stage :=
  try_catch
    (videoUrl <- await o ;;
     set_view (setGeneratedContent (Some videoUrl)) ;;;
     onSaveAsProject prompt tool_id videoUrl ;;;
     set_view (setIsLoading false) ;;;
     ret Finished)
    (fun pollError => onPollError pollError ;;; ret Finished).

Definition step (f : Flights) (ev : Event) : Flights :=
  match ev with
  | Period h =>
      if existsb (Pos.eqb h) (activeIntervals (world f)) then
        {| world := snd (start (world f));
           flights := flights f ++ [stage_of (start (world f))] |}
      else f
  | StatusSettles i o key =>
      match nth_error (flights f) i with
      | Some AwaitsStatus =>
          {| world := snd (afterStatus o key (world f));
             flights := set_stage i (stage_of (afterStatus o key (world f)))
                                  (flights f) |}
      | _ => f
      end
  | DownloadSettles i answer =>
      match nth_error (flights f) i with
      | Some (AwaitsDownload url) =>
          {| world := snd (afterDownload (answer url) (world f));
             flights := set_stage i (stage_of (afterDownload (answer url) (world f)))
                                  (flights f) |}
      | _ => f
      end
  end.

Definition run (events : list Event) (f : Flights) : Flights :=
  fold_left step events f.

(** The events of one period whose run, the [i]-th, settles before the
    next period. *)
Definition settled_period (h : positive) (i : nat) (env : TickEnv) : list Event :=
  [ Period h;
    StatusSettles i (status_check env) (API_KEY env);
    DownloadSettles i (fetch_video env) ].

(** A schedule without overlap: every run settles before the next
    period; [i] is the number of runs started before. *)
Fixpoint sequential (h : positive) (i : nat) (envs : list TickEnv) : list Event :=
  match envs with
  | [] => []
  | env :: rest => settled_period h i env ++ sequential h (Datatypes.S i) rest
  end.

(** Two periods whose runs overlap: the second period fires before the
    status check of the first run has settled. *)
Definition overlapping (h : positive) (first second : TickEnv) : list Event :=
  [ Period h;
    Period h;
    StatusSettles 0 (status_check first) (API_KEY first);
    StatusSettles 1 (status_check second) (API_KEY second);
    DownloadSettles 0 (fetch_video first);
    DownloadSettles 1 (fetch_video second) ].

End Callback.

(** The view once a run has started: the message, and one more status
    check under way. *)
Definition checking (w : PollWorld) : PollWorld :=
  {| view := setLoadingMessage
               (lit "Checking progress... Your video is being created.") (view w);
     activeIntervals := activeIntervals w;
     nextHandle := nextHandle w;
     statusChecks := Datatypes.S (statusChecks w);
     fetched := fetched w;
     savedProjects := savedProjects w |}.

(** The view once a download has settled with the object URL [url]. *)
Definition delivered (prompt tool_id url : jsstring) (w : PollWorld) : PollWorld :=
  {| view := setIsLoading false (setGeneratedContent (Some url) (view w));
     activeIntervals := activeIntervals w;
     nextHandle := nextHandle w;
     statusChecks := statusChecks w;
     fetched := fetched w;
     savedProjects := savedProjects w ++ [(prompt, tool_id, url)] |}.

(** No run has been started. *)
Definition at_rest (w : PollWorld) : Flights := {| world := w; flights := [] |}.

End Interleaved.

(* ================================================================= *)
(** * Strings *)

Lemma eqb_eq (a b : jsstring) : JS.eqb a b = true <-> a = b.
Proof.
  revert b; induction a as [|x a IH]; intros [|y b]; simpl;
    try (split; [discriminate | congruence]); try tauto.
  rewrite andb_true_iff, N.eqb_eq, IH. split.
  - intros [-> ->]; reflexivity.
  - intros E; injection E; auto.
Qed.

Lemma eqb_refl (a : jsstring) : JS.eqb a a = true.
Proof. apply eqb_eq; reflexivity. Qed.

Lemma eqb_neq (a b : jsstring) : JS.eqb a b = false <-> a <> b.
Proof.
  rewrite <- eqb_eq. destruct (JS.eqb a b); split; congruence.
Qed.

Lemma array_includes_In (arr : list jsstring) (x : jsstring) :
  array_includes arr x = true <-> In x arr.
Proof.
  unfold array_includes. rewrite existsb_exists. split.
  - intros [y [Hy E]]. apply eqb_eq in E. subst; assumption.
  - intros H. exists x. split; [assumption | apply eqb_refl].
Qed.

Lemma stripPrefix_Some (p s r : jsstring) :
  stripPrefix p s = Some r <-> s = p ++ r.
Proof.
  revert s; induction p as [|x p IH]; intros s; simpl.
  - split; [intros E; injection E; auto | intros ->; reflexivity].
  - destruct s as [|y s].
    + split; discriminate.
    + destruct (N.eqb_spec x y) as [->|N].
      * rewrite IH. split; [intros ->; reflexivity | intros E; injection E; auto].
      * split; [discriminate | intros E; injection E; intros; congruence].
Qed.

Lemma stripPrefix_None (p s : jsstring) :
  stripPrefix p s = None <-> forall r, s <> p ++ r.
Proof.
  split.
  - intros H r E. apply stripPrefix_Some in E. congruence.
  - intros H. destruct (stripPrefix p s) as [r|] eqn:E; [|reflexivity].
    apply stripPrefix_Some in E. elim (H r E).
Qed.

(* ================================================================= *)
(** * [parseJsonFromText] *)

Section LazyGroup.

Variable close : jsstring.

Lemma lazy_group_Some (s g : jsstring) :
  lazy_group close s = Some g ->
  (exists post, s = g ++ close ++ post) /\
  forall g' post', s = g' ++ close ++ post' -> List.length g <= List.length g'.
Proof.
  revert g; induction s as [|c s IH]; intros g; simpl.
  - destruct (stripPrefix close []) as [r|] eqn:E; [|discriminate].
    intros H; injection H as <-. apply stripPrefix_Some in E.
    split; [exists r; assumption | intros; simpl; lia].
  - destruct (stripPrefix close (c :: s)) as [r|] eqn:E.
    + intros H; injection H as <-. apply stripPrefix_Some in E.
      split; [exists r; assumption | intros; simpl; lia].
    + destruct (lazy_group close s) as [g0|]; [|discriminate].
      intros H; injection H as <-.
      destruct (IH g0 eq_refl) as [[post Hp] Hmin].
      split.
      * exists post. simpl. rewrite <- Hp. reflexivity.
      * intros [|c' g'] post' E'.
        -- simpl in E'. rewrite stripPrefix_None in E. elim (E post' E').
        -- simpl in E'. injection E' as _ E'. simpl.
           specialize (Hmin _ _ E'). lia.
Qed.

Lemma lazy_group_None (s : jsstring) :
  lazy_group close s = None -> forall g post, s <> g ++ close ++ post.
Proof.
  induction s as [|c s IH]; simpl.
  - destruct (stripPrefix close []) eqn:E; [discriminate|].
    intros _ [|c' g] post H; [|discriminate].
    rewrite stripPrefix_None in E. exact (E post H).
  - destruct (stripPrefix close (c :: s)) eqn:E; [discriminate|].
    destruct (lazy_group close s) eqn:L; [discriminate|].
    intros _ [|c' g] post H.
    + rewrite stripPrefix_None in E. exact (E post H).
    + simpl in H. injection H as _ H. exact (IH eq_refl g post H).
Qed.

End LazyGroup.

Lemma match_fence_unfold (c : N) (s : jsstring) :
  match_fence (c :: s) =
  match stripPrefix fence_open (c :: s) with
  | Some rest => match lazy_group fence_close rest with
                 | Some g => Some g
                 | None => match_fence s
                 end
  | None => match_fence s
  end.
Proof. reflexivity. Qed.

Lemma match_fence_Some (s g : jsstring) :
  match_fence s = Some g -> first_fenced_block s g.
Proof.
  revert g; induction s as [|c s IH]; intros g.
  - simpl. discriminate.
  - assert (Hnext : match_fence s = Some g ->
              (forall r, stripPrefix fence_open (c :: s) = Some r ->
                         lazy_group fence_close r = None) ->
              first_fenced_block (c :: s) g).
    { intros Hm Hhere. destruct (IH g Hm) as [pre [post [E Hmin]]].
      exists (c :: pre), post. split.
      - rewrite <- app_comm_cons. f_equal. exact E.
      - intros [|c' pre'] g' post' E'.
        + exfalso. rewrite app_nil_l in E'.
          assert (Hs : stripPrefix fence_open (c :: s)
                       = Some (g' ++ fence_close ++ post'))
            by (apply stripPrefix_Some; exact E').
          apply Hhere in Hs.
          exact (lazy_group_None _ Hs g' post' eq_refl).
        + rewrite <- app_comm_cons in E'. injection E' as _ E'.
          destruct (Hmin _ _ _ E') as [H|[H1 H2]]; simpl; [left; lia | right; lia]. }
    rewrite match_fence_unfold.
    destruct (stripPrefix fence_open (c :: s)) as [rest|] eqn:E.
    + destruct (lazy_group fence_close rest) as [g0|] eqn:L.
      * intros H; injection H as <-.
        apply stripPrefix_Some in E.
        destruct (lazy_group_Some _ _ L) as [[post Hp] Hmin].
        exists [], post. split.
        -- rewrite app_nil_l, E, Hp. reflexivity.
        -- intros pre' g' post' E'. destruct pre' as [|c' pre'].
           ++ right. split; [reflexivity|].
              rewrite app_nil_l, E in E'. apply app_inv_head in E'.
              exact (Hmin _ _ E').
           ++ left. simpl. lia.
      * intros Hm. apply Hnext; [assumption|].
        intros r Hr. congruence.
    + intros Hm. apply Hnext; [assumption|]. intros r Hr. congruence.
Qed.

Lemma match_fence_None (s : jsstring) :
  match_fence s = None -> no_fenced_block s.
Proof.
  induction s as [|c s IH].
  - intros _ pre g post H. symmetry in H.
    apply app_eq_nil in H. destruct H as [_ H].
    apply app_eq_nil in H. destruct H as [H _]. discriminate H.
  - rewrite match_fence_unfold.
    destruct (stripPrefix fence_open (c :: s)) as [rest|] eqn:E.
    + destruct (lazy_group fence_close rest) as [g0|] eqn:L; [discriminate|].
      intros Hm [|c' pre] g post H.
      * rewrite app_nil_l in H. apply stripPrefix_Some in E. rewrite E in H.
        apply app_inv_head in H.
        exact (lazy_group_None _ L g post H).
      * rewrite <- app_comm_cons in H. injection H as _ H.
        exact (IH Hm pre g post H).
    + intros Hm [|c' pre] g post H.
      * rewrite app_nil_l in H. rewrite stripPrefix_None in E.
        exact (E _ H).
      * rewrite <- app_comm_cons in H. injection H as _ H.
        exact (IH Hm pre g post H).
Qed.

(** C10. [parseJsonFromText] never throws and changes nothing: on every
    input text it resolves with a value [v].  When the text holds a
    ```json fenced block, [v] is what [JSON.parse] gives on the trimmed body
    of the first such block; otherwise [v] is what it gives on the whole
    trimmed text; in both cases an unparseable source gives [null] instead
    of an error. *)
Theorem parseJsonFromText_total
  (JsValue : Type) (js_null : JsValue)
  (JSON_parse : jsstring -> Outcome JsValue) (W : Type)
  (text : jsstring) (w : W) :
  exists v,
    parseJsonFromText js_null JSON_parse text w = (Resolved v, w) /\
    ((exists g, first_fenced_block text g /\
                parsed_or_null JSON_parse js_null (trim g) v) \/
     (no_fenced_block text /\
      parsed_or_null JSON_parse js_null (trim text) v)).
Proof.
  unfold parseJsonFromText, try_catch, await, ret.
  destruct (match_fence text) as [g|] eqn:Hm.
  - destruct (JSON_parse (trim g)) as [v|e] eqn:Hp.
    + exists v. split; [reflexivity|]. left. exists g.
      split; [apply match_fence_Some; assumption|].
      split; intros; congruence.
    + exists js_null. split; [reflexivity|]. left. exists g.
      split; [apply match_fence_Some; assumption|].
      split; intros; congruence.
  - destruct (JSON_parse (trim text)) as [v|e] eqn:Hp.
    + exists v. split; [reflexivity|]. right.
      split; [apply match_fence_None; assumption|].
      split; intros; congruence.
    + exists js_null. split; [reflexivity|]. right.
      split; [apply match_fence_None; assumption|].
      split; intros; congruence.
Qed.

(* ================================================================= *)
(** * [runStep] and [runFullWorkflow]: what a run emits and calls *)

Lemma index_name_not_alternatives (i : nat) :
  JS.eqb (lit "alternatives") (index_name i) = false.
Proof.
  unfold index_name. destruct (Nat.to_uint i); reflexivity.
Qed.

(** An array is not a selection object: its property names are [length]
    and its indices. *)
Lemma isSelectionObject_array (l : list jsstring) : isSelectionObject l = false.
Proof.
  unfold isSelectionObject, array_includes.
  cbn [is_object propertyNames JsResult_array andb existsb].
  replace (JS.eqb (lit "alternatives") (lit "length")) with false by reflexivity.
  cbn [orb].
  induction (seq 0 (List.length l)) as [|i rest IH]; [reflexivity|].
  cbn [map existsb]. rewrite index_name_not_alternatives. exact IH.
Qed.

Lemma isSelectionObject_titles (r : TitleGenerationResponse) :
  isSelectionObject r = false.
Proof. reflexivity. Qed.

Lemma isSelectionObject_description (r : DescriptionGenerationResponse) :
  isSelectionObject r = false.
Proof. reflexivity. Qed.

(** [ScriptGenerationResponse] declares a property [alternatives]. *)
Lemma isSelectionObject_script (r : ScriptGenerationResponse) :
  isSelectionObject r = true.
Proof. reflexivity. Qed.

Section Run.

Variable S : Type.
Variable backend : Backend.
Variable onProgress : WorkflowProgressUpdate -> S -> S.

Local Abbreviation after := (Spec.after onProgress).

Lemma after_after us1 cs1 us2 cs2 w :
  after us2 cs2 (after us1 cs1 w) = after (us1 ++ us2) (cs1 ++ cs2) w.
Proof.
  unfold after; simpl. rewrite fold_left_app, <- !app_assoc. reflexivity.
Qed.

Lemma emit_after u w :
  emit onProgress u w = (Resolved tt, after [u] [] w).
Proof.
  unfold emit, modify, after. simpl. rewrite app_nil_r. reflexivity.
Qed.

Lemma call_after A c (o : Outcome A) (w : World S) :
  call c o w = (o, after [] [c] w).
Proof.
  unfold call, log_call, after. simpl. rewrite app_nil_r. reflexivity.
Qed.

(** [runStep] on a call that rejects: Running, the call, Failed, and the
    error goes on. *)
Lemma runStep_rejected T `{JsResult T} sid c e (w : World S) :
  runStep onProgress sid (call c (@Rejected T e)) w =
  (Rejected e,
   after [ {| stepId := sid; update_status := running; data := None |};
           {| stepId := sid; update_status := failed; data := None |} ] [c] w).
Proof.
  unfold runStep, try_catch, bind, throw.
  rewrite emit_after, call_after, emit_after, !after_after. reflexivity.
Qed.

(** [runStep] on a call that resolves: Running, the call, and Completed
    unless the result is a selection object. *)
Lemma runStep_resolved T `{JsResult T} sid c (r : T) (w : World S) :
  runStep onProgress sid (call c (Resolved r)) w =
  (Resolved r,
   after ({| stepId := sid; update_status := running; data := None |} ::
          if isSelectionObject r then []
          else [ {| stepId := sid; update_status := completed;
                    data := Some (asStepContent r) |} ]) [c] w).
Proof.
  unfold runStep, try_catch, bind.
  rewrite emit_after, call_after.
  destruct (isSelectionObject r); cbn [negb].
  - unfold ret. rewrite after_after. reflexivity.
  - rewrite emit_after. unfold ret. rewrite !after_after. reflexivity.
Qed.

Theorem runFullWorkflow_run (topic : jsstring) (w : World S) :
  runFullWorkflow backend onProgress topic w =
  (Resolved tt,
   after (workflow_updates backend topic) (workflow_calls backend topic) w).
Proof.
  unfold runFullWorkflow, workflow_updates, workflow_calls, hooks_updates,
    script_updates, description_updates, tags_updates,
    generateTitles, generateHooks, generateScript, generateDescription,
    generateTags, update.
  unfold try_catch at 1. unfold bind at 1.
  destruct (backend_generateTitles backend topic) as [r|e].
  2:{ rewrite runStep_rejected. reflexivity. }
  rewrite runStep_resolved, isSelectionObject_titles.
  unfold bind at 1. rewrite emit_after, after_after.
  unfold bind at 1. rewrite emit_after, after_after.
  unfold bind at 1.
  destruct (backend_generateHooks backend (pick_text (best_title r))) as [h|e].
  2:{ rewrite runStep_rejected, after_after. reflexivity. }
  rewrite runStep_resolved, isSelectionObject_array, after_after.
  unfold bind at 1.
  destruct (backend_generateScript backend (pick_text (best_title r))) as [sc|e].
  2:{ rewrite runStep_rejected, after_after. reflexivity. }
  rewrite runStep_resolved, isSelectionObject_script, after_after.
  unfold bind at 1. rewrite emit_after, after_after.
  unfold bind at 1.
  destruct (backend_generateDescription backend None
              (Some (pick_text (best_title r)))) as [d|e].
  2:{ rewrite runStep_rejected, after_after. reflexivity. }
  rewrite runStep_resolved, isSelectionObject_description, after_after.
  unfold bind at 1. rewrite emit_after, after_after.
  unfold bind at 1.
  destruct (backend_generateTags backend (pick_text (best_title r))) as [t|e].
  2:{ rewrite runStep_rejected, after_after. reflexivity. }
  rewrite runStep_resolved, isSelectionObject_array, after_after.
  reflexivity.
Qed.

End Run.

Import Sample.

(* ================================================================= *)
(** * Traces as lists *)

Lemma concat_group_steps (l : list WorkflowProgressUpdate) :
  List.concat (group_steps l) = l.
Proof.
  induction l as [|u l IH]; [reflexivity|].
  cbn [group_steps]. destruct (group_steps l) as [|[|v b] bs].
  - simpl in IH. subst l. reflexivity.
  - simpl in IH |- *. subst l. reflexivity.
  - destruct (JS.eqb (stepId u) (stepId v)); simpl in IH |- *; subst l; reflexivity.
Qed.

Lemma nothing_after_failed_snoc (l : list WorkflowProgressUpdate) x :
  Forall (fun u => update_status u <> failed) l ->
  nothing_after_failed (l ++ [x]).
Proof.
  intros Hl pre u post E Hf.
  destruct post as [|y post]; [reflexivity|]. exfalso.
  destruct (@exists_last _ (y :: post)) as [post' [z Hz]]; [discriminate|].
  rewrite Hz in E.
  change (pre ++ u :: post' ++ [z]) with (pre ++ (u :: post') ++ [z]) in E.
  rewrite app_assoc in E. apply app_inj_tail in E. destruct E as [E _].
  rewrite Forall_forall in Hl. apply (Hl u); [|assumption].
  rewrite E. apply in_or_app. right. left. reflexivity.
Qed.

(* ================================================================= *)
(** * The workflow on untyped answers: what a run emits and calls *)

Section UntypedRun.

Import Untyped UntypedProps.

Variable S : Type.
Variable backend : Backend.
Variable onProgress : WorkflowProgressUpdate -> S -> S.

Local Abbreviation after := (UntypedProps.after onProgress).

Lemma untyped_after_after us1 cs1 us2 cs2 (w : World S) :
  after us2 cs2 (after us1 cs1 w) = after (us1 ++ us2) (cs1 ++ cs2) w.
Proof.
  unfold UntypedProps.after; simpl.
  rewrite fold_left_app, <- !app_assoc. reflexivity.
Qed.

Lemma untyped_emit_after u (w : World S) :
  emit onProgress u w = (Resolved tt, after [u] [] w).
Proof.
  unfold emit, modify, UntypedProps.after. simpl. rewrite app_nil_r. reflexivity.
Qed.

(** A value that is truthy has properties to read. *)
Lemma prop_truthy (v : Value) (name : jsstring) :
  truthy v = true -> prop v name = Resolved (property v name).
Proof. destruct v; simpl; intros H; try discriminate; reflexivity. Qed.

Lemma checked_resolved what ok o r :
  checked what ok o = Resolved r -> ok r = true.
Proof.
  unfold checked. destruct o as [v|e]; [|discriminate].
  destruct (ok v) eqn:E; [|discriminate]. intros H. inversion H. subst. exact E.
Qed.

(** A generation function whose check reads a field: the call is logged
    and the answer checked. *)
Lemma field_check_run what name (c : Call) (o : Outcome Value) (w : World S) :
  (log_call c ;;;
   v <- await o ;;
   if negb (truthy v) then throw (not_expected what)
   else
     field <- await (prop v name) ;;
     if negb (truthy field) then throw (not_expected what)
     else ret v) w =
  (checked what (has_truthy name) o, after [] [c] w).
Proof.
  unfold bind, log_call, modify, await, throw, ret, checked, has_truthy,
    UntypedProps.after.
  simpl. rewrite app_nil_r.
  destruct o as [v|e]; [|reflexivity].
  destruct (truthy v) eqn:Hv; simpl; [|reflexivity].
  rewrite (@prop_truthy v name Hv).
  destruct (truthy (property v name)); reflexivity.
Qed.

Lemma list_check_run what (c : Call) (o : Outcome Value) (w : World S) :
  (log_call c ;;;
   v <- await o ;;
   if negb (truthy v) || negb (isArray v) then throw (not_expected what)
   else ret v) w =
  (checked what is_list o, after [] [c] w).
Proof.
  unfold bind, log_call, modify, await, throw, ret, checked, is_list,
    UntypedProps.after.
  simpl. rewrite app_nil_r.
  destruct o as [v|e]; [|reflexivity].
  destruct (truthy v); simpl; [|reflexivity].
  destruct (isArray v); reflexivity.
Qed.

(** [runStep] around a function that logs one call and settles to [o]. *)
Lemma untyped_runStep_run sid (fn : M (World S) Value) c (o : Outcome Value) :
  (forall w, fn w = (o, after [] [c] w)) ->
  forall w,
    runStep onProgress sid fn w =
    match o with
    | Rejected e =>
        (Rejected e,
         after [ {| stepId := sid; update_status := running; data := VUndefined |};
                 {| stepId := sid; update_status := failed; data := VUndefined |} ]
               [c] w)
    | Resolved r =>
        (Resolved r,
         after ({| stepId := sid; update_status := running; data := VUndefined |}
                :: own_completed sid r) [c] w)
    end.
Proof.
  intros Hfn w. unfold runStep, try_catch, bind, throw, own_completed.
  rewrite untyped_emit_after, Hfn.
  destruct o as [r|e].
  - destruct (isSelectionObject r); cbn [negb].
    + unfold ret. rewrite untyped_after_after. reflexivity.
    + rewrite untyped_emit_after. unfold ret. rewrite !untyped_after_after.
      reflexivity.
  - rewrite untyped_emit_after, !untyped_after_after. reflexivity.
Qed.

(** A run in one equation. *)
Theorem untyped_runFullWorkflow_run (topic : jsstring) (w : World S) :
  runFullWorkflow backend onProgress topic w =
  (Resolved tt,
   after (workflow_updates backend topic) (workflow_calls backend topic) w).
Proof.
  unfold runFullWorkflow, workflow_updates, workflow_calls, hooks_updates,
    script_updates, description_updates, tags_updates, upd.
  unfold try_catch at 1. unfold bind at 1.
  rewrite (@untyped_runStep_run (lit "titles") (generateTitles backend topic)
             (CallGenerateTitles topic) (titles_outcome backend topic))
    by (intros w'; apply field_check_run).
  destruct (titles_outcome backend topic) as [r|e] eqn:E1; [|reflexivity].
  pose proof (@checked_resolved _ _ _ _ E1) as Hr. unfold has_truthy in Hr.
  apply andb_prop in Hr. destruct Hr as [Hr Hbest].
  unfold bind at 1, await at 1. rewrite (@prop_truthy r _ Hr).
  unfold bind at 1, await at 1.
  destruct (titles_map (property r (lit "titles"))) as [titles|e] eqn:E2.
  2:{ unfold UntypedProps.after. simpl. rewrite !app_nil_r. reflexivity. }
  unfold bind at 1. rewrite untyped_emit_after, untyped_after_after.
  unfold bind at 1, await at 1. rewrite (@prop_truthy r _ Hr).
  unfold bind at 1, await at 1. rewrite (@prop_truthy _ _ Hbest).
  fold (best_title_text r). set (bestTitle := best_title_text r).
  unfold bind at 1. rewrite untyped_emit_after, untyped_after_after.
  unfold bind at 1.
  rewrite (@untyped_runStep_run (lit "hooks") (generateHooks backend bestTitle)
             (CallGenerateHooks bestTitle) (hooks_outcome backend bestTitle))
    by (intros w'; apply list_check_run).
  destruct (hooks_outcome backend bestTitle) as [h|e] eqn:E3.
  2:{ rewrite untyped_after_after, <- !app_assoc. reflexivity. }
  rewrite untyped_after_after.
  unfold bind at 1.
  rewrite (@untyped_runStep_run (lit "script") (generateScript backend bestTitle)
             (CallGenerateScript bestTitle) (script_outcome backend bestTitle))
    by (intros w'; apply field_check_run).
  destruct (script_outcome backend bestTitle) as [sc|e] eqn:E4.
  2:{ rewrite untyped_after_after, <- !app_assoc. reflexivity. }
  rewrite untyped_after_after.
  unfold bind at 1. rewrite untyped_emit_after, untyped_after_after.
  unfold bind at 1.
  rewrite (@untyped_runStep_run (lit "description")
             (generateDescription backend VUndefined bestTitle)
             (CallGenerateDescription VUndefined bestTitle)
             (description_outcome backend VUndefined bestTitle))
    by (intros w'; apply field_check_run).
  destruct (description_outcome backend VUndefined bestTitle) as [d|e] eqn:E5.
  2:{ rewrite untyped_after_after, <- !app_assoc. reflexivity. }
  rewrite untyped_after_after.
  pose proof (@checked_resolved _ _ _ _ E5) as Hd. unfold has_truthy in Hd.
  apply andb_prop in Hd. destruct Hd as [Hd _].
  unfold bind at 1, await at 1. rewrite (@prop_truthy d _ Hd).
  unfold bind at 1. rewrite untyped_emit_after, untyped_after_after.
  unfold bind at 1.
  rewrite (@untyped_runStep_run (lit "tags") (generateTags backend bestTitle)
             (CallGenerateTags bestTitle) (tags_outcome backend bestTitle))
    by (intros w'; apply list_check_run).
  destruct (tags_outcome backend bestTitle) as [t|e] eqn:E6.
  2:{ rewrite untyped_after_after, <- !app_assoc. reflexivity. }
  rewrite untyped_after_after.
  unfold ret. f_equal. f_equal.
  - rewrite <- !app_assoc. reflexivity.
Qed.

End UntypedRun.

(* ================================================================= *)
(** * Typed answers are a case of untyped ones *)

Section TypedAnswers.

Import Untyped UntypedProps.

Variable b : GeminiService.Backend.

(** [generateDescription] rejects an answer whose [description] is the
    empty string, so a resolved one is not empty. *)
Hypothesis description_not_empty :
  forall transcript title d,
    backend_generateDescription b transcript title = Resolved d ->
    description d <> [].

Lemma titles_map_value (l : list TitleOption) :
  titles_map (VArray (map title_option_value l)) =
  Resolved (map (fun t => VString (text t)) l).
Proof.
  unfold titles_map. induction l as [|t l IH]; [reflexivity|].
  cbn [map map_outcome]. rewrite IH. reflexivity.
Qed.

(** On a backend whose answers have their declared types, the untyped
    orchestrator emits the updates and makes the calls of the typed one:
    [ScriptGenerationResponse] has a property [alternatives] and the other
    answers have none, the [titles] are an array of objects with a [text],
    and every check of a generation function passes. *)
Lemma typed_workflow_untyped (topic : jsstring) :
  UntypedProps.workflow_updates (untyped b) topic =
    map update_value (Spec.workflow_updates b topic) /\
  UntypedProps.workflow_calls (untyped b) topic =
    flat_map call_value (Spec.workflow_calls b topic).
Proof.
  unfold UntypedProps.workflow_updates, UntypedProps.workflow_calls,
    Spec.workflow_updates, Spec.workflow_calls,
    titles_outcome, untyped.
  cbn [titles_answer].
  destruct (backend_generateTitles b topic) as [r|e]; [|split; reflexivity].
  cbn [answer checked].
  replace (has_truthy (lit "best_title") (titles_value r)) with true by reflexivity.
  replace (own_completed (lit "titles") (titles_value r))
    with [upd "titles" completed (titles_value r)] by reflexivity.
  replace (property (titles_value r) (lit "titles"))
    with (VArray (map title_option_value (titles r))) by reflexivity.
  rewrite titles_map_value.
  replace (best_title_text (titles_value r))
    with (VString (pick_text (best_title r))) by reflexivity.
  set (bestTitle := pick_text (best_title r)).
  unfold UntypedProps.hooks_updates, Spec.hooks_updates, hooks_outcome.
  cbn [hooks_answer]. cbv zeta. fold bestTitle.
  destruct (backend_generateHooks b bestTitle) as [h|e];
    [|split; cbn; unfold update_value, update, upd, selection; cbn; rewrite ?map_map; reflexivity].
  cbn [answer checked].
  replace (is_list (strings_value h)) with true by reflexivity.
  replace (own_completed (lit "hooks") (strings_value h))
    with [upd "hooks" completed (strings_value h)] by reflexivity.
  unfold UntypedProps.script_updates, Spec.script_updates, script_outcome.
  cbn [script_answer].
  destruct (backend_generateScript b bestTitle) as [sc|e];
    [|split; cbn; unfold update_value, update, upd, selection; cbn; rewrite ?map_map; reflexivity].
  cbn [answer checked].
  replace (has_truthy (lit "metadata") (script_value sc)) with true by reflexivity.
  replace (own_completed (lit "script") (script_value sc)) with (@nil WorkflowProgressUpdate)
    by reflexivity.
  unfold UntypedProps.description_updates, Spec.description_updates,
    description_outcome.
  cbn [description_answer].
  destruct (backend_generateDescription b None (Some bestTitle)) as [d|e] eqn:Ed;
    [|split; cbn; unfold update_value, update, upd, selection; cbn; rewrite ?map_map; reflexivity].
  cbn [answer checked].
  assert (Hd : has_truthy (lit "description") (description_value d) = true).
  { pose proof (@description_not_empty _ _ _ Ed) as Hne.
    unfold has_truthy. cbn. destruct (description d); [congruence | reflexivity]. }
  rewrite Hd.
  replace (own_completed (lit "description") (description_value d))
    with [upd "description" completed (description_value d)] by reflexivity.
  replace (property (description_value d) (lit "description"))
    with (VString (description d)) by reflexivity.
  unfold UntypedProps.tags_updates, Spec.tags_updates, tags_outcome.
  cbn [tags_answer].
  destruct (backend_generateTags b bestTitle) as [t|e];
    split; cbn; unfold update_value, update, upd, selection; cbn; rewrite ?map_map; reflexivity.
Qed.

(** The same for the runs themselves. *)
Theorem typed_run_untyped
  (S S' : Type) (onProgress : GeminiService.WorkflowProgressUpdate -> S -> S)
  (onProgress' : WorkflowProgressUpdate -> S' -> S')
  (topic : jsstring) (s0 : S) (s0' : S') :
  emitted (snd (runFullWorkflow (untyped b) onProgress' topic (fresh s0'))) =
    map update_value
      (GeminiService.emitted
         (snd (GeminiService.runFullWorkflow b onProgress topic (Spec.fresh s0)))) /\
  calls (snd (runFullWorkflow (untyped b) onProgress' topic (fresh s0'))) =
    flat_map call_value
      (GeminiService.calls
         (snd (GeminiService.runFullWorkflow b onProgress topic (Spec.fresh s0)))).
Proof.
  rewrite untyped_runFullWorkflow_run, runFullWorkflow_run.
  destruct (typed_workflow_untyped topic) as [Hu Hc].
  cbn. split; assumption.
Qed.

End TypedAnswers.

(* ================================================================= *)
(** * The shape of the emitted sequence *)

Section ProgressShape.

Import Untyped UntypedProps.

Lemma failed_only_last_tail (a : WorkflowProgressUpdate) l :
  failed_only_last (a :: l) = true -> failed_only_last l = true.
Proof.
  cbn [failed_only_last]. destruct l as [|b l]; [reflexivity|].
  destruct (update_status a); intros H; try exact H; discriminate.
Qed.

Lemma failed_only_last_sound (l : list WorkflowProgressUpdate) :
  failed_only_last l = true -> nothing_after_failed l.
Proof.
  induction l as [|a l IH]; intros H pre u post E Hf.
  - destruct pre; discriminate.
  - destruct pre as [|p pre]; simpl in E; inversion E; subst.
    + cbn [failed_only_last] in H. rewrite Hf in H.
      destruct post; [reflexivity | discriminate].
    + apply (IH (@failed_only_last_tail _ _ H) pre u post); [reflexivity | assumption].
Qed.

(** An answer that passed [Array.isArray] is no selection object. *)
Lemma list_not_selection what o r :
  checked what is_list o = Resolved r -> isSelectionObject r = false.
Proof.
  intros H. apply checked_resolved in H. unfold is_list in H.
  destruct r; simpl in H; try discriminate; reflexivity.
Qed.

Ltac solve_in := solve [ repeat (first [ left; reflexivity | right ]) ].

Ltac show_block :=
  eexists; split; [reflexivity | split; [repeat constructor | cbn; solve_in]].

Ltac show_shape :=
  match goal with
  | |- progress_shape ?t =>
      let g := eval cbv in (group_steps t) in
      exists (removelast g), (last g []); eexists
  end;
  split; [reflexivity|];
  split; [cbn; repeat (apply Forall2_cons; [show_block|]); apply Forall2_nil|];
  split; [reflexivity|];
  first [ left; show_block | right; split; [reflexivity | show_block] ].

Ltac leaf :=
  solve [ split; [show_shape | apply failed_only_last_sound; reflexivity] ].

(** C1, as the code has it.  The updates of a run are the blocks of the
    steps in their fixed order, from titles up to the step at which the run
    ends; each block is the step's Running update followed by updates of
    that step only, so that a step starts only after the block before it is
    complete and no step returns to Running.  After Running, hooks and tags
    get exactly one terminal update.  Script and description get Failed,
    or Completed once or twice in a row: [runStep]'s own Completed with the
    raw answer (left out when the answer has a property [alternatives]) and
    the orchestrator's Completed with the content to show.  The titles step
    gets Failed, or Selecting and Completed, with [runStep]'s own Completed
    before them or not; when the title list of its answer cannot be read,
    its block ends there, with no Failed update.  Only a block that ends
    with Completed is followed by another, and nothing at all is emitted
    after a Failed update. *)
Theorem runFullWorkflow_progress_shape
  (S : Type) (backend : Backend)
  (onProgress : WorkflowProgressUpdate -> S -> S)
  (topic : jsstring) (s0 : S) :
  progress_shape
    (emitted (snd (runFullWorkflow backend onProgress topic (fresh s0)))) /\
  nothing_after_failed
    (emitted (snd (runFullWorkflow backend onProgress topic (fresh s0)))).
Proof.
  rewrite untyped_runFullWorkflow_run.
  cbn [snd emitted UntypedProps.after fresh app].
  unfold workflow_updates, hooks_updates, script_updates, description_updates,
    tags_updates, upd, own_completed.
  destruct (titles_outcome backend topic) as [r|e1]; [|leaf].
  destruct (isSelectionObject r).
  all: (destruct (titles_map (property r (lit "titles"))) as [ts|e2]; [|leaf]).
  all: (destruct (hooks_outcome backend (best_title_text r)) as [h|e3] eqn:E3;
       [rewrite (@list_not_selection _ _ _ E3)|leaf]).
  all: (destruct (script_outcome backend (best_title_text r)) as [sc|e4]; [|leaf]).
  all: destruct (isSelectionObject sc).
  all: (destruct (description_outcome backend VUndefined (best_title_text r))
       as [d|e5]; [|leaf]).
  all: destruct (isSelectionObject d).
  all: (destruct (tags_outcome backend (best_title_text r)) as [t|e6] eqn:E6;
       [rewrite (@list_not_selection _ _ _ E6)|]).
  all: leaf.
Qed.

End ProgressShape.

Section ProgressSamples.

Import Untyped UntypedProps UntypedSample.

(** The sample backend never answers with an empty description: its run
    on untyped answers is its typed run. *)
Lemma typed_run_untyped_sample :
  emitted (snd (run typed_answers)) =
    map update_value (GeminiService.emitted (snd good_run)) /\
  calls (snd (run typed_answers)) =
    flat_map call_value (GeminiService.calls (snd good_run)).
Proof.
  refine (@typed_run_untyped good_backend _ unit unit
            (fun _ s => s) (fun _ s => s) laptop_topic tt tt).
  intros transcript title d H. inversion H. discriminate.
Qed.

(** C1, as stated, fails on a run in which every call resolves with an
    answer of its declared type: the description step gets two Completed
    updates, the second one after the first (and the titles step gets
    Completed, Selecting, Completed).  On a script answer without a
    property [alternatives] the script step gets two Completed updates as
    well.  On a titles answer without [titles] the run ends after
    [runStep]'s Completed of titles; on one with a property [alternatives]
    in its place the run ends after the Running update, and titles gets no
    terminal update at all. *)
Lemma runFullWorkflow_two_terminal_updates :
  fst (run typed_answers) = Resolved tt /\
  shape (emitted (snd (run typed_answers))) =
    [ (lit "titles", running); (lit "titles", completed);
      (lit "titles", selecting); (lit "titles", completed);
      (lit "hooks", running); (lit "hooks", completed);
      (lit "script", running); (lit "script", completed);
      (lit "description", running); (lit "description", completed);
      (lit "description", completed);
      (lit "tags", running); (lit "tags", completed) ] /\
  statuses_of "description" (emitted (snd (run typed_answers))) =
    [running; completed; completed] /\
  statuses_of "script" (emitted (snd (run bare_script))) =
    [running; completed; completed] /\
  shape (emitted (snd (run no_title_list))) =
    [ (lit "titles", running); (lit "titles", completed) ] /\
  shape (emitted (snd (run alternatives_for_titles))) =
    [ (lit "titles", running) ].
Proof. repeat split; vm_compute; reflexivity. Qed.

End ProgressSamples.

(* ================================================================= *)
(** * Failure of a step *)

Ltac pick_call H :=
  repeat (destruct H as [H|H]; [subst | ]); try contradiction.

(** C2. Whatever the backend does, the promise of [runFullWorkflow]
    resolves.  If a generation call the run made rejects, then the call
    belongs to a step, the Failed update of that step is the last update of
    the run, every update before it is of that step or of an earlier one (no
    later step emits anything, Running included), and the rejected call is
    the last call of the run (no later step executes). *)
Theorem runFullWorkflow_failure_isolated
  (S : Type) (backend : Backend)
  (onProgress : WorkflowProgressUpdate -> S -> S)
  (topic : jsstring) (s0 : S) :
  fst (runFullWorkflow backend onProgress topic (fresh s0)) = Resolved tt /\
  forall c,
    In c (calls (snd (runFullWorkflow backend onProgress topic (fresh s0)))) ->
    call_rejects backend c = true ->
    exists sid before earlier,
      call_step c = Some sid /\
      emitted (snd (runFullWorkflow backend onProgress topic (fresh s0))) =
        before ++ [ {| stepId := sid; update_status := failed; data := None |} ] /\
      Forall (fun u => step_index (stepId u) <= step_index sid) before /\
      calls (snd (runFullWorkflow backend onProgress topic (fresh s0))) =
        earlier ++ [c].
Proof.
  rewrite runFullWorkflow_run.
  cbn [fst snd emitted calls after fresh app].
  unfold workflow_updates, workflow_calls, hooks_updates, script_updates,
    description_updates, tags_updates, update.
  split; [reflexivity|]. intros c Hin Hrej.
  destruct (backend_generateTitles backend topic) as [r|e] eqn:E1.
  2:{ pick_call Hin.
      eexists (lit "titles"), [_], []. repeat split.
      repeat constructor. }
  cbv zeta in *.
  destruct (backend_generateHooks backend (pick_text (best_title r))) as [h|e] eqn:E2.
  2:{ pick_call Hin; cbn [call_rejects] in Hrej.
      - rewrite E1 in Hrej. discriminate.
      - eexists (lit "hooks"), [_; _; _; _; _], [_]. repeat split.
        repeat (constructor; [cbv; lia|]). constructor. }
  destruct (backend_generateScript backend (pick_text (best_title r))) as [sc|e] eqn:E3.
  2:{ pick_call Hin; cbn [call_rejects] in Hrej.
      - rewrite E1 in Hrej. discriminate.
      - rewrite E2 in Hrej. discriminate.
      - eexists (lit "script"), [_; _; _; _; _; _; _], [_; _]. repeat split.
        repeat (constructor; [cbv; lia|]). constructor. }
  destruct (backend_generateDescription backend None
              (Some (pick_text (best_title r)))) as [d|e] eqn:E4.
  2:{ pick_call Hin; cbn [call_rejects] in Hrej.
      - rewrite E1 in Hrej. discriminate.
      - rewrite E2 in Hrej. discriminate.
      - rewrite E3 in Hrej. discriminate.
      - eexists (lit "description"), [_; _; _; _; _; _; _; _; _], [_; _; _].
        repeat split.
        repeat (constructor; [cbv; lia|]). constructor. }
  destruct (backend_generateTags backend (pick_text (best_title r))) as [t|e] eqn:E5.
  2:{ pick_call Hin; cbn [call_rejects] in Hrej.
      - rewrite E1 in Hrej. discriminate.
      - rewrite E2 in Hrej. discriminate.
      - rewrite E3 in Hrej. discriminate.
      - rewrite E4 in Hrej. discriminate.
      - eexists (lit "tags"), [_; _; _; _; _; _; _; _; _; _; _; _], [_; _; _; _].
        repeat split.
        repeat (constructor; [cbv; lia|]). constructor. }
  exfalso. pick_call Hin; cbn [call_rejects] in Hrej.
  - rewrite E1 in Hrej. discriminate.
  - rewrite E2 in Hrej. discriminate.
  - rewrite E3 in Hrej. discriminate.
  - rewrite E4 in Hrej. discriminate.
  - rewrite E5 in Hrej. discriminate.
Qed.

(** The hooks call of the sample rejects: hooks ends Failed and script,
    description and tags never start. *)
Lemma runFullWorkflow_failure_isolated_witness :
  fst hooks_failing_run = Resolved tt /\
  exists sid before earlier,
    call_step (CallGenerateHooks (lit "Is This Laptop Worth It?")) = Some sid /\
    emitted (snd hooks_failing_run) =
      before ++ [ {| stepId := sid; update_status := failed; data := None |} ] /\
    Forall (fun u => step_index (stepId u) <= step_index sid) before /\
    calls (snd hooks_failing_run) =
      earlier ++ [CallGenerateHooks (lit "Is This Laptop Worth It?")].
Proof.
  destruct (@runFullWorkflow_failure_isolated unit hooks_failing_backend
              (fun _ s => s) laptop_topic tt) as [Hresolves Hfailure].
  split; [exact Hresolves|].
  apply Hfailure.
  - vm_compute. right. left. reflexivity.
  - reflexivity.
Defined.

(* ================================================================= *)
(** * The title that is fed forward *)




(* ================================================================= *)
(** * The chosen title and the alternatives *)

(** C3 at the failing input: the titles call answers with a [best_title]
    that rewords one of its titles.  The Completed update of the titles
    step then carries a [chosen] that is not among its [alternatives]. *)
Theorem runFullWorkflow_chosen_outside_alternatives :
  In (update "titles" completed
        (Some (ContentSelection
                 {| alternatives := [ lit "10 Reasons...";
                                      lit "Is This Laptop Worth It?";
                                      lit "Laptop Review 2024" ];
                    chosen := Some (lit "Is this laptop worth it?") |})))
     (emitted (snd rewording_run)) /\
  array_includes [ lit "10 Reasons..."; lit "Is This Laptop Worth It?";
                   lit "Laptop Review 2024" ]
                 (lit "Is this laptop worth it?") = false.
Proof.
  split; [|reflexivity].
  vm_compute. right. right. right. left. reflexivity.
Qed.

(* ================================================================= *)
(** * [selectBestOption] *)

(** C4. On the empty list [selectBestOption] rejects with an error and
    makes no call.  On a singleton [[x]] it resolves with [x] and leaves the
    world as it was: the chooser is not called.  On two or more candidates
    it calls the chooser once, and whatever text the chooser replies, it
    resolves with a member of the list: the trimmed reply when that is one
    of the candidates, the first candidate otherwise. *)
Theorem selectBestOption_contract
  (S : Type) (backend : Backend)
  (options : list jsstring) (purpose : jsstring) (w : World S) :
  match options with
  | [] =>
      exists message,
        selectBestOption backend options purpose w = (Rejected (ErrorObj message), w)
  | [x] =>
      selectBestOption backend options purpose w = (Resolved x, w)
  | first :: _ :: _ =>
      forall reply,
        ai_generateContent backend (lit "gemini-flash-lite-latest")
          (selectionPrompt options purpose) = Resolved reply ->
        exists x,
          selectBestOption backend options purpose w =
            (Resolved x,
             {| sink := sink w; emitted := emitted w;
                calls := calls w ++
                  [CallGenerateContent (lit "gemini-flash-lite-latest")
                     (selectionPrompt options purpose)] |}) /\
          In x options /\
          (In (trim reply) options -> x = trim reply) /\
          (~ In (trim reply) options -> x = first)
  end.
Proof.
  destruct options as [|a [|b rest]].
  - eexists. reflexivity.
  - reflexivity.
  - intros reply Hreply.
    unfold selectBestOption. cbn [List.length Nat.eqb].
    unfold bind, generateContent, call, log_call, ret. rewrite Hreply.
    destruct (array_includes (a :: b :: rest) (trim reply)) eqn:Hin.
    + exists (trim reply). split; [reflexivity|].
      apply array_includes_In in Hin. split; [assumption|].
      split; [reflexivity | intros N; elim (N Hin)].
    + exists a. split; [reflexivity|].
      split; [left; reflexivity|].
      split; [|reflexivity].
      intros Hmem. apply array_includes_In in Hmem. congruence.
Qed.

(** The chooser of the sample answers "Laptop Review 2024", a candidate;
    on candidates that do not hold the answer the first one comes back. *)
Lemma selectBestOption_contract_witness :
  (exists x,
     fst (selectBestOption good_backend
            [lit "10 Reasons..."; lit "Laptop Review 2024"]
            (lit "highest click-through") (fresh tt)) = Resolved x /\
     x = lit "Laptop Review 2024") /\
  (exists x,
     fst (selectBestOption good_backend
            [lit "10 Reasons..."; lit "Is This Laptop Worth It?"]
            (lit "highest click-through") (fresh tt)) = Resolved x /\
     x = lit "10 Reasons...").
Proof.
  split.
  - destruct (@selectBestOption_contract unit good_backend
                [lit "10 Reasons..."; lit "Laptop Review 2024"]
                (lit "highest click-through") (fresh tt)
                (lit "Laptop Review 2024") eq_refl)
      as [x [Hrun [_ [Hmem _]]]].
    exists x. split.
    + rewrite Hrun. reflexivity.
    + apply Hmem. right. left. reflexivity.
  - destruct (@selectBestOption_contract unit good_backend
                [lit "10 Reasons..."; lit "Is This Laptop Worth It?"]
                (lit "highest click-through") (fresh tt)
                (lit "Laptop Review 2024") eq_refl)
      as [x [Hrun [_ [_ Hfirst]]]].
    exists x. split.
    + rewrite Hrun. reflexivity.
    + apply Hfirst. intros Hmem. apply array_includes_In in Hmem.
      discriminate Hmem.
Defined.

(* ================================================================= *)
(** * [onProgressCallback] *)

Lemma applyUpdate_frame (update : WorkflowProgressUpdate) (step : WorkflowStep) :
  id (applyUpdate update step) = id step /\
  label (applyUpdate update step) = label step /\
  (id step <> stepId update -> applyUpdate update step = step) /\
  (id step = stepId update ->
   status (applyUpdate update step) = update_status update /\
   content (applyUpdate update step) =
     match data update with
     | Some d => d
     | None => content step
     end).
Proof.
  unfold applyUpdate.
  destruct (JS.eqb (id step) (stepId update)) eqn:E.
  - apply eqb_eq in E. cbn.
    split; [reflexivity|]. split; [reflexivity|].
    split; [intros N; elim (N E) | intros _; split; reflexivity].
  - apply eqb_neq in E.
    split; [reflexivity|]. split; [reflexivity|].
    split; [intros _; reflexivity | intros H; elim (E H)].
Qed.

(** C9. A progress update delivered to [onProgressCallback] leaves every
    other piece of state alone and, in the step list, keeps the length and
    the order: the step at each position keeps its id and label; a step
    whose id is not the update's [stepId] is unchanged; a step whose id is
    the update's [stepId] takes the update's status, and takes its data as
    content only when the update carries data.  With no step list there is
    still none. *)
Theorem onProgressCallback_frame
  (update : WorkflowProgressUpdate) (st : AppState) :
  agentPrompt (onProgressCallback update st) = agentPrompt st /\
  isLoadingAgent (onProgressCallback update st) = isLoadingAgent st /\
  agentError (onProgressCallback update st) = agentError st /\
  match workflowSteps st with
  | None => workflowSteps (onProgressCallback update st) = None
  | Some steps =>
      exists steps',
        workflowSteps (onProgressCallback update st) = Some steps' /\
        Forall2
          (fun step step' =>
             id step' = id step /\
             label step' = label step /\
             (id step <> stepId update -> step' = step) /\
             (id step = stepId update ->
              status step' = update_status update /\
              content step' =
                match data update with
                | Some d => d
                | None => content step
                end))
          steps steps'
  end.
Proof.
  unfold onProgressCallback, setWorkflowSteps, progressUpdater. cbn.
  repeat split.
  destruct (workflowSteps st) as [steps|]; [|reflexivity].
  eexists. split; [reflexivity|].
  induction steps as [|step steps IH]; cbn; constructor.
  - apply applyUpdate_frame.
  - exact IH.
Qed.

(* ================================================================= *)
(** * [runAutomation]: the topic check *)

(** C5, as stated, fails on a topic of three spaces: it is whitespace-only
    ([trim] leaves nothing), and yet [runAutomation] sets no error, runs
    the whole workflow on it (five calls, the first one [generateTitles] on
    the three spaces) and emits thirteen progress updates.
    [runFullWorkflow] itself checks nothing: called on the empty topic it
    calls [generateTitles] on it. *)
Lemma runAutomation_whitespace_topic_runs :
  trim (lit "   ") = [] /\
  agentError (sink (snd (runAutomation good_backend (lit "   ") (fresh idle)))) = None /\
  calls (snd (runAutomation good_backend (lit "   ") (fresh idle))) =
    [ CallGenerateTitles (lit "   ");
      CallGenerateHooks (lit "Is This Laptop Worth It?");
      CallGenerateScript (lit "Is This Laptop Worth It?");
      CallGenerateDescription None (Some (lit "Is This Laptop Worth It?"));
      CallGenerateTags (lit "Is This Laptop Worth It?") ] /\
  List.length (emitted (snd (runAutomation good_backend (lit "   ") (fresh idle)))) = 13 /\
  hd_error (calls (snd (runFullWorkflow good_backend (fun _ s => s) [] (fresh tt))))
    = Some (CallGenerateTitles []).
Proof. repeat split; vm_compute; reflexivity. Qed.

(** C5, as the code has it.  On the empty topic [runAutomation] stores the
    validation message in [agentError] and returns (its promise resolves):
    the step list is not set up, nothing else of the state changes, no call
    is made and no progress update is emitted. *)
Theorem runAutomation_empty_topic
  (backend : Backend) (w : World AppState) :
  fst (runAutomation backend [] w) = Resolved tt /\
  agentError (sink (snd (runAutomation backend [] w))) =
    Some (lit "Please enter a video topic to automate.") /\
  workflowSteps (sink (snd (runAutomation backend [] w))) = workflowSteps (sink w) /\
  isLoadingAgent (sink (snd (runAutomation backend [] w))) = isLoadingAgent (sink w) /\
  agentPrompt (sink (snd (runAutomation backend [] w))) = agentPrompt (sink w) /\
  emitted (snd (runAutomation backend [] w)) = emitted w /\
  calls (snd (runAutomation backend [] w)) = calls w.
Proof. repeat split. Qed.

(* ================================================================= *)
(** * The video poller *)

Section PollerFacts.

Variable prompt : jsstring.
Variable tool_id : jsstring.

Lemma armed_existsb (h : positive) (l : list positive) :
  existsb (Pos.eqb h) l = true <-> In h l.
Proof.
  rewrite existsb_exists. split.
  - intros [x [Hx E]]. apply Pos.eqb_eq in E. subst; assumption.
  - intros H. exists h. split; [assumption | apply Pos.eqb_refl].
Qed.

(** A timer that is not armed does not run its callback. *)
Lemma tick_cleared (h : positive) (env : TickEnv) (w : PollWorld) :
  ~ In h (activeIntervals w) -> tick prompt tool_id h env w = w.
Proof.
  intros N. unfold tick.
  destruct (existsb (Pos.eqb h) (activeIntervals w)) eqn:E; [|reflexivity].
  apply armed_existsb in E. elim (N E).
Qed.

Lemma ticks_cleared (h : positive) (envs : list TickEnv) (w : PollWorld) :
  ~ In h (activeIntervals w) -> ticks prompt tool_id h envs w = w.
Proof.
  intros N. induction envs as [|env envs IH]; [reflexivity|].
  unfold ticks in *. cbn [fold_left]. rewrite tick_cleared; assumption.
Qed.

Lemma cleared_not_In (h : positive) (l : list positive) :
  ~ In h (filter (fun h' => negb (Pos.eqb h' h)) l).
Proof.
  rewrite filter_In. intros [_ E]. rewrite Pos.eqb_refl in E. discriminate.
Qed.

(** One period whose status check fails without the credential
    signature. *)
Lemma tick_transient (h : positive) (env : TickEnv) (w : PollWorld) :
  In h (activeIntervals w) ->
  transient_failure env ->
  tick prompt tool_id h env w =
  {| view := setLoadingMessage still_trying (view w);
     activeIntervals := activeIntervals w;
     nextHandle := nextHandle w;
     statusChecks := Datatypes.S (statusChecks w);
     fetched := fetched w;
     savedProjects := savedProjects w |}.
Proof.
  intros Harmed [e [He Hc]]. unfold tick.
  apply armed_existsb in Harmed. rewrite Harmed.
  unfold pollCallback, try_catch, bind, checkVideoGenerationStatus.
  cbn. rewrite He.
  destruct e as [message|v]; cbn in Hc |- *.
  - rewrite Hc. reflexivity.
  - reflexivity.
Qed.

Lemma ticks_transient (h : positive) (envs : list TickEnv) (w : PollWorld) :
  In h (activeIntervals w) ->
  envs <> [] ->
  Forall transient_failure envs ->
  ticks prompt tool_id h envs w =
  {| view := setLoadingMessage still_trying (view w);
     activeIntervals := activeIntervals w;
     nextHandle := nextHandle w;
     statusChecks := statusChecks w + List.length envs;
     fetched := fetched w;
     savedProjects := savedProjects w |}.
Proof.
  intros Harmed Hne Hall. revert w Harmed.
  induction Hall as [|env envs Henv Hall IH]; [congruence|].
  intros w Harmed. unfold ticks in *. cbn [fold_left].
  rewrite (@tick_transient h env w Harmed Henv).
  destruct envs as [|env' envs'].
  - cbn. f_equal. lia.
  - rewrite IH; [|discriminate|exact Harmed].
    cbn. f_equal. lia.
Qed.

(** One period whose status check fails with the credential signature,
    while the ref holds the handle of the timer. *)
Lemma tick_credential (h : positive) (env : TickEnv) (w : PollWorld) e :
  pollingIntervalRef (view w) = Some h ->
  In h (activeIntervals w) ->
  status_check env = Rejected e ->
  credential_error e = true ->
  tick prompt tool_id h env w =
  {| view :=
       {| pollingIntervalRef := None;
          isLoading := false;
          error := Some (lit
            "Your API key is invalid or has expired. Please select a new one.");
          generatedContent := generatedContent (view w);
          loadingMessage := lit "Checking progress... Your video is being created.";
          hasApiKey := false |};
     activeIntervals := filter (fun h' => negb (Pos.eqb h' h)) (activeIntervals w);
     nextHandle := nextHandle w;
     statusChecks := Datatypes.S (statusChecks w);
     fetched := fetched w;
     savedProjects := savedProjects w |}.
Proof.
  intros Href Harmed He Hc. unfold tick.
  apply armed_existsb in Harmed. rewrite Harmed.
  unfold pollCallback, try_catch, bind, checkVideoGenerationStatus.
  cbn. rewrite He.
  destruct e as [message|v]; cbn in Hc |- *; [|discriminate].
  rewrite Hc. unfold cleanupPolling, bind, gets. cbn.
  rewrite Href. reflexivity.
Qed.

(** C8. While the timer [h] is armed and the ref holds it: after any
    number of periods (one or more) whose status checks fail without the
    credential signature, the same timers are armed and the ref is
    unchanged, every one of those periods made its status check, and the
    message shown is the "still trying" one.  After one period whose
    status check fails with an error whose message has the credential
    signature, the timer is cleared and never fires again, the re-selection
    of the key is forced ([hasApiKey] false), the key error is shown and
    loading ends. *)
Theorem poll_error_handling
  (h : positive) (w : PollWorld) :
  pollingIntervalRef (view w) = Some h ->
  In h (activeIntervals w) ->
  (forall envs,
     envs <> [] ->
     Forall transient_failure envs ->
     activeIntervals (ticks prompt tool_id h envs w) = activeIntervals w /\
     pollingIntervalRef (view (ticks prompt tool_id h envs w)) = Some h /\
     statusChecks (ticks prompt tool_id h envs w) =
       statusChecks w + List.length envs /\
     loadingMessage (view (ticks prompt tool_id h envs w)) = still_trying) /\
  (forall env e,
     status_check env = Rejected e ->
     credential_error e = true ->
     ~ In h (activeIntervals (tick prompt tool_id h env w)) /\
     pollingIntervalRef (view (tick prompt tool_id h env w)) = None /\
     (forall envs,
        ticks prompt tool_id h envs (tick prompt tool_id h env w) =
        tick prompt tool_id h env w) /\
     hasApiKey (view (tick prompt tool_id h env w)) = false /\
     error (view (tick prompt tool_id h env w)) =
       Some (lit "Your API key is invalid or has expired. Please select a new one.") /\
     isLoading (view (tick prompt tool_id h env w)) = false).
Proof.
  intros Href Harmed. split.
  - intros envs Hne Hall.
    rewrite (@ticks_transient h envs w Harmed Hne Hall). cbn.
    repeat split. exact Href.
  - intros env e He Hc.
    rewrite (@tick_credential h env w e Href Harmed He Hc). cbn.
    split; [apply cleared_not_In|].
    split; [reflexivity|].
    split; [|repeat split].
    intros envs. apply ticks_cleared. cbn. apply cleared_not_In.
Qed.

End PollerFacts.

(** The started job of the sample: two periods with the network down leave
    the timer armed; a period with an expired key clears it. *)
Lemma poll_error_handling_witness :
  (activeIntervals (ticks a_prompt video_tool 1 [network_down; network_down] polling_view)
     = activeIntervals polling_view /\
   statusChecks (ticks a_prompt video_tool 1 [network_down; network_down] polling_view)
     = 2) /\
  (~ In 1%positive (activeIntervals (tick a_prompt video_tool 1 key_expired polling_view)) /\
   hasApiKey (view (tick a_prompt video_tool 1 key_expired polling_view)) = false).
Proof.
  destruct (@poll_error_handling a_prompt video_tool 1%positive polling_view
              eq_refl (or_introl eq_refl)) as [Htransient Hcredential].
  split.
  - destruct (Htransient [network_down; network_down]) as [Ha [_ [Hs _]]].
    + discriminate.
    + repeat constructor; eexists; split; reflexivity.
    + split; [exact Ha | exact Hs].
  - destruct (Hcredential key_expired _ eq_refl eq_refl) as [Hc [_ [_ [Hk _]]]].
    split; [exact Hc | exact Hk].
Defined.

(** C7 at the failing input: the job has started, and the first status
    check reports the job done with no video.  The timer is cleared, but the
    error "Video generation finished, but no download link was found." is
    caught by the callback's own handler as a transient one: no error is
    shown, the view keeps loading, and the message shown is the "still
    trying" one. *)
Theorem pollCallback_done_without_link :
  activeIntervals polling_view = [1%positive] /\
  activeIntervals (tick a_prompt video_tool 1 done_without_link polling_view) = [] /\
  pollingIntervalRef (view (tick a_prompt video_tool 1 done_without_link polling_view))
    = None /\
  error (view (tick a_prompt video_tool 1 done_without_link polling_view)) = None /\
  isLoading (view (tick a_prompt video_tool 1 done_without_link polling_view)) = true /\
  loadingMessage (view (tick a_prompt video_tool 1 done_without_link polling_view))
    = lit "A temporary issue occurred. Still trying...".
Proof. repeat split. Qed.

(* ================================================================= *)
(** * Further properties of the code *)

Import Props Sample2.

(* ================================================================= *)
(** * [runAutomation]: the state after a run *)





(* ================================================================= *)
(** * [runAutomation] on untyped answers: the step list after a run *)

Section UntypedAutomation.

Import Untyped UntypedProps.






End UntypedAutomation.

Section UntypedAutomationSample.

Import Untyped UntypedProps UntypedSample.


End UntypedAutomationSample.

(* ================================================================= *)
(** * The video poller: from the start of a job to its end *)

Section PollerRuns.

Variable prompt : jsstring.
Variable tool_id : jsstring.

Lemma clear_only (h : positive) :
  filter (fun h' => negb (Pos.eqb h' h)) [h] = [].
Proof. cbn. rewrite Pos.eqb_refl. reflexivity. Qed.

(** One period after which polling goes on: only the message and the
    count of status checks change. *)
Lemma tick_keeps_polling (h : positive) (env : TickEnv) (w : PollWorld) :
  In h (activeIntervals w) ->
  keeps_polling env ->
  exists message,
    tick prompt tool_id h env w =
    {| view := setLoadingMessage message (view w);
       activeIntervals := activeIntervals w;
       nextHandle := nextHandle w;
       statusChecks := Datatypes.S (statusChecks w);
       fetched := fetched w;
       savedProjects := savedProjects w |}.
Proof.
  intros Harmed [[op [Hop Hdone]]|Htransient].
  - exists (lit "Checking progress... Your video is being created.").
    unfold tick. apply armed_existsb in Harmed. rewrite Harmed.
    unfold pollCallback, try_catch, bind, checkVideoGenerationStatus.
    cbn. rewrite Hop. cbn. rewrite Hdone. reflexivity.
  - exists still_trying. apply tick_transient; assumption.
Qed.

Lemma ticks_keep_polling (h : positive) (envs : list TickEnv) (w : PollWorld) :
  In h (activeIntervals w) ->
  Forall keeps_polling envs ->
  exists v,
    ticks prompt tool_id h envs w =
    {| view := v;
       activeIntervals := activeIntervals w;
       nextHandle := nextHandle w;
       statusChecks := statusChecks w + List.length envs;
       fetched := fetched w;
       savedProjects := savedProjects w |} /\
    pollingIntervalRef v = pollingIntervalRef (view w) /\
    isLoading v = isLoading (view w) /\
    error v = error (view w) /\
    generatedContent v = generatedContent (view w) /\
    hasApiKey v = hasApiKey (view w).
Proof.
  intros Harmed Hall. revert w Harmed.
  induction Hall as [|env envs Henv Hall IH]; intros w Harmed.
  - exists (view w). cbn. rewrite Nat.add_0_r. destruct w; repeat split.
  - unfold ticks in *. cbn [fold_left].
    destruct (@tick_keeps_polling h env w Harmed Henv) as [message Htick].
    rewrite Htick. set (w1 := {| view := _ |}).
    destruct (IH w1 Harmed) as [v [Hrun Hsame]].
    exists v. split.
    + rewrite Hrun. subst w1. cbn. f_equal. lia.
    + exact Hsame.
Qed.

(** The period in which the video is delivered. *)
Lemma tick_delivers (h : positive) (env : TickEnv) (w : PollWorld)
  (link key url : jsstring) :
  pollingIntervalRef (view w) = Some h ->
  In h (activeIntervals w) ->
  delivers env link key url ->
  tick prompt tool_id h env w =
  {| view :=
       {| pollingIntervalRef := None;
          isLoading := false;
          error := error (view w);
          generatedContent := Some url;
          loadingMessage := lit "Finalizing video...";
          hasApiKey := hasApiKey (view w) |};
     activeIntervals := filter (fun h' => negb (Pos.eqb h' h)) (activeIntervals w);
     nextHandle := nextHandle w;
     statusChecks := Datatypes.S (statusChecks w);
     fetched := fetched w ++ [link ++ lit "&key=" ++ key];
     savedProjects := savedProjects w ++ [(prompt, tool_id, url)] |}.
Proof.
  intros Href Harmed [op [Hop [Hdone [Huri [Hlink [Hkey [Hk Hfetch]]]]]]].
  unfold tick. apply armed_existsb in Harmed. rewrite Harmed.
  unfold pollCallback, try_catch, bind, checkVideoGenerationStatus.
  cbn. rewrite Hop. cbn. rewrite Hdone.
  unfold cleanupPolling, bind, gets. cbn. rewrite Href. cbn.
  rewrite Huri, Hkey.
  destruct link as [|c link]; [congruence|].
  destruct key as [|k key]; [congruence|].
  cbn. unfold fetchVideo. cbn in Hfetch |- *. rewrite Hfetch. reflexivity.
Qed.

(** The [tick]s from the start of a job to the delivery: any number of
    periods after which polling goes on, the period that delivers, and
    the periods after it. *)
Lemma ticks_until_delivery
  (h : positive) (w : PollWorld) (before later : list TickEnv) (env : TickEnv)
  (link key url : jsstring) :
  pollingIntervalRef (view w) = Some h ->
  In h (activeIntervals w) ->
  Forall keeps_polling before ->
  delivers env link key url ->
  statusChecks (ticks prompt tool_id h (before ++ env :: later) w) =
    statusChecks w + List.length before + 1 /\
  fetched (ticks prompt tool_id h (before ++ env :: later) w) =
    fetched w ++ [link ++ lit "&key=" ++ key] /\
  savedProjects (ticks prompt tool_id h (before ++ env :: later) w) =
    savedProjects w ++ [(prompt, tool_id, url)] /\
  generatedContent (view (ticks prompt tool_id h (before ++ env :: later) w)) =
    Some url /\
  isLoading (view (ticks prompt tool_id h (before ++ env :: later) w)) = false /\
  error (view (ticks prompt tool_id h (before ++ env :: later) w)) = error (view w) /\
  ~ In h (activeIntervals (ticks prompt tool_id h (before ++ env :: later) w)).
Proof.
  intros Href Harmed Hbefore Hdel.
  destruct (@ticks_keep_polling h before w Harmed Hbefore)
    as [v [Hrun [Hr [_ [He _]]]]].
  unfold ticks in *. rewrite fold_left_app, Hrun. cbn [fold_left].
  rewrite (@tick_delivers h env _ link key url);
    [| cbn; congruence | exact Harmed | exact Hdel ].
  set (w' := {| view := _ |}).
  assert (Hcleared : ~ In h (activeIntervals w'))
    by (subst w'; cbn; apply cleared_not_In).
  pose proof (@ticks_cleared prompt tool_id h later w' Hcleared) as Hlater.
  unfold ticks in Hlater. rewrite Hlater. subst w'. cbn.
  split; [lia|]. repeat split; try assumption.
Qed.

(** X7. Once a status check reports the job done, the timer is cleared in
    that same period, whatever comes with it (a link or none, a key or
    none, a download that succeeds or fails): no later period runs. *)
Theorem tick_done_stops_polling
  (h : positive) (w : PollWorld) (env : TickEnv) (op : VideoOperation) :
  pollingIntervalRef (view w) = Some h ->
  In h (activeIntervals w) ->
  status_check env = Resolved op ->
  done op = true ->
  ~ In h (activeIntervals (tick prompt tool_id h env w)) /\
  pollingIntervalRef (view (tick prompt tool_id h env w)) = None /\
  statusChecks (tick prompt tool_id h env w) = Datatypes.S (statusChecks w) /\
  forall envs,
    ticks prompt tool_id h envs (tick prompt tool_id h env w) =
    tick prompt tool_id h env w.
Proof.
  intros Href Harmed Hop Hdone.
  assert (Hshape :
    activeIntervals (tick prompt tool_id h env w) =
      filter (fun h' => negb (Pos.eqb h' h)) (activeIntervals w) /\
    pollingIntervalRef (view (tick prompt tool_id h env w)) = None /\
    statusChecks (tick prompt tool_id h env w) = Datatypes.S (statusChecks w)).
  { unfold tick. apply armed_existsb in Harmed. rewrite Harmed.
    unfold pollCallback, try_catch, bind, checkVideoGenerationStatus.
    cbn. rewrite Hop. cbn. rewrite Hdone.
    unfold cleanupPolling, bind, gets. cbn. rewrite Href. cbn.
    destruct (truthy (video_uri op)) as [link|]; cbn.
    - destruct (truthy (API_KEY env)) as [key|]; cbn.
      + unfold fetchVideo. cbn.
        match goal with
        | |- context [fetch_video env ?u] =>
            destruct (fetch_video env u) as [url|[message|v]]
        end; cbn; try (destruct (includes _ _); cbn); repeat split.
      + repeat split.
    - repeat split. }
  destruct Hshape as [Ha [Hr Hs]].
  assert (Hcleared : ~ In h (activeIntervals (tick prompt tool_id h env w)))
    by (rewrite Ha; apply cleared_not_In).
  split; [exact Hcleared|]. split; [exact Hr|]. split; [exact Hs|].
  intros envs. apply ticks_cleared. exact Hcleared.
Qed.

(** With one job at most, every period keeps it so: the ref and the armed
    timers stay in step whatever the status check, the download and the
    key do. *)
Lemma tick_single_job (h : positive) (env : TickEnv) (w : PollWorld) :
  single_job w -> single_job (tick prompt tool_id h env w).
Proof.
  intros Hw. unfold tick.
  destruct (existsb (Pos.eqb h) (activeIntervals w)) eqn:Harmed; [|exact Hw].
  destruct Hw as [[h0 [Href Hact]]|[Href Hact]].
  2:{ rewrite Hact in Harmed. discriminate. }
  unfold pollCallback, try_catch, bind, checkVideoGenerationStatus. cbn.
  destruct (status_check env) as [op|e]; cbn.
  - destruct (done op); cbn.
    + right. unfold cleanupPolling, bind, gets. cbn. rewrite Href. cbn.
      rewrite Hact, clear_only.
      destruct (truthy (video_uri op)) as [link|]; cbn.
      * destruct (truthy (API_KEY env)) as [key|]; cbn.
        -- unfold fetchVideo. cbn.
           match goal with
           | |- context [fetch_video env ?u] =>
               destruct (fetch_video env u) as [url|[message|v]]
           end; cbn; try (destruct (includes _ _); cbn); split; reflexivity.
        -- split; reflexivity.
      * split; reflexivity.
    + left. exists h0. split; assumption.
  - destruct e as [message|v]; cbn.
    + match goal with
      | |- context [includes message ?sig] => destruct (includes message sig)
      end; cbn.
      * right. unfold cleanupPolling, bind, gets. cbn. rewrite Href. cbn.
        rewrite Hact, clear_only. split; reflexivity.
      * left. exists h0. split; assumption.
    + left. exists h0. split; assumption.
Qed.

Lemma ticks_single_job (h : positive) (envs : list TickEnv) (w : PollWorld) :
  single_job w -> single_job (ticks prompt tool_id h envs w).
Proof.
  revert w. induction envs as [|env envs IH]; intros w Hw; [exact Hw|].
  unfold ticks in *. cbn [fold_left]. apply IH. apply tick_single_job. exact Hw.
Qed.

(** Submitting a job when nothing is armed: if the prompt is empty or the
    start call rejects, nothing is armed afterwards; otherwise exactly
    the fresh timer is armed and the ref holds it. *)
Lemma submit_single_job (start : Outcome VideoOperation) (w : PollWorld) :
  single_job w ->
  activeIntervals w = [] ->
  single_job (snd (handleVideoGenerationSubmit prompt start w)).
Proof.
  intros Hw Hnone. unfold handleVideoGenerationSubmit.
  destruct prompt as [|c p]; cbn [falsy].
  - destruct Hw as [[h [_ Hact]]|[Href _]]; [congruence|].
    right. cbn. split; assumption.
  - unfold bind, set_view, modify, try_catch, await, setInterval. cbn.
    destruct start as [op|e]; cbn.
    + left. exists (nextHandle w). rewrite Hnone. split; reflexivity.
    + destruct Hw as [[h [_ Hact]]|[Href _]]; [congruence|].
      right. destruct e as [message|v]; cbn.
      * match goal with
        | |- context [includes message ?sig] => destruct (includes message sig)
        end; cbn; split; assumption.
      * split; assumption.
Qed.

(** X8. Leaving the view ([cleanupPolling] is the effect's cleanup): after a
    job was submitted with nothing armed and any number of periods have
    passed, in whatever way, the cleanup leaves no timer armed and the ref
    empty, so that no period runs afterwards. *)
Theorem cleanup_after_job_leaves_no_timer
  (start : Outcome VideoOperation) (w : PollWorld)
  (h : positive) (envs later : list TickEnv) :
  pollingIntervalRef (view w) = None ->
  activeIntervals w = [] ->
  activeIntervals
    (snd (cleanupPolling
            (ticks prompt tool_id h envs
               (snd (handleVideoGenerationSubmit prompt start w))))) = [] /\
  pollingIntervalRef
    (view (snd (cleanupPolling
                  (ticks prompt tool_id h envs
                     (snd (handleVideoGenerationSubmit prompt start w)))))) = None /\
  ticks prompt tool_id h later
    (snd (cleanupPolling
            (ticks prompt tool_id h envs
               (snd (handleVideoGenerationSubmit prompt start w))))) =
  snd (cleanupPolling
         (ticks prompt tool_id h envs
            (snd (handleVideoGenerationSubmit prompt start w)))).
Proof.
  intros Href Hnone.
  assert (Hjob : single_job
            (ticks prompt tool_id h envs
               (snd (handleVideoGenerationSubmit prompt start w)))).
  { apply ticks_single_job. apply submit_single_job; [|exact Hnone].
    right. split; assumption. }
  set (w1 := ticks prompt tool_id h envs _) in *.
  assert (Hclean :
    activeIntervals (snd (cleanupPolling w1)) = [] /\
    pollingIntervalRef (view (snd (cleanupPolling w1))) = None).
  { unfold cleanupPolling, bind, gets. cbn.
    destruct Hjob as [[h1 [Hr Ha]]|[Hr Ha]]; rewrite Hr; cbn.
    - rewrite Ha, clear_only. split; reflexivity.
    - split; assumption. }
  destruct Hclean as [Ha Hr]. split; [exact Ha|]. split; [exact Hr|].
  apply ticks_cleared. rewrite Ha. intros [].
Qed.

(** X9. When the start of the job rejects, polling never begins: the armed
    timers and the ref are as before, so a timer that was not armed never
    runs.  Loading ends and the message of the error is shown (or "Failed
    to start video generation." for a thrown value that is no [Error]);
    the key has to be selected again exactly when the error carries the
    credential signature. *)
Theorem submit_start_failure
  (e : Thrown) (w : PollWorld) :
  prompt <> [] ->
  fst (handleVideoGenerationSubmit prompt (Rejected e) w) = Resolved tt /\
  activeIntervals (snd (handleVideoGenerationSubmit prompt (Rejected e) w))
    = activeIntervals w /\
  pollingIntervalRef (view (snd (handleVideoGenerationSubmit prompt (Rejected e) w)))
    = pollingIntervalRef (view w) /\
  isLoading (view (snd (handleVideoGenerationSubmit prompt (Rejected e) w))) = false /\
  error (view (snd (handleVideoGenerationSubmit prompt (Rejected e) w))) =
    Some match e with
         | ErrorObj message => message
         | NonError _ => lit "Failed to start video generation."
         end /\
  hasApiKey (view (snd (handleVideoGenerationSubmit prompt (Rejected e) w))) =
    (if credential_error e then false else hasApiKey (view w)) /\
  forall h envs,
    ~ In h (activeIntervals w) ->
    ticks prompt tool_id h envs
      (snd (handleVideoGenerationSubmit prompt (Rejected e) w)) =
    snd (handleVideoGenerationSubmit prompt (Rejected e) w).
Proof.
  intros Hne. unfold handleVideoGenerationSubmit.
  destruct prompt as [|c p] eqn:Hp; [congruence|]. cbn [falsy].
  unfold bind, set_view, modify, try_catch, await.
  assert (Hnever : forall w' : PollWorld,
            activeIntervals w' = activeIntervals w ->
            forall h envs,
              ~ In h (activeIntervals w) -> ticks (c :: p) tool_id h envs w' = w').
  { intros w' Hsame h envs Hout.
    apply ticks_cleared. rewrite Hsame. exact Hout. }
  destruct e as [message|v]; cbn [credential_error].
  - destruct (includes message credential_signature) eqn:Hc; cbn;
      (repeat (split; [reflexivity|])); apply Hnever; reflexivity.
  - cbn. (repeat (split; [reflexivity|])); apply Hnever; reflexivity.
Qed.

End PollerRuns.

(** The started job of the sample, reported done without a video. *)
Lemma tick_done_stops_polling_witness :
  ~ In 1%positive
       (activeIntervals (tick a_prompt video_tool 1 done_without_link polling_view)) /\
  pollingIntervalRef (view (tick a_prompt video_tool 1 done_without_link polling_view))
    = None /\
  statusChecks (tick a_prompt video_tool 1 done_without_link polling_view)
    = Datatypes.S (statusChecks polling_view) /\
  forall envs,
    ticks a_prompt video_tool 1 envs
      (tick a_prompt video_tool 1 done_without_link polling_view) =
    tick a_prompt video_tool 1 done_without_link polling_view.
Proof.
  apply (@tick_done_stops_polling a_prompt video_tool 1%positive polling_view
           done_without_link {| done := true; video_uri := None |}).
  - reflexivity.
  - left. reflexivity.
  - reflexivity.
  - reflexivity.
Defined.

(** Leaving the sample view while the job is still rendering. *)
Lemma cleanup_after_job_leaves_no_timer_witness :
  activeIntervals
    (snd (cleanupPolling
            (ticks a_prompt video_tool 1 [still_rendering]
               (snd (handleVideoGenerationSubmit a_prompt (Resolved an_operation)
                       idle_view))))) = [] /\
  pollingIntervalRef
    (view (snd (cleanupPolling
                  (ticks a_prompt video_tool 1 [still_rendering]
                     (snd (handleVideoGenerationSubmit a_prompt (Resolved an_operation)
                             idle_view)))))) = None /\
  ticks a_prompt video_tool 1 [video_ready]
    (snd (cleanupPolling
            (ticks a_prompt video_tool 1 [still_rendering]
               (snd (handleVideoGenerationSubmit a_prompt (Resolved an_operation)
                       idle_view))))) =
  snd (cleanupPolling
         (ticks a_prompt video_tool 1 [still_rendering]
            (snd (handleVideoGenerationSubmit a_prompt (Resolved an_operation)
                    idle_view)))).
Proof.
  apply (@cleanup_after_job_leaves_no_timer a_prompt video_tool
           (Resolved an_operation) idle_view 1%positive
           [still_rendering] [video_ready]); reflexivity.
Defined.

(** Starting the sample job with an expired key. *)
Lemma submit_start_failure_witness :
  isLoading (view (snd (handleVideoGenerationSubmit a_prompt
                          (Rejected (ErrorObj (lit "Requested entity was not found.")))
                          idle_view))) = false /\
  hasApiKey (view (snd (handleVideoGenerationSubmit a_prompt
                          (Rejected (ErrorObj (lit "Requested entity was not found.")))
                          idle_view))) = false /\
  activeIntervals (snd (handleVideoGenerationSubmit a_prompt
                          (Rejected (ErrorObj (lit "Requested entity was not found.")))
                          idle_view)) = [].
Proof.
  destruct (@submit_start_failure a_prompt video_tool
              (ErrorObj (lit "Requested entity was not found.")) idle_view)
    as [_ [Ha [_ [Hl [_ [Hk _]]]]]].
  - discriminate.
  - split; [exact Hl|]. split; [exact Hk | exact Ha].
Defined.

(* ================================================================= *)
(** * The poller when runs overlap, and when they do not *)

Section Overlap.

Import Interleaved.

Variable prompt : jsstring.
Variable tool_id : jsstring.

Lemma set_stage_last (l : list Stage) (s s' : Stage) :
  set_stage (List.length l) s' (l ++ [s]) = l ++ [s'].
Proof. induction l as [|x l IH]; [reflexivity|]. cbn. rewrite IH. reflexivity. Qed.

Lemma nth_error_last (l : list Stage) (s : Stage) :
  nth_error (l ++ [s]) (List.length l) = Some s.
Proof. induction l as [|x l IH]; [reflexivity | exact IH]. Qed.

Lemma step_status_last (w : PollWorld) (fl : list Stage) o key :
  step prompt tool_id {| world := w; flights := fl ++ [AwaitsStatus] |}
       (StatusSettles (List.length fl) o key) =
  {| world := snd (afterStatus o key w);
     flights := fl ++ [stage_of (afterStatus o key w)] |}.
Proof.
  unfold step. cbn [world flights]. rewrite nth_error_last, set_stage_last.
  reflexivity.
Qed.

Lemma step_download_last (w : PollWorld) (fl : list Stage) url answer :
  step prompt tool_id {| world := w; flights := fl ++ [AwaitsDownload url] |}
       (DownloadSettles (List.length fl) answer) =
  {| world := snd (afterDownload prompt tool_id (answer url) w);
     flights := fl ++ [stage_of (afterDownload prompt tool_id (answer url) w)] |}.
Proof.
  unfold step. cbn [world flights]. rewrite nth_error_last, set_stage_last.
  reflexivity.
Qed.

Lemma step_download_finished (w : PollWorld) (fl : list Stage) answer :
  step prompt tool_id {| world := w; flights := fl ++ [Finished] |}
       (DownloadSettles (List.length fl) answer) =
  {| world := w; flights := fl ++ [Finished] |}.
Proof.
  unfold step. cbn [world flights]. rewrite nth_error_last. reflexivity.
Qed.

Local Arguments includes : simpl never.

Ltac handle_error e :=
  unfold onPollError, cleanupPolling, bind, gets, clearInterval, set_view,
    modify, ret;
  destruct e as [message|v];
  [ destruct (includes message credential_signature) |];
  cbn [fst snd view activeIntervals nextHandle statusChecks fetched savedProjects
       pollingIntervalRef setLoadingMessage setError setHasApiKey setIsLoading
       setRef stage_of];
  try match goal with
      | |- context [match ?r with Some _ => _ | None => _ end] => destruct r
      end;
  cbn [fst snd stage_of];
  rewrite ?step_download_finished; reflexivity.

(** One period whose run settles before anything else happens is one
    [tick]. *)
Lemma settled_period_is_tick (h : positive) (env : TickEnv) (w : PollWorld)
  (fl : list Stage) :
  In h (activeIntervals w) ->
  run prompt tool_id (settled_period h (List.length fl) env)
      {| world := w; flights := fl |} =
  {| world := tick prompt tool_id h env w; flights := fl ++ [Finished] |}.
Proof.
  intros Harmed. apply armed_existsb in Harmed.
  unfold run, settled_period, tick. cbn [fold_left].
  unfold step at 3. cbn [world flights]. rewrite Harmed.
  replace (stage_of (start w)) with AwaitsStatus by reflexivity.
  rewrite step_status_last.
  unfold pollCallback, checkVideoGenerationStatus, afterStatus, start.
  unfold try_catch, bind, await, set_view, modify, ret, throw.
  cbn [fst snd view activeIntervals nextHandle statusChecks fetched savedProjects].
  destruct (status_check env) as [op|e].
  - destruct (done op).
    + unfold cleanupPolling, bind, gets, clearInterval, set_view, modify, ret.
      cbn [fst snd view activeIntervals nextHandle statusChecks fetched
           savedProjects pollingIntervalRef setLoadingMessage].
      destruct (pollingIntervalRef (view w)) as [h0|];
        cbn [fst snd view activeIntervals nextHandle statusChecks fetched
             savedProjects];
        (destruct (truthy (video_uri op)) as [link|];
         [destruct (truthy (API_KEY env)) as [key|]|]);
        cbn [fst snd stage_of].
      all: try (rewrite step_download_last;
                unfold afterDownload, fetchVideo, try_catch, bind, await;
                cbn [fst snd];
                destruct (fetch_video env (link ++ lit "&key=" ++ key)) as [url|err];
                [ reflexivity | handle_error err ]).
      all: handle_error (ErrorObj (lit "Video generation finished, but no download link was found.")).
    + cbn [fst snd stage_of]. rewrite step_download_finished. reflexivity.
  - handle_error e.
Qed.

Lemma run_app (a b : list Event) (f : Flights) :
  run prompt tool_id (a ++ b) f = run prompt tool_id b (run prompt tool_id a f).
Proof. unfold run. apply fold_left_app. Qed.

(** Once the timer is cleared, a schedule without overlap does nothing. *)
Lemma sequential_cleared (h : positive) (envs : list TickEnv) (w : PollWorld)
  (fl : list Stage) (i : nat) :
  ~ In h (activeIntervals w) ->
  List.length fl <= i ->
  run prompt tool_id (sequential h i envs) {| world := w; flights := fl |} =
  {| world := w; flights := fl |}.
Proof.
  intros Hout. revert i. induction envs as [|env envs IH]; intros i Hi; [reflexivity|].
  cbn [sequential]. rewrite run_app.
  assert (Hperiod :
    run prompt tool_id (settled_period h i env) {| world := w; flights := fl |} =
    {| world := w; flights := fl |}).
  { unfold run, settled_period. cbn [fold_left].
    unfold step at 3. cbn [world flights].
    destruct (existsb (Pos.eqb h) (activeIntervals w)) eqn:E.
    - apply armed_existsb in E. elim (Hout E).
    - assert (Hnone : nth_error fl i = None) by (apply nth_error_None; exact Hi).
      unfold step. cbn [world flights]. rewrite Hnone.
      cbn [world flights]. rewrite Hnone. reflexivity. }
  rewrite Hperiod. apply IH. lia.
Qed.

(** A schedule without overlap is a sequence of [tick]s. *)
Lemma sequential_is_ticks (h : positive) (envs : list TickEnv) (w : PollWorld)
  (fl : list Stage) :
  world (run prompt tool_id (sequential h (List.length fl) envs)
           {| world := w; flights := fl |}) =
  ticks prompt tool_id h envs w.
Proof.
  revert w fl. induction envs as [|env envs IH]; intros w fl; [reflexivity|].
  destruct (existsb (Pos.eqb h) (activeIntervals w)) eqn:E.
  - apply armed_existsb in E.
    cbn [sequential]. rewrite run_app, (@settled_period_is_tick h env w fl E).
    replace (Datatypes.S (List.length fl)) with (List.length (fl ++ [Finished]))
      by (rewrite length_app; cbn; lia).
    rewrite IH. reflexivity.
  - assert (Hout : ~ In h (activeIntervals w)).
    { intros Hin. apply armed_existsb in Hin. congruence. }
    rewrite (@sequential_cleared h (env :: envs) w fl (List.length fl) Hout (le_n _)).
    cbn [world]. symmetry. apply ticks_cleared. exact Hout.
Qed.

(** A period of an armed timer starts a run. *)
Lemma step_period_armed (h : positive) (w : PollWorld) (fl : list Stage) :
  existsb (Pos.eqb h) (activeIntervals w) = true ->
  step prompt tool_id {| world := w; flights := fl |} (Period h) =
  {| world := checking w; flights := fl ++ [AwaitsStatus] |}.
Proof. intros Harmed. unfold step. cbn [world flights]. rewrite Harmed. reflexivity. Qed.

(** [cleanupPolling] clears the timer the ref holds, and arms none. *)
Lemma cleanupPolling_clears (h : positive) (w : PollWorld) :
  pollingIntervalRef (view w) = Some h ->
  ~ In h (activeIntervals (snd (cleanupPolling w))).
Proof.
  intros Href. unfold cleanupPolling, bind, gets. cbn. rewrite Href. cbn.
  apply cleared_not_In.
Qed.

Lemma cleanupPolling_keeps_cleared (h : positive) (w : PollWorld) :
  In h (activeIntervals (snd (cleanupPolling w))) -> In h (activeIntervals w).
Proof.
  unfold cleanupPolling, bind, gets. cbn.
  destruct (pollingIntervalRef (view w)) as [h0|]; cbn; [|tauto].
  rewrite filter_In. tauto.
Qed.

(** The status check of a run settles with the job done and a video: the
    timer is cleared and the download is under way. *)
Lemma afterStatus_delivers (env : TickEnv) (link key url : jsstring) (w : PollWorld) :
  delivers env link key url ->
  exists w',
    afterStatus (status_check env) (API_KEY env) w =
      (Resolved (AwaitsDownload (link ++ lit "&key=" ++ key)), w') /\
    statusChecks w' = statusChecks w /\
    fetched w' = fetched w ++ [link ++ lit "&key=" ++ key] /\
    savedProjects w' = savedProjects w /\
    activeIntervals w' = activeIntervals (snd (cleanupPolling w)) /\
    pollingIntervalRef (view w') = None /\
    generatedContent (view w') = generatedContent (view w).
Proof.
  intros [op [Hop [Hdone [Huri [Hlink [Hkey [Hk _]]]]]]].
  destruct link as [|c link]; [congruence|].
  destruct key as [|k key]; [congruence|].
  unfold afterStatus, try_catch, bind, await. rewrite Hop. cbn [fst snd].
  rewrite Hdone, Huri, Hkey. cbn [truthy].
  unfold cleanupPolling, bind, gets, clearInterval, set_view, modify, ret.
  cbn [fst snd].
  destruct (pollingIntervalRef (view w)) as [h0|] eqn:E; cbn [fst snd];
    eexists; (split; [reflexivity|]); cbn; repeat split;
    first [ reflexivity | exact E ].
Qed.

Lemma afterDownload_resolved (url : jsstring) (w : PollWorld) :
  afterDownload prompt tool_id (Resolved url) w =
  (Resolved Finished, delivered prompt tool_id url w).
Proof. reflexivity. Qed.

End Overlap.

Section OverlapRuns.

Import Interleaved.

Variable prompt : jsstring.
Variable tool_id : jsstring.

(** X6. Polling from the start of a job to the delivery, when every run of
    the callback settles before the next period: after any number of
    periods in which the job is not done or the status check fails
    transiently, the period that reports the job done with a video makes
    exactly one download, of the link with the key appended; the video is
    shown, saved once as a project under the prompt, and loading ends.  No
    later period checks the status or downloads again. *)
Theorem poll_until_delivery
  (h : positive) (w : PollWorld) (before later : list TickEnv) (env : TickEnv)
  (link key url : jsstring) :
  pollingIntervalRef (view w) = Some h ->
  In h (activeIntervals w) ->
  Forall keeps_polling before ->
  delivers env link key url ->
  statusChecks
    (world (run prompt tool_id (sequential h 0 (before ++ env :: later)) (at_rest w))) =
    statusChecks w + List.length before + 1 /\
  fetched
    (world (run prompt tool_id (sequential h 0 (before ++ env :: later)) (at_rest w))) =
    fetched w ++ [link ++ lit "&key=" ++ key] /\
  savedProjects
    (world (run prompt tool_id (sequential h 0 (before ++ env :: later)) (at_rest w))) =
    savedProjects w ++ [(prompt, tool_id, url)] /\
  generatedContent
    (view (world (run prompt tool_id (sequential h 0 (before ++ env :: later))
                    (at_rest w)))) = Some url /\
  isLoading
    (view (world (run prompt tool_id (sequential h 0 (before ++ env :: later))
                    (at_rest w)))) = false /\
  error
    (view (world (run prompt tool_id (sequential h 0 (before ++ env :: later))
                    (at_rest w)))) = error (view w) /\
  ~ In h (activeIntervals
            (world (run prompt tool_id (sequential h 0 (before ++ env :: later))
                      (at_rest w)))).
Proof.
  intros Href Harmed Hbefore Hdel.
  unfold at_rest.
  pose proof (@sequential_is_ticks prompt tool_id h (before ++ env :: later) w [])
    as Hticks.
  cbn [List.length] in Hticks. rewrite Hticks.
  exact (@ticks_until_delivery prompt tool_id h w before later env link key url
           Href Harmed Hbefore Hdel).
Qed.

(** X23. Two runs that overlap: the second period fires before the status
    check of the first run has settled, and both status checks report the
    job done with a video.  The first run clears the timer; the second is
    under way already and goes on.  The video is downloaded twice and saved
    as two projects; what is shown is the download of the second run. *)
Theorem overlapping_runs_deliver_twice
  (h : positive) (w : PollWorld) (first second : TickEnv)
  (link1 key1 url1 link2 key2 url2 : jsstring) :
  pollingIntervalRef (view w) = Some h ->
  In h (activeIntervals w) ->
  delivers first link1 key1 url1 ->
  delivers second link2 key2 url2 ->
  statusChecks (world (run prompt tool_id (overlapping h first second) (at_rest w))) =
    statusChecks w + 2 /\
  fetched (world (run prompt tool_id (overlapping h first second) (at_rest w))) =
    fetched w ++ [link1 ++ lit "&key=" ++ key1; link2 ++ lit "&key=" ++ key2] /\
  savedProjects (world (run prompt tool_id (overlapping h first second) (at_rest w))) =
    savedProjects w ++ [(prompt, tool_id, url1); (prompt, tool_id, url2)] /\
  generatedContent
    (view (world (run prompt tool_id (overlapping h first second) (at_rest w)))) =
    Some url2 /\
  isLoading
    (view (world (run prompt tool_id (overlapping h first second) (at_rest w)))) =
    false /\
  ~ In h (activeIntervals
            (world (run prompt tool_id (overlapping h first second) (at_rest w)))) /\
  flights (run prompt tool_id (overlapping h first second) (at_rest w)) =
    [Finished; Finished].
Proof.
  intros Href Harmed Hfirst Hsecond.
  apply armed_existsb in Harmed.
  assert (Hrun : exists w',
    run prompt tool_id (overlapping h first second) (at_rest w) =
      {| world := w'; flights := [Finished; Finished] |} /\
    statusChecks w' = statusChecks w + 2 /\
    fetched w' =
      fetched w ++ [link1 ++ lit "&key=" ++ key1; link2 ++ lit "&key=" ++ key2] /\
    savedProjects w' =
      savedProjects w ++ [(prompt, tool_id, url1); (prompt, tool_id, url2)] /\
    generatedContent (view w') = Some url2 /\
    isLoading (view w') = false /\
    ~ In h (activeIntervals w')).
  { unfold run, overlapping, at_rest. cbn [fold_left].
    rewrite (@step_period_armed prompt tool_id h w [] Harmed). cbn [app].
    assert (Harmed1 : existsb (Pos.eqb h) (activeIntervals (checking w)) = true)
      by exact Harmed.
    rewrite (@step_period_armed prompt tool_id h (checking w) [AwaitsStatus] Harmed1).
    cbn [app].
    set (w2 := checking (checking w)).
    destruct (@afterStatus_delivers first link1 key1 url1 w2 Hfirst)
      as [w3 [H3 [Hc3 [Hf3 [Hs3 [Ha3 [Hr3 _]]]]]]].
    destruct (@afterStatus_delivers second link2 key2 url2 w3 Hsecond)
      as [w4 [H4 [Hc4 [Hf4 [Hs4 [Ha4 [Hr4 _]]]]]]].
    destruct Hfirst as [op1 [_ [_ [_ [_ [_ [_ Hfetch1]]]]]]].
    destruct Hsecond as [op2 [_ [_ [_ [_ [_ [_ Hfetch2]]]]]]].
    unfold step at 4. cbn [world flights nth_error]. rewrite H3.
    cbn [fst snd stage_of set_stage].
    unfold step at 3. cbn [world flights nth_error]. rewrite H4.
    cbn [fst snd stage_of set_stage].
    unfold step at 2. cbn [world flights nth_error]. rewrite Hfetch1.
    rewrite afterDownload_resolved. cbn [fst snd stage_of set_stage].
    unfold step. cbn [world flights nth_error]. rewrite Hfetch2.
    rewrite afterDownload_resolved. cbn [fst snd stage_of set_stage].
    eexists. split; [reflexivity|].
    cbn [delivered statusChecks fetched savedProjects view activeIntervals
         generatedContent isLoading setIsLoading setGeneratedContent].
    rewrite Hc4, Hc3, Hf4, Hf3, Hs4, Hs3, Ha4.
    subst w2. cbn [checking statusChecks fetched savedProjects].
    repeat split.
    - lia.
    - rewrite <- app_assoc. reflexivity.
    - rewrite <- app_assoc. reflexivity.
    - intros Hin. apply cleanupPolling_keeps_cleared in Hin.
      rewrite Ha3 in Hin. revert Hin. apply cleanupPolling_clears.
      cbn [checking view pollingIntervalRef setLoadingMessage]. exact Href. }
  destruct Hrun as [w' [Hrun Hfacts]]. rewrite Hrun. cbn [world flights].
  destruct Hfacts as [H1 [H2 [H3 [H4 [H5 H6]]]]].
  repeat split; assumption.
Qed.

End OverlapRuns.

Section OverlapSamples.

Import Interleaved.

(** The started job of the sample: the network is down once, the job is
    still rendering once, then the video is ready; a later period finds
    nothing to do. *)
Lemma poll_until_delivery_witness :
  statusChecks
    (world (run a_prompt video_tool
              (sequential 1 0 ([network_down; still_rendering] ++ video_ready :: [video_ready]))
              (at_rest polling_view))) = statusChecks polling_view + 2 + 1 /\
  fetched
    (world (run a_prompt video_tool
              (sequential 1 0 ([network_down; still_rendering] ++ video_ready :: [video_ready]))
              (at_rest polling_view))) =
    fetched polling_view ++
    [lit "https://video.example/v1?alt=media" ++ lit "&key=" ++ lit "key"] /\
  savedProjects
    (world (run a_prompt video_tool
              (sequential 1 0 ([network_down; still_rendering] ++ video_ready :: [video_ready]))
              (at_rest polling_view))) =
    savedProjects polling_view ++ [(a_prompt, video_tool, lit "blob:video")] /\
  generatedContent
    (view (world (run a_prompt video_tool
                    (sequential 1 0
                       ([network_down; still_rendering] ++ video_ready :: [video_ready]))
                    (at_rest polling_view)))) = Some (lit "blob:video") /\
  isLoading
    (view (world (run a_prompt video_tool
                    (sequential 1 0
                       ([network_down; still_rendering] ++ video_ready :: [video_ready]))
                    (at_rest polling_view)))) = false /\
  error
    (view (world (run a_prompt video_tool
                    (sequential 1 0
                       ([network_down; still_rendering] ++ video_ready :: [video_ready]))
                    (at_rest polling_view)))) = error (view polling_view) /\
  ~ In 1%positive
       (activeIntervals
          (world (run a_prompt video_tool
                    (sequential 1 0
                       ([network_down; still_rendering] ++ video_ready :: [video_ready]))
                    (at_rest polling_view)))).
Proof.
  apply (@poll_until_delivery a_prompt video_tool 1%positive polling_view
           [network_down; still_rendering] [video_ready] video_ready
           (lit "https://video.example/v1?alt=media") (lit "key") (lit "blob:video")).
  - reflexivity.
  - left. reflexivity.
  - constructor.
    + right. eexists. split; reflexivity.
    + constructor; [|constructor].
      left. eexists. split; reflexivity.
  - eexists. repeat split; try reflexivity; discriminate.
Defined.

(** The started job of the sample, with two periods before the first
    status check settles: two downloads and two saved projects. *)
Lemma overlapping_runs_deliver_twice_witness :
  statusChecks
    (world (run a_prompt video_tool (overlapping 1 video_ready video_ready)
              (at_rest polling_view))) = statusChecks polling_view + 2 /\
  savedProjects
    (world (run a_prompt video_tool (overlapping 1 video_ready video_ready)
              (at_rest polling_view))) =
    savedProjects polling_view ++
    [ (a_prompt, video_tool, lit "blob:video");
      (a_prompt, video_tool, lit "blob:video") ].
Proof.
  destruct (@overlapping_runs_deliver_twice a_prompt video_tool 1%positive
              polling_view video_ready video_ready
              (lit "https://video.example/v1?alt=media") (lit "key") (lit "blob:video")
              (lit "https://video.example/v1?alt=media") (lit "key") (lit "blob:video"))
    as [Hchecks [_ [Hsaved _]]].
  - reflexivity.
  - left. reflexivity.
  - eexists. repeat split; try reflexivity; discriminate.
  - eexists. repeat split; try reflexivity; discriminate.
  - split; [exact Hchecks | exact Hsaved].
Defined.

End OverlapSamples.

Section AnySchedule.

Import Interleaved.

Variable prompt : jsstring.
Variable tool_id : jsstring.

Local Arguments includes : simpl never.

(** The [catch] block keeps the ref and the armed timers in step. *)
Lemma onPollError_single_job (e : Thrown) (w : PollWorld) :
  single_job w -> single_job (snd (onPollError e w)).
Proof.
  intros Hw. unfold onPollError.
  destruct e as [message|v]; [destruct (includes message credential_signature)|].
  - unfold bind, set_view, modify, cleanupPolling, gets, clearInterval. cbn.
    destruct Hw as [[h [Href Hact]]|[Href Hact]]; rewrite Href; cbn.
    + right. rewrite Hact, clear_only. split; reflexivity.
    + right. split; [exact Href | exact Hact].
  - destruct Hw as [[h [Href Hact]]|[Href Hact]]; [left; exists h|right];
      split; assumption.
  - destruct Hw as [[h [Href Hact]]|[Href Hact]]; [left; exists h|right];
      split; assumption.
Qed.

Lemma handler_single_job (e : Thrown) (w : PollWorld) :
  single_job w ->
  single_job (snd ((onPollError e ;;; ret Finished) w)).
Proof.
  intros Hw. pose proof (@onPollError_single_job e w Hw) as He.
  unfold bind. destruct (onPollError e w) as [[u|err] w1]; exact He.
Qed.

Lemma cleanupPolling_single_job (w : PollWorld) :
  single_job w ->
  pollingIntervalRef (view (snd (cleanupPolling w))) = None /\
  activeIntervals (snd (cleanupPolling w)) = [].
Proof.
  intros Hw. unfold cleanupPolling, bind, gets, clearInterval, set_view, modify. cbn.
  destruct Hw as [[h [Href Hact]]|[Href Hact]]; rewrite Href; cbn.
  - rewrite Hact, clear_only. split; reflexivity.
  - split; assumption.
Qed.

(** Every event keeps them in step. *)
Lemma step_single_job (f : Flights) (ev : Event) :
  single_job (world f) -> single_job (world (step prompt tool_id f ev)).
Proof.
  intros Hw. destruct ev as [h|i o key|i answer]; unfold step.
  - destruct (existsb (Pos.eqb h) (activeIntervals (world f))); [|exact Hw].
    cbn [world]. unfold start, bind, set_view, modify, ret. cbn.
    destruct Hw as [[h0 [Href Hact]]|[Href Hact]]; [left; exists h0|right];
      split; assumption.
  - destruct (nth_error (flights f) i) as [[| |url]|]; try exact Hw.
    cbn [world]. unfold afterStatus, try_catch, bind, await.
    destruct o as [op|e]; cbn [fst snd].
    + destruct (done op).
      * destruct (cleanupPolling_single_job Hw) as [Href Hact].
        destruct (cleanupPolling (world f)) as [r w1] eqn:Hclean.
        cbn [snd] in Href, Hact.
        assert (Hr : r = Resolved tt).
        { revert Hclean. unfold cleanupPolling, bind, gets, clearInterval,
            set_view, modify, ret.
          destruct (pollingIntervalRef (view (world f))); cbn;
            intros H; inversion H; reflexivity. }
        subst r. unfold set_view, modify, ret, throw. cbn [fst snd].
        assert (Hdone : forall w2,
                  pollingIntervalRef (view w2) = None ->
                  activeIntervals w2 = [] -> single_job w2)
          by (intros w2 H1 H2; right; split; assumption).
        destruct (truthy (video_uri op)) as [link|];
          [destruct (truthy key) as [k|]|]; cbn [fst snd].
        -- apply Hdone; cbn; assumption.
        -- match goal with
           | |- context [onPollError ?e ?w0] => apply (@handler_single_job e w0)
           end. apply Hdone; cbn; assumption.
        -- match goal with
           | |- context [onPollError ?e ?w0] => apply (@handler_single_job e w0)
           end. apply Hdone; cbn; assumption.
      * unfold ret. cbn [fst snd]. exact Hw.
    + exact (@handler_single_job e (world f) Hw).
  - destruct (nth_error (flights f) i) as [[| |url]|]; try exact Hw.
    cbn [world]. unfold afterDownload, try_catch, bind, await.
    destruct (answer url) as [videoUrl|e]; cbn [fst snd].
    + unfold set_view, onSaveAsProject, modify, ret. cbn.
      destruct Hw as [[h0 [Href Hact]]|[Href Hact]]; [left; exists h0|right];
        split; assumption.
    + exact (@handler_single_job e (world f) Hw).
Qed.

(** X24. Whatever the schedule (periods that fire while earlier runs of the
    callback still await, status checks and downloads that settle in any
    order and in any way), the ref and the armed timers stay in step: the
    ref holds the one armed timer, or nothing is armed and the ref is
    empty.  So [cleanupPolling], at any moment, leaves no timer armed, and
    no period starts a run after it. *)
Theorem any_schedule_single_job
  (events : list Event) (f : Flights) (h : positive) :
  single_job (world f) ->
  single_job (world (run prompt tool_id events f)) /\
  activeIntervals (snd (cleanupPolling (world (run prompt tool_id events f)))) = [] /\
  pollingIntervalRef
    (view (snd (cleanupPolling (world (run prompt tool_id events f))))) = None /\
  step prompt tool_id
    {| world := snd (cleanupPolling (world (run prompt tool_id events f)));
       flights := flights (run prompt tool_id events f) |} (Period h) =
  {| world := snd (cleanupPolling (world (run prompt tool_id events f)));
     flights := flights (run prompt tool_id events f) |}.
Proof.
  intros Hw.
  assert (Hrun : single_job (world (run prompt tool_id events f))).
  { revert f Hw. induction events as [|ev events IH]; intros f Hw; [exact Hw|].
    unfold run in *. cbn [fold_left]. apply IH. apply step_single_job. exact Hw. }
  split; [exact Hrun|].
  destruct (cleanupPolling_single_job Hrun) as [Href Hact].
  split; [exact Hact|]. split; [exact Href|].
  unfold step. cbn [world]. rewrite Hact. reflexivity.
Qed.

End AnySchedule.

Section AnyScheduleSample.

Import Interleaved.

(** The started job of the sample under two overlapping periods. *)
Lemma any_schedule_single_job_witness :
  single_job
    (world (run a_prompt video_tool (overlapping 1 video_ready network_down)
              (at_rest polling_view))) /\
  activeIntervals
    (snd (cleanupPolling
            (world (run a_prompt video_tool (overlapping 1 video_ready network_down)
                      (at_rest polling_view))))) = [].
Proof.
  destruct (@any_schedule_single_job a_prompt video_tool
              (overlapping 1 video_ready network_down) (at_rest polling_view)
              1%positive) as [Hjob [Hact _]].
  - left. exists 1%positive. split; reflexivity.
  - split; [exact Hjob | exact Hact].
Defined.

End AnyScheduleSample.

Import JSNumber XWorkflow ApiService.

(* ================================================================= *)
(** * The X workflow *)

Section XRun.

Variable S : Type.
Variable backend : XBackend.
Variable onProgress : WorkflowProgressUpdate -> S -> S.

Lemma x_after_after us1 cs1 us2 cs2 (w : XWorld S) :
  x_after onProgress us2 cs2 (x_after onProgress us1 cs1 w) =
  x_after onProgress (us1 ++ us2) (cs1 ++ cs2) w.
Proof.
  unfold x_after; simpl. rewrite fold_left_app, <- !app_assoc. reflexivity.
Qed.

Lemma x_emit_after u (w : XWorld S) :
  x_emit onProgress u w = (Resolved tt, x_after onProgress [u] [] w).
Proof.
  unfold x_emit, modify, x_after. simpl. rewrite app_nil_r. reflexivity.
Qed.

Lemma x_call_after A c (o : Outcome A) (w : XWorld S) :
  x_call c o w = (o, x_after onProgress [] [c] w).
Proof.
  unfold x_call, x_after. simpl. rewrite app_nil_r. reflexivity.
Qed.

Lemma x_runStep_rejected T (asContent : T -> StepContent) sid c e (w : XWorld S) :
  XWorkflow.runStep onProgress asContent sid (x_call c (@Rejected T e)) w =
  (Rejected e,
   x_after onProgress
     [ {| stepId := sid; update_status := running; data := None |};
       {| stepId := sid; update_status := failed; data := None |} ] [c] w).
Proof.
  unfold XWorkflow.runStep, try_catch, bind, throw.
  rewrite x_emit_after, x_call_after, x_emit_after, !x_after_after. reflexivity.
Qed.

Lemma x_runStep_resolved T (asContent : T -> StepContent) sid c (r : T)
  (w : XWorld S) :
  XWorkflow.runStep onProgress asContent sid (x_call c (Resolved r)) w =
  (Resolved r,
   x_after onProgress
     [ {| stepId := sid; update_status := running; data := None |};
       {| stepId := sid; update_status := completed;
          data := Some (asContent r) |} ] [c] w).
Proof.
  unfold XWorkflow.runStep, try_catch, bind, ret.
  rewrite x_emit_after, x_call_after, x_emit_after, !x_after_after. reflexivity.
Qed.

Ltac x_cases topic :=
  unfold runXWorkflow, generateViralXPost, generateGenericThread, generateXHashtags;
  unfold try_catch at 1; unfold bind at 1;
  destruct (backend_generateViralXPost backend topic) as [r1|e1] eqn:E1;
  [ rewrite x_runStep_resolved; unfold bind at 1;
    destruct (backend_generateGenericThread backend topic) as [r2|e2] eqn:E2;
    [ rewrite x_runStep_resolved, x_after_after; unfold bind at 1;
      destruct (backend_generateXHashtags backend topic) as [r3|e3] eqn:E3;
      [ rewrite x_runStep_resolved, x_after_after
      | rewrite x_runStep_rejected, x_after_after ]
    | rewrite x_runStep_rejected, x_after_after ]
  | rewrite x_runStep_rejected ];
  cbn [fst snd x_emitted x_calls x_after x_fresh app ret].

Ltac solve_strict_block :=
  eexists; split; [reflexivity | split; reflexivity].

Ltac solve_strict_blocks :=
  eexists (group_steps _); split;
  [ symmetry; apply concat_group_steps
  | cbn; repeat (apply Forall2_cons; [solve_strict_block|]); apply Forall2_nil ].

(** X1. Every step that the X workflow runs gets its Running update and then
    exactly one terminal update, before the next step starts; the steps
    run in the order viral_post, thread, hashtags; nothing is emitted
    after a Failed update. *)
Theorem runXWorkflow_one_terminal_per_step (topic : jsstring) (s0 : S) :
  (exists blocks,
     x_emitted (snd (runXWorkflow backend onProgress topic (x_fresh s0)))
       = List.concat blocks /\
     blocks <> [] /\
     Forall2 strict_block (firstn (List.length blocks) x_step_order) blocks) /\
  nothing_after_failed
    (x_emitted (snd (runXWorkflow backend onProgress topic (x_fresh s0)))).
Proof.
  x_cases topic.
  - split.
    + eexists (group_steps _); split; [symmetry; apply concat_group_steps|].
      cbn. split; [discriminate|].
      repeat (apply Forall2_cons; [solve_strict_block|]); apply Forall2_nil.
    + apply (@nothing_after_failed_snoc [_; _; _; _; _] _).
      repeat constructor; discriminate.
  - split.
    + eexists (group_steps _); split; [symmetry; apply concat_group_steps|].
      cbn. split; [discriminate|].
      repeat (apply Forall2_cons; [solve_strict_block|]); apply Forall2_nil.
    + apply (@nothing_after_failed_snoc [_; _; _; _; _] _).
      repeat constructor; discriminate.
  - split.
    + eexists (group_steps _); split; [symmetry; apply concat_group_steps|].
      cbn. split; [discriminate|].
      repeat (apply Forall2_cons; [solve_strict_block|]); apply Forall2_nil.
    + apply (@nothing_after_failed_snoc [_; _; _] _).
      repeat constructor; discriminate.
  - split.
    + eexists (group_steps _); split; [symmetry; apply concat_group_steps|].
      cbn. split; [discriminate|].
      repeat (apply Forall2_cons; [solve_strict_block|]); apply Forall2_nil.
    + apply (@nothing_after_failed_snoc [_] _).
      repeat constructor; discriminate.
Qed.

(** X2. The promise of [runXWorkflow] always resolves, and every call is made
    on the topic.  If a call the run made rejects, the Failed update of
    its step is the last update and the call is the last call: the steps
    after it neither start nor call. *)
Theorem runXWorkflow_failure_isolated (topic : jsstring) (s0 : S) :
  fst (runXWorkflow backend onProgress topic (x_fresh s0)) = Resolved tt /\
  Forall (fun c => x_call_topic c = topic)
    (x_calls (snd (runXWorkflow backend onProgress topic (x_fresh s0)))) /\
  forall c,
    In c (x_calls (snd (runXWorkflow backend onProgress topic (x_fresh s0)))) ->
    x_call_rejects backend c = true ->
    exists before earlier,
      x_emitted (snd (runXWorkflow backend onProgress topic (x_fresh s0))) =
        before ++ [ {| stepId := x_call_step c; update_status := failed;
                       data := None |} ] /\
      x_calls (snd (runXWorkflow backend onProgress topic (x_fresh s0))) =
        earlier ++ [c].
Proof.
  x_cases topic.
  - split; [reflexivity|]. split; [repeat constructor|].
    intros c Hin Hrej. exfalso.
    pick_call Hin; cbn [x_call_rejects] in Hrej.
    + rewrite E1 in Hrej. discriminate.
    + rewrite E2 in Hrej. discriminate.
    + rewrite E3 in Hrej. discriminate.
  - split; [reflexivity|]. split; [repeat constructor|].
    intros c Hin Hrej.
    pick_call Hin; cbn [x_call_rejects] in Hrej.
    + rewrite E1 in Hrej. discriminate.
    + rewrite E2 in Hrej. discriminate.
    + eexists [_; _; _; _; _], [_; _]. split; reflexivity.
  - split; [reflexivity|]. split; [repeat constructor|].
    intros c Hin Hrej.
    pick_call Hin; cbn [x_call_rejects] in Hrej.
    + rewrite E1 in Hrej. discriminate.
    + eexists [_; _; _], [_]. split; reflexivity.
  - split; [reflexivity|]. split; [repeat constructor|].
    intros c Hin Hrej.
    pick_call Hin; cbn [x_call_rejects] in Hrej.
    eexists [_], []. split; reflexivity.
Qed.

(** X3. When the three generation calls resolve, the X workflow makes exactly
    these three calls, in order, and hands each result to the subscriber
    in the Completed update of its step: the post as text, the thread and
    the hashtags as lists. *)
Theorem runXWorkflow_delivers_results (topic : jsstring) (s0 : S)
  (post : jsstring) (thread tags : list jsstring) :
  backend_generateViralXPost backend topic = Resolved post ->
  backend_generateGenericThread backend topic = Resolved thread ->
  backend_generateXHashtags backend topic = Resolved tags ->
  x_calls (snd (runXWorkflow backend onProgress topic (x_fresh s0))) =
    [ CallGenerateViralXPost topic; CallGenerateGenericThread topic;
      CallGenerateXHashtags topic ] /\
  x_emitted (snd (runXWorkflow backend onProgress topic (x_fresh s0))) =
    [ update "viral_post" running None;
      update "viral_post" completed (Some (ContentText post));
      update "thread" running None;
      update "thread" completed (Some (ContentList thread));
      update "hashtags" running None;
      update "hashtags" completed (Some (ContentList tags)) ].
Proof.
  intros H1 H2 H3. x_cases topic; try congruence.
  injection H1 as <-. injection H2 as <-. injection H3 as <-.
  split; reflexivity.
Qed.

End XRun.

(** The sample run of the X workflow. *)
Lemma runXWorkflow_delivers_results_witness :
  x_calls (snd (runXWorkflow x_backend (fun _ (s : unit) => s) laptop_topic (x_fresh tt))) =
    [ CallGenerateViralXPost laptop_topic; CallGenerateGenericThread laptop_topic;
      CallGenerateXHashtags laptop_topic ] /\
  x_emitted (snd (runXWorkflow x_backend (fun _ (s : unit) => s) laptop_topic (x_fresh tt))) =
    [ update "viral_post" running None;
      update "viral_post" completed (Some (ContentText (lit "Is this laptop worth it?")));
      update "thread" running None;
      update "thread" completed (Some (ContentList [lit "1/5"; lit "2/5"]));
      update "hashtags" running None;
      update "hashtags" completed (Some (ContentList [lit "#laptop"])) ].
Proof.
  apply (@runXWorkflow_delivers_results unit x_backend (fun _ s => s)
           laptop_topic tt); reflexivity.
Defined.

(* ================================================================= *)
(** * [apiRequest] *)

Section ApiFacts.

Variable J : Type.
Variable network : nat -> FetchCall -> Outcome (Response J).

Local Arguments includes : simpl never.
Local Arguments decimal : simpl never.

Ltac data_or_error :=
  eexists; split; [reflexivity|];
  first [ left; eexists; split; reflexivity
        | right; eexists; split; reflexivity ].

Lemma apiRequest_run
  (url : jsstring) (options : RequestInit) (w : ApiWorld) :
  exists r,
    apiRequest network url options w =
      (Resolved r,
       {| requests := requests w ++
            [ {| fetch_url := url; fetch_init := request_init options |} ];
          sleeps := sleeps w |}) /\
    ((exists d, api_data r = Some d /\ api_error r = None) \/
     (exists message, api_data r = None /\ api_error r = Some message)).
Proof.
  unfold apiRequest, try_catch, bind, fetch, await, ret. cbn.
  destruct (network _ _) as [resp|e]; cbn; [|data_or_error].
  destruct (ok resp); cbn.
  - destruct (resp_content_type resp) as [[|c ct]|]; cbn.
    + destruct (resp_text resp); cbn; data_or_error.
    + destruct (includes (c :: ct) _); cbn.
      * destruct (resp_json resp); cbn; data_or_error.
      * destruct (resp_text resp); cbn; data_or_error.
    + destruct (resp_text resp); cbn; data_or_error.
  - destruct (resp_text resp); cbn; data_or_error.
Qed.

(** X10. [apiRequest] never rejects: for every URL, options and network it
    resolves after exactly one call of [fetch], with a response that has
    either [data] and no [error], or an [error] and no [data]. *)
Theorem apiRequest_never_rejects
  (url : jsstring) (options : RequestInit) (w : ApiWorld) :
  exists r,
    apiRequest network url options w =
      (Resolved r,
       {| requests := requests w ++
            [ {| fetch_url := url; fetch_init := request_init options |} ];
          sleeps := sleeps w |}) /\
    ((exists d, api_data r = Some d /\ api_error r = None) \/
     (exists message, api_data r = None /\ api_error r = Some message)).
Proof. apply apiRequest_run. Qed.

(** X11. What [apiRequest] reports by the answer of the network: a failed
    [fetch] gives status 0 and the message of the error; a response that
    is not ok and whose body reads gives the status of the response and a
    non-empty error (the body, or "HTTP error! status: " and the status
    when the body is empty), which [withRetry] counts as a failure; an ok
    response whose body reads gives the status and the body, as JSON when
    the content type includes "application/json", as text otherwise. *)
Theorem apiRequest_reports
  (url : jsstring) (options : RequestInit) (w : ApiWorld) :
  match network (List.length (requests w))
          {| fetch_url := url; fetch_init := request_init options |} with
  | Rejected e =>
      fst (apiRequest network url options w) =
        Resolved {| api_data := None; api_error := Some (message_of e);
                    api_status := 0 |}
  | Resolved resp =>
      if ok resp then
        (forall v c,
           resp_content_type resp = Some c ->
           includes c (lit "application/json") = true ->
           resp_json resp = Resolved v ->
           fst (apiRequest network url options w) =
             Resolved {| api_data := Some (BodyJson v); api_error := None;
                         api_status := resp_status resp |}) /\
        (forall s,
           match resp_content_type resp with
           | Some c => includes c (lit "application/json") = false
           | None => True
           end ->
           resp_text resp = Resolved s ->
           fst (apiRequest network url options w) =
             Resolved {| api_data := Some (BodyText s); api_error := None;
                         api_status := resp_status resp |})
      else
        forall body,
          resp_text resp = Resolved body ->
          exists r,
            fst (apiRequest network url options w) = Resolved r /\
            api_status r = resp_status resp /\
            api_data r = None /\
            has_error r = true /\
            (body <> [] -> api_error r = Some body) /\
            (body = [] ->
             api_error r =
               Some (lit "HTTP error! status: " ++ decimal (resp_status resp)))
  end.
Proof.
  unfold apiRequest, try_catch, bind, fetch, await, ret. cbn.
  destruct (network _ _) as [resp|e]; cbn; [|reflexivity].
  destruct (ok resp); cbn.
  - split.
    + intros v c Hc Hin Hjson. rewrite Hc.
      destruct c as [|c0 c]; [discriminate Hin|].
      rewrite Hin. cbn. rewrite Hjson. reflexivity.
    + intros s Hc Htext.
      destruct (resp_content_type resp) as [[|c0 c]|]; cbn.
      * rewrite Htext. reflexivity.
      * rewrite Hc. cbn. rewrite Htext. reflexivity.
      * rewrite Htext. reflexivity.
  - intros body Hbody. rewrite Hbody. cbn.
    eexists. split; [reflexivity|]. cbn.
    split; [reflexivity|]. split; [reflexivity|].
    destruct body as [|b body]; cbn.
    + split; [reflexivity|]. split; [congruence | reflexivity].
    + split; [reflexivity|]. split; [reflexivity | discriminate].
Qed.

(** X12. The headers [fetch] receives: the default [Content-Type:
    application/json] only when the options have no [headers] key.
    Headers given by the caller replace the default altogether (they are
    not merged with it), and a [headers] key holding [undefined] removes
    it. *)
Theorem apiRequest_headers
  (url : jsstring) (options : RequestInit) (w : ApiWorld) :
  exists c,
    requests (snd (apiRequest network url options w)) = requests w ++ [c] /\
    fetch_url c = url /\
    init_method (fetch_init c) = init_method options /\
    init_body (fetch_init c) = init_body options /\
    init_headers (fetch_init c) =
      match init_headers options with
      | Absent => Value [(lit "Content-Type", lit "application/json")]
      | Undefined => Undefined
      | Value h => Value h
      end.
Proof.
  destruct (apiRequest_run url options w) as [r [Hrun _]].
  rewrite Hrun. cbn. eexists. split; [reflexivity|]. cbn.
  repeat split. destruct (init_headers options); reflexivity.
Qed.

End ApiFacts.

(* ================================================================= *)
(** * [withRetry] *)

Section RetryFacts.

Variable T : Type.
Variable maxRetries : Z.
Variable delay : Z.

Local Abbreviation retry := (@retry_loop T (Script T) scripted_call scripted_sleep
                               maxRetries delay).

(** A failed attempt with retries left: the wait, and the loop goes on. *)
Lemma turn_retries (i : Z) (o : Outcome (ApiResponse T)) rest n ws :
  failed_attempt o = true ->
  (i < maxRetries)%Z ->
  turn scripted_call scripted_sleep maxRetries delay i
    {| upcoming := o :: rest; made := n; waited := ws |} =
  (Resolved (Continue (as_last_error o)),
   {| upcoming := rest; made := Datatypes.S n;
      waited := ws ++ [(delay * 2 ^ i)%Z] |}).
Proof.
  intros Hf Hi. apply Z.ltb_lt in Hi.
  unfold turn, try_catch, bind, scripted_call, modify, scripted_sleep, ret. cbn.
  destruct o as [r|e]; cbn in Hf |- *.
  - rewrite Hf, Hi. reflexivity.
  - rewrite Hi. reflexivity.
Qed.

(** The attempt that ends the loop: it succeeded, or no retry is left. *)
Lemma turn_ends (i : Z) (o : Outcome (ApiResponse T)) rest n ws :
  failed_attempt o = false \/ (maxRetries <= i)%Z ->
  turn scripted_call scripted_sleep maxRetries delay i
    {| upcoming := o :: rest; made := n; waited := ws |} =
  (match o with
   | Resolved r => Resolved (Return r)
   | Rejected e => Rejected e
   end,
   {| upcoming := rest; made := Datatypes.S n; waited := ws |}).
Proof.
  intros H.
  unfold turn, try_catch, bind, scripted_call, modify, scripted_sleep, ret, throw.
  cbn. destruct o as [r|e]; cbn in H |- *.
  - destruct H as [Hf|Hi].
    + rewrite Hf. reflexivity.
    + apply Z.ltb_ge in Hi. rewrite Hi, andb_false_r. reflexivity.
  - destruct H as [Hf|Hi]; [discriminate|].
    apply Z.ltb_ge in Hi. rewrite Hi. reflexivity.
Qed.

Lemma backoff_snoc (n : nat) :
  backoff delay (Datatypes.S n) = backoff delay n ++ [(delay * 2 ^ Z.of_nat n)%Z].
Proof.
  unfold backoff. rewrite seq_S, map_app. reflexivity.
Qed.

(** The loop through a run of failed attempts. *)
Lemma retry_through_failures (fails : list (Outcome (ApiResponse T))) :
  forall (turns : nat) (done : nat) (last : option (ApiResponse T)) rest n,
    Forall (fun o => failed_attempt o = true) fails ->
    (Z.of_nat (done + List.length fails) <= maxRetries)%Z ->
    List.length fails <= turns ->
    exists last',
      retry turns (Z.of_nat done) last
        {| upcoming := fails ++ rest; made := n; waited := backoff delay done |} =
      retry (turns - List.length fails) (Z.of_nat (done + List.length fails)) last'
        {| upcoming := rest; made := n + List.length fails;
           waited := backoff delay (done + List.length fails) |}.
Proof.
  induction fails as [|o fails IH]; intros turns done last rest n Hall Hle Hturns.
  - exists last. cbn. rewrite !Nat.add_0_r, Nat.sub_0_r. reflexivity.
  - inversion Hall as [|? ? Ho Hrest]; subst.
    cbn [List.length] in *.
    destruct turns as [|turns]; [lia|].
    cbn [retry_loop app]. unfold bind at 1.
    rewrite turn_retries; [|exact Ho|lia].
    destruct (IH turns (Datatypes.S done) (Some (as_last_error o)) rest
                (Datatypes.S n) Hrest) as [last' Heq]; [lia|lia|].
    exists last'.
    rewrite <- backoff_snoc.
    replace (Z.of_nat done + 1)%Z with (Z.of_nat (Datatypes.S done)) by lia.
    rewrite Heq. cbn [Nat.sub].
    replace (Datatypes.S done + List.length fails)
      with (done + Datatypes.S (List.length fails)) by lia.
    replace (Datatypes.S n + List.length fails)
      with (n + Datatypes.S (List.length fails)) by lia.
    reflexivity.
Qed.

Lemma retry_outcome
  (fails : list (Outcome (ApiResponse T))) (o : Outcome (ApiResponse T)) rest :
  Forall (fun o => failed_attempt o = true) fails ->
  (Z.of_nat (List.length fails) <= maxRetries)%Z ->
  failed_attempt o = false \/ Z.of_nat (List.length fails) = maxRetries ->
  withRetry scripted_call scripted_sleep maxRetries delay
    {| upcoming := fails ++ o :: rest; made := 0; waited := [] |} =
  (match o with
   | Resolved r => Resolved (Some r)
   | Rejected e => Rejected e
   end,
   {| upcoming := rest; made := Datatypes.S (List.length fails);
      waited := backoff delay (List.length fails) |}).
Proof.
  intros Hall Hle Hend. unfold withRetry.
  destruct (@retry_through_failures fails (Z.to_nat (maxRetries + 1)) 0 None
              (o :: rest) 0 Hall) as [last' Heq]; [cbn; lia | lia |].
  change (backoff delay 0) with (@nil Z) in Heq.
  change (Z.of_nat 0) with 0%Z in Heq. rewrite Heq. cbn [Nat.add].
  destruct (Z.to_nat (maxRetries + 1) - List.length fails) as [|turns] eqn:Hturns;
    [lia|].
  cbn [retry_loop]. unfold bind at 1.
  rewrite turn_ends; [|destruct Hend as [Hf|He]; [left; exact Hf | right; lia]].
  destruct o as [r|e]; reflexivity.
Qed.

(** X13. [withRetry] gives the first attempt that succeeds: when the attempts
    before it failed (they threw, or answered with a non-empty error) and
    there are at most [maxRetries] of them, it resolves with the response
    of that attempt, having made one call per attempt and waited
    [delay * 2^i] after the failed attempt [i], and it calls no more. *)
Theorem withRetry_first_success
  (fails : list (Outcome (ApiResponse T))) (r : ApiResponse T) rest :
  Forall (fun o => failed_attempt o = true) fails ->
  (Z.of_nat (List.length fails) <= maxRetries)%Z ->
  has_error r = false ->
  withRetry scripted_call scripted_sleep maxRetries delay
    {| upcoming := fails ++ Resolved r :: rest; made := 0; waited := [] |} =
  (Resolved (Some r),
   {| upcoming := rest; made := Datatypes.S (List.length fails);
      waited := backoff delay (List.length fails) |}).
Proof.
  intros Hall Hle Hok.
  apply (@retry_outcome fails (Resolved r) rest Hall Hle). left. exact Hok.
Qed.

(** X14. [withRetry] gives up after [maxRetries] retries: when the first
    [maxRetries + 1] attempts all fail, it makes exactly these calls, waits
    after each but the last, and ends as the last attempt did: it resolves
    with the error response of the last attempt, or rejects with what the
    last attempt threw. *)
Theorem withRetry_gives_up
  (fails : list (Outcome (ApiResponse T))) (o : Outcome (ApiResponse T)) rest :
  Forall (fun o => failed_attempt o = true) fails ->
  Z.of_nat (List.length fails) = maxRetries ->
  failed_attempt o = true ->
  withRetry scripted_call scripted_sleep maxRetries delay
    {| upcoming := fails ++ o :: rest; made := 0; waited := [] |} =
  (match o with
   | Resolved r => Resolved (Some r)
   | Rejected e => Rejected e
   end,
   {| upcoming := rest; made := Datatypes.S (List.length fails);
      waited := backoff delay (List.length fails) |}).
Proof.
  intros Hall Hlen _.
  apply (@retry_outcome fails o rest Hall); [lia|]. right. exact Hlen.
Qed.

(** One turn on a script: a call, and either the wait with the loop
    going on (a retry is left), or the end of the loop without a wait. *)
Lemma turn_cases (i : Z) (w : Script T) :
  (exists e,
     (i < maxRetries)%Z /\
     turn scripted_call scripted_sleep maxRetries delay i w =
     (Resolved (Continue e),
      {| upcoming := tl (upcoming w); made := Datatypes.S (made w);
         waited := waited w ++ [(delay * 2 ^ i)%Z] |})) \/
  (exists o,
     turn scripted_call scripted_sleep maxRetries delay i w =
     (o, {| upcoming := tl (upcoming w); made := Datatypes.S (made w);
            waited := waited w |}) /\
     forall e, o <> Resolved (Continue e)).
Proof.
  unfold turn, try_catch, bind, scripted_call, modify, scripted_sleep, ret, throw.
  destruct (upcoming w) as [|[r|e] rest]; cbn.
  - destruct (Z.ltb_spec i maxRetries).
    + left. eexists. split; [assumption|reflexivity].
    + right. eexists. split; [reflexivity|]. discriminate.
  - destruct (Z.ltb_spec i maxRetries).
    + destruct (has_error r); cbn.
      * left. eexists. split; [assumption|reflexivity].
      * right. eexists. split; [reflexivity|]. discriminate.
    + rewrite andb_false_r.
      right. eexists. split; [reflexivity|]. discriminate.
  - destruct (Z.ltb_spec i maxRetries).
    + left. eexists. split; [assumption|reflexivity].
    + right. eexists. split; [reflexivity|]. discriminate.
Qed.

Lemma retry_calls (turns : nat) :
  forall (done : nat) (last : option (ApiResponse T)) upc n,
    (maxRetries < Z.of_nat done + Z.of_nat turns)%Z ->
    exists k,
      k <= turns /\
      (turns <> 0 -> k <> 0) /\
      made (snd (retry turns (Z.of_nat done) last
                   {| upcoming := upc; made := n; waited := backoff delay done |}))
        = n + k /\
      waited (snd (retry turns (Z.of_nat done) last
                     {| upcoming := upc; made := n; waited := backoff delay done |}))
        = backoff delay (done + Nat.pred k).
Proof.
  induction turns as [|turns IH]; intros done last upc n Hturns.
  - exists 0. cbn. rewrite !Nat.add_0_r.
    split; [lia|]. split; [congruence|]. split; reflexivity.
  - cbn [retry_loop]. unfold bind.
    destruct (turn_cases (Z.of_nat done)
                {| upcoming := upc; made := n; waited := backoff delay done |})
      as [[e [Hlt Hturn]]|[o [Hturn Hend]]]; rewrite Hturn;
      cbn [upcoming made waited].
    + rewrite <- backoff_snoc.
      replace (Z.of_nat done + 1)%Z with (Z.of_nat (Datatypes.S done)) by lia.
      destruct (IH (Datatypes.S done) (Some e) (tl upc) (Datatypes.S n))
        as [k [Hk [Hnz [Hmade Hwaited]]]]; [lia|].
      destruct k as [|k]; [exfalso; assert (Ht : turns <> 0) by lia; exact (Hnz Ht eq_refl)|].
      exists (Datatypes.S (Datatypes.S k)). split; [lia|]. split; [discriminate|].
      rewrite Hmade, Hwaited. split; [lia|]. f_equal. cbn [Nat.pred]. lia.
    + exists 1. split; [lia|]. split; [discriminate|].
      destruct o as [[e|r]|e]; cbn.
      * elim (Hend e eq_refl).
      * rewrite Nat.add_0_r. split; [lia|reflexivity].
      * rewrite Nat.add_0_r. split; [lia|reflexivity].
Qed.

(** X15. Whatever the attempts give, [withRetry] makes at most
    [maxRetries + 1] calls, and it has waited after each call but the
    last: [delay * 2^i] after the call [i]. *)
Theorem withRetry_call_bound (script : list (Outcome (ApiResponse T))) :
  exists calls_made,
    calls_made <= Z.to_nat (maxRetries + 1) /\
    made (snd (withRetry scripted_call scripted_sleep maxRetries delay
                 {| upcoming := script; made := 0; waited := [] |})) = calls_made /\
    waited (snd (withRetry scripted_call scripted_sleep maxRetries delay
                   {| upcoming := script; made := 0; waited := [] |}))
      = backoff delay (Nat.pred calls_made).
Proof.
  unfold withRetry.
  destruct (retry_calls (Z.to_nat (maxRetries + 1)) 0 None script 0)
    as [k [Hk [_ [Hmade Hwaited]]]]; [lia|].
  exists k. split; [exact Hk|]. split; [exact Hmade | exact Hwaited].
Qed.

End RetryFacts.

Section RetryAny.

Variable T : Type.
Variable W : Type.
Variable apiCall : M W (ApiResponse T).
Variable sleep : Z -> W -> W.
Variable maxRetries : Z.
Variable delay : Z.

(** X16. With a negative [maxRetries] the loop has no turn: [withRetry] makes
    no call, waits for nothing and resolves with [undefined]. *)
Theorem withRetry_negative (w : W) :
  (maxRetries < 0)%Z ->
  withRetry apiCall sleep maxRetries delay w = (Resolved None, w).
Proof.
  intros Hneg. unfold withRetry.
  replace (Z.to_nat (maxRetries + 1)) with 0 by lia. reflexivity.
Qed.

Hypothesis apiCall_resolves : forall w, exists r w', apiCall w = (Resolved r, w').

Lemma turn_resolves (i : Z) (w : W) :
  exists t w',
    turn apiCall sleep maxRetries delay i w = (Resolved t, w') /\
    (forall e, t = Continue e -> (i < maxRetries)%Z).
Proof.
  unfold turn, try_catch, bind, modify, ret.
  destruct (apiCall_resolves w) as [r [w' Hcall]]. rewrite Hcall.
  destruct (has_error r && (i <? maxRetries)%Z) eqn:Hc.
  - eexists _, _. split; [reflexivity|].
    intros e _. apply andb_true_iff in Hc. destruct Hc as [_ Hc].
    apply Z.ltb_lt. exact Hc.
  - eexists _, _. split; [reflexivity|]. intros e He. discriminate He.
Qed.

Lemma retry_loop_resolves (turns : nat) :
  forall (i : Z) (last : option (ApiResponse T)) (w : W),
    exists res w',
      retry_loop apiCall sleep maxRetries delay turns i last w = (Resolved res, w') /\
      ((maxRetries < i + Z.of_nat turns)%Z -> turns <> 0 -> res <> None) /\
      (turns = 0 -> res = last).
Proof.
  induction turns as [|turns IH]; intros i last w.
  - eexists _, _. split; [reflexivity|]. split; [congruence|reflexivity].
  - cbn [retry_loop]. unfold bind at 1.
    destruct (turn_resolves i w) as [t [w1 [Hturn Hcont]]]. rewrite Hturn.
    destruct t as [e|r].
    + destruct (IH (i + 1)%Z (Some e) w1) as [res [w' [Hrun [Hsome Hzero]]]].
      exists res, w'. split; [exact Hrun|]. split; [|discriminate].
      intros Hlt _. destruct turns as [|turns'].
      * rewrite (Hzero eq_refl). discriminate.
      * apply Hsome; [lia|discriminate].
    + eexists _, _. split; [reflexivity|]. split; [|discriminate].
      intros _ _. discriminate.
Qed.

Lemma withRetry_resolves (w : W) :
  exists res w',
    withRetry apiCall sleep maxRetries delay w = (Resolved res, w') /\
    ((0 <= maxRetries)%Z -> res <> None).
Proof.
  unfold withRetry.
  destruct (retry_loop_resolves (Z.to_nat (maxRetries + 1)) 0%Z None w)
    as [res [w' [Hrun [Hsome _]]]].
  exists res, w'. split; [exact Hrun|].
  intros Hpos. apply Hsome; lia.
Qed.

End RetryAny.

(** X17. [withRetry] around [apiRequest] never rejects, whatever the network
    does on each attempt; with a [maxRetries] that is not negative it
    resolves with a response. *)
Theorem withRetry_apiRequest_never_rejects
  (J : Type) (network : nat -> FetchCall -> Outcome (Response J))
  (url : jsstring) (options : RequestInit)
  (maxRetries delay : Z) (w : ApiWorld) :
  exists res w',
    withRetry (apiRequest network url options) api_sleep maxRetries delay w =
      (Resolved res, w') /\
    ((0 <= maxRetries)%Z -> res <> None).
Proof.
  apply withRetry_resolves.
  intros w0. destruct (apiRequest_run network url options w0) as [r [Hrun _]].
  eexists _, _. exact Hrun.
Qed.

(** Two busy answers, then a fine one, with three retries allowed and a
    delay of one second: three calls, waits of one and two seconds. *)
Lemma withRetry_first_success_witness :
  withRetry scripted_call scripted_sleep 3 1000
    {| upcoming := [Resolved busy; Rejected (ErrorObj (lit "Failed to fetch"))]
                   ++ Resolved fine :: [Resolved busy];
       made := 0; waited := [] |} =
  (Resolved (Some fine),
   {| upcoming := [Resolved busy]; made := 3; waited := [1000%Z; 2000%Z] |}).
Proof.
  apply (@withRetry_first_success jsstring 3 1000
           [Resolved busy; Rejected (ErrorObj (lit "Failed to fetch"))]
           fine [Resolved busy]).
  - repeat constructor.
  - cbn. lia.
  - reflexivity.
Defined.

(** One retry allowed and two attempts that throw: the second error
    reaches the caller. *)
Lemma withRetry_gives_up_witness :
  withRetry scripted_call scripted_sleep 1 1000
    {| upcoming := [Resolved busy]
                   ++ Rejected (ErrorObj (lit "Failed to fetch")) :: [Resolved fine];
       made := 0; waited := [] |} =
  (Rejected (ErrorObj (lit "Failed to fetch")),
   {| upcoming := [Resolved fine]; made := 2; waited := [1000%Z] |}).
Proof.
  apply (@withRetry_gives_up jsstring 1 1000 [Resolved busy]
           (Rejected (ErrorObj (lit "Failed to fetch"))) [Resolved fine]).
  - repeat constructor.
  - reflexivity.
  - reflexivity.
Defined.

(** No turn at all with [maxRetries = -1]. *)
Lemma withRetry_negative_witness :
  withRetry scripted_call scripted_sleep (-1) 1000
    {| upcoming := [Resolved fine]; made := 0; waited := [] |} =
  (Resolved None, {| upcoming := [Resolved fine]; made := 0; waited := [] |}).
Proof.
  apply (@withRetry_negative jsstring (Script jsstring) scripted_call scripted_sleep
           (-1) 1000). lia.
Defined.

(* ================================================================= *)
(** * [truncate] *)

(** X18. [truncate] returns a string that fits [len] unchanged; a longer one
    is cut to its first [len] code units (none for a negative [len]) and
    gets "..." appended.  The result is never longer than [len] code
    units plus the three dots, but it can be longer than the string itself:
    by two code units at most when [len] is not negative, by three
    otherwise. *)
Theorem truncate_length (str : jsstring) (len : Z) :
  ((Z.of_nat (List.length str) <= len)%Z -> AppProjects.truncate str len = str) /\
  ((len < Z.of_nat (List.length str))%Z ->
   AppProjects.truncate str len = firstn (Z.to_nat len) str ++ lit "..." /\
   List.length (AppProjects.truncate str len) = Z.to_nat len + 3) /\
  (Z.of_nat (List.length (AppProjects.truncate str len)) <= Z.max len 0 + 3)%Z /\
  List.length (AppProjects.truncate str len) <= List.length str + 3 /\
  ((0 <= len)%Z ->
   List.length (AppProjects.truncate str len) <= List.length str + 2).
Proof.
  unfold AppProjects.truncate, AppProjects.substring0.
  destruct (Z.leb_spec (Z.of_nat (List.length str)) len) as [Hle|Hlt].
  - split; [reflexivity|]. split; [intros; exfalso; lia|]. repeat split; lia.
  - assert (Hlen : List.length (firstn (Z.to_nat len) str ++ lit "...")
                   = Z.to_nat len + 3).
    { rewrite length_app, length_firstn. cbn. lia. }
    split; [intros; exfalso; lia|]. split; [intros _; split; [reflexivity|exact Hlen]|].
    rewrite Hlen. repeat split; lia.
Qed.

(* ================================================================= *)
(** * The project list *)

Lemma lit_injective (a b : string) : lit a = lit b -> a = b.
Proof.
  revert b. induction a as [|c a IH]; intros [|d b] H; cbn in H;
    try discriminate; [reflexivity|].
  injection H as Hc Hl. f_equal; [|apply IH; exact Hl].
  rewrite <- (ascii_N_embedding c), <- (ascii_N_embedding d), Hc. reflexivity.
Qed.

Lemma string_of_uint_injective (a b : Decimal.uint) :
  NilEmpty.string_of_uint a = NilEmpty.string_of_uint b -> a = b.
Proof.
  intros H.
  assert (Hs : Some a = Some b)
    by (rewrite <- (NilEmpty.usu a), <- (NilEmpty.usu b), H; reflexivity).
  injection Hs; auto.
Qed.

(** Two clocks give two texts. *)
Lemma decimal_injective (a b : N) : decimal a = decimal b -> a = b.
Proof.
  unfold decimal. intros H.
  apply lit_injective, string_of_uint_injective in H.
  rewrite <- (DecimalN.Unsigned.of_to a), <- (DecimalN.Unsigned.of_to b), H.
  reflexivity.
Qed.

Section ProjectFacts.

Import AppProjects.

Variable Content : Type.

(** X19. [handleUpdateProject] keeps the
    length and the order; a project with another id is unchanged, and
    every project with the id of the updated one is replaced by it. *)
Theorem handleUpdateProject_frame
  (updatedProject : Project Content) (prev : list (Project Content)) :
  Forall2
    (fun p p' =>
       (project_id p <> project_id updatedProject -> p' = p) /\
       (project_id p = project_id updatedProject -> p' = updatedProject))
    prev (handleUpdateProject updatedProject prev).
Proof.
  unfold handleUpdateProject.
  induction prev as [|p prev IH]; cbn; constructor; [|exact IH].
  destruct (JS.eqb (project_id p) (project_id updatedProject)) eqn:E.
  - apply eqb_eq in E. split; [intros N; elim (N E) | reflexivity].
  - apply eqb_neq in E. split; [reflexivity | intros H; elim (E H)].
Qed.

(** With ids that are all different, an update replaces exactly the
    project it has the id of. *)
Lemma handleUpdateProject_at
  (p p' : Project Content) (pre post : list (Project Content)) :
  NoDup (map (@project_id Content) (pre ++ p :: post)) ->
  project_id p' = project_id p ->
  handleUpdateProject p' (pre ++ p :: post) = pre ++ p' :: post.
Proof.
  intros Hnd Hid. unfold handleUpdateProject.
  rewrite map_app. cbn [map]. rewrite Hid, eqb_refl.
  rewrite map_app in Hnd. cbn [map] in Hnd.
  apply NoDup_remove_2 in Hnd.
  assert (Hother : forall l,
            ~ In (project_id p) (map (@project_id Content) l) ->
            map (fun q => if JS.eqb (project_id q) (project_id p) then p' else q) l
            = l).
  { induction l as [|q l IH]; intros Hq; [reflexivity|].
    cbn [map] in *. destruct (JS.eqb (project_id q) (project_id p)) eqn:E.
    - apply eqb_eq in E. elim Hq. left. exact E.
    - f_equal. apply IH. intros H. apply Hq. right. exact H. }
  rewrite !Hother; [reflexivity| |];
    intros H; apply Hnd; apply in_or_app; [right|left]; exact H.
Qed.

Lemma save_all_ids (saves : list (N * jsstring * jsstring * Content)) :
  map (@project_id Content) (save_all saves) =
  rev (map (fun s => lit "proj_" ++ decimal (clock_of s)) saves).
Proof.
  unfold save_all.
  assert (H : forall acc,
            map (@project_id Content)
              (fold_left
                 (fun prev s =>
                    match s with
                    | (now, title, tool, c) =>
                        handleSaveAsProject now title tool c prev
                    end) saves acc) =
            rev (map (fun s => lit "proj_" ++ decimal (clock_of s)) saves)
            ++ map (@project_id Content) acc).
  { induction saves as [|[[[now title] tool] c] saves IH]; intros acc.
    - reflexivity.
    - cbn [fold_left map rev]. rewrite IH. cbn [map handleSaveAsProject project_id].
      rewrite <- app_assoc. reflexivity. }
  rewrite H. cbn. apply app_nil_r.
Qed.

Lemma NoDup_map_injective A B (f : A -> B) (l : list A) :
  (forall a b, f a = f b -> a = b) ->
  NoDup (map f l) <-> NoDup l.
Proof.
  intros Hinj. split.
  - apply NoDup_map_inv.
  - intros Hnd. induction Hnd as [|a l Ha Hnd IH]; cbn; constructor.
    + intros Hin. apply in_map_iff in Hin. destruct Hin as [b [Hb Hin]].
      apply Hinj in Hb. subst b. exact (Ha Hin).
    + exact IH.
Qed.

(** X20. Saved projects have different ids exactly when they were saved at
    different clock values (two saves in the same millisecond share their
    id).  Each save adds one project; every saved project is a draft
    without feedback, and none has an empty title. *)
Theorem save_all_ids_unique (saves : list (N * jsstring * jsstring * Content)) :
  (NoDup (map (@project_id Content) (save_all saves)) <->
   NoDup (map (@clock_of Content) saves)) /\
  List.length (save_all saves) = List.length saves /\
  Forall (fun p => project_status p = Draft /\ feedback p = [] /\
                   project_title p <> [])
         (save_all saves).
Proof.
  split; [|split].
  - rewrite save_all_ids.
    rewrite <- (map_map (@clock_of Content) (fun n => lit "proj_" ++ decimal n)).
    split.
    + intros H. apply NoDup_rev in H. rewrite rev_involutive in H.
      apply NoDup_map_injective in H; [exact H|].
      intros a b E. apply app_inv_head in E. apply decimal_injective. exact E.
    + intros H. apply NoDup_rev. apply NoDup_map_injective; [|exact H].
      intros a b E. apply app_inv_head in E. apply decimal_injective. exact E.
  - rewrite <- (length_map (@project_id Content)), save_all_ids.
    rewrite length_rev, length_map. reflexivity.
  - unfold save_all.
    assert (H : forall acc,
              Forall (fun p => project_status p = Draft /\ feedback p = [] /\
                               project_title p <> []) acc ->
              Forall (fun p => project_status p = Draft /\ feedback p = [] /\
                               project_title p <> [])
                (fold_left
                   (fun prev s =>
                      match s with
                      | (now, title, tool, c) =>
                          handleSaveAsProject now title tool c prev
                      end) saves acc)).
    { induction saves as [|[[[now title] tool] c] saves IH]; intros acc Hacc.
      - exact Hacc.
      - cbn [fold_left]. apply IH. constructor; [|exact Hacc].
        cbn. split; [reflexivity|]. split; [reflexivity|].
        destruct title; cbn; discriminate. }
    apply H. constructor.
Qed.

(** X21. Changing the status from the dashboard, with ids that are all
    different: the project in the list takes the new status and keeps
    everything else; the other projects, the order and the comment box
    are untouched. *)
Theorem handleStatusChange_changes_one
  (project : Project Content) (newStatus : ProjectStatus)
  (pre post : list (Project Content)) (d : Dashboard Content) :
  projects d = pre ++ project :: post ->
  NoDup (map (@project_id Content) (projects d)) ->
  projects (handleStatusChange project newStatus d) =
    pre ++
    {| project_id := project_id project; project_title := project_title project;
       toolId := toolId project; generatedContent := generatedContent project;
       project_status := newStatus; feedback := feedback project |} :: post /\
  newComment (handleStatusChange project newStatus d) = newComment d.
Proof.
  intros Hd Hnd. unfold handleStatusChange, onUpdateProject. cbn.
  split; [|reflexivity].
  rewrite Hd in *. apply handleUpdateProject_at; [exact Hnd|reflexivity].
Qed.

(** X22. Adding a comment from the dashboard.  A comment box that holds only
    whitespace changes nothing (the box is not cleared either).
    Otherwise, with ids that are all different, the comment goes to the
    end of the feedback of that project with the text as typed (not
    trimmed), nothing else in the list changes, and the box is cleared. *)
Theorem handleAddComment_appends
  (now : N) (iso : jsstring) (project : Project Content)
  (pre post : list (Project Content)) (d : Dashboard Content) :
  (trim (newComment d) = [] -> handleAddComment now iso project d = d) /\
  (trim (newComment d) <> [] ->
   projects d = pre ++ project :: post ->
   NoDup (map (@project_id Content) (projects d)) ->
   projects (handleAddComment now iso project d) =
     pre ++
     {| project_id := project_id project; project_title := project_title project;
        toolId := toolId project; generatedContent := generatedContent project;
        project_status := project_status project;
        feedback := feedback project ++
          [ {| comment_id := lit "comment_" ++ decimal now;
               author := lit "Team Member";
               comment_text := newComment d;
               comment_timestamp := iso |} ] |} :: post /\
   newComment (handleAddComment now iso project d) = []).
Proof.
  unfold handleAddComment. split.
  - intros Hempty. rewrite Hempty. reflexivity.
  - intros Hne Hd Hnd.
    destruct (trim (newComment d)) as [|c t]; [congruence|]. cbn [falsy].
    cbn. split; [|reflexivity].
    rewrite Hd in *. apply handleUpdateProject_at; [exact Hnd|reflexivity].
Qed.

End ProjectFacts.

(** Approving the first project saved in the sample. *)
Lemma handleStatusChange_changes_one_witness :
  map (@AppProjects.project_status jsstring)
    (AppProjects.projects
       (AppProjects.handleStatusChange laptop_project AppProjects.Approved a_dashboard))
    = [AppProjects.Draft; AppProjects.Approved] /\
  AppProjects.newComment
    (AppProjects.handleStatusChange laptop_project AppProjects.Approved a_dashboard)
    = lit " Looks good ".
Proof.
  destruct (@handleStatusChange_changes_one jsstring laptop_project
              AppProjects.Approved
              [ {| AppProjects.project_id := lit "proj_1700000000500";
                   AppProjects.project_title := lit "Untitled Project";
                   AppProjects.toolId := lit "tag-generator";
                   AppProjects.generatedContent := lit "tags";
                   AppProjects.project_status := AppProjects.Draft;
                   AppProjects.feedback := [] |} ]
              [] a_dashboard) as [Hp Hc].
  - reflexivity.
  - vm_compute. constructor; [intros [H|[]]; discriminate H|].
    constructor; [intros []|constructor].
  - rewrite Hp, Hc. split; reflexivity.
Defined.
